(** * equant: indicator engine and MA-crossover backtester

    A shallow embedding of [backend/app/services/qlib_wrapper.py],
    [backend/app/services/finrl_mock.py] and the guard of
    [backend/app/api/v1/backtest.py].

    Numbers.  Python/NumPy doubles are idealised as exact rationals
    ([Q]); the special values the code produces on purpose (NaN from
    [errors="coerce"], from a rolling window that is not full yet, from
    [.replace(0, nan)]; the infinities of a NumPy division by zero) are
    kept as constructors of [pyfloat].  Rounding error of binary
    floating point is outside the model.

    Bars.  An OHLCV bar is a Python dict.  Only the keys the two
    services read are kept ("date" and "close"); a key can be missing
    from the dict, present with a null or unparseable value, or present
    with a value. *)

From Stdlib Require Import String.
From Stdlib Require Import QArith Qround Lia Lqa List Sorted Bool ZArith.
Import ListNotations.
Open Scope Q_scope.

(* ------------------------------------------------------------------ *)
(** ** Exceptions and the error monad *)
(* ------------------------------------------------------------------ *)

Inductive exn : Type :=
| ValueError          (* "Not enough data: ..." of run_backtest *)
| KeyError            (* a DataFrame column that does not exist *)
| IndexError          (* .iloc[0] / .iloc[-1] on an empty Series *)
| ZeroDivisionError.  (* division of two Python floats by 0.0 *)

Inductive result (A : Type) : Type :=
| Ok (a : A)
| Raise (e : exn).
Arguments Ok {A} a.
Arguments Raise {A} e.

Definition bind {A B : Type} (m : result A) (k : A -> result B) : result B :=
  match m with
  | Ok a => k a
  | Raise e => Raise e
  end.

Notation "x <- m ;; k" := (bind m (fun x => k))
  (at level 61, m at next level, right associativity).

(* ------------------------------------------------------------------ *)
(** ** Numbers *)
(* ------------------------------------------------------------------ *)

Inductive pyfloat : Type :=
| Fin (q : Q)
| NaN
| PInf
| NInf.

Definition Qltb (x y : Q) : bool := negb (Qle_bool y x).

(** Python's [round(x, 2)] on a finite value: the nearest multiple of
    1/100, ties going to the even one. *)
Definition round_half_even (x : Q) : Z :=
  let f := Qfloor x in
  match Qcompare (x - inject_Z f) (1 # 2) with
  | Lt => f
  | Gt => (f + 1)%Z
  | Eq => if Z.even f then f else (f + 1)%Z
  end.

Definition round2 (x : Q) : Q := inject_Z (round_half_even (x * 100)) / 100.

(** [round(float(x), 2)] leaves NaN and the infinities as they are. *)
Definition pf_round2 (x : pyfloat) : pyfloat :=
  match x with
  | Fin q => Fin (round2 q)
  | other => other
  end.

(** Division of two Python floats: raises on a zero divisor. *)
Definition py_div (x y : Q) : result Q :=
  if Qeq_bool y 0 then Raise ZeroDivisionError else Ok (x / y).

(** Division of two NumPy doubles: never raises. *)
Definition np_div (x y : Q) : pyfloat :=
  if Qeq_bool y 0 then
    (if Qeq_bool x 0 then NaN else if Qltb 0 x then PInf else NInf)
  else Fin (x / y).

Fixpoint Qsum (xs : list Q) : Q :=
  match xs with
  | [] => 0
  | x :: r => x + Qsum r
  end.

(* ------------------------------------------------------------------ *)
(** ** The pandas operations the services use *)
(* ------------------------------------------------------------------ *)

(** A cell of a dict-built DataFrame column. *)
Inductive cell (A : Type) : Type :=
| Absent           (* the dict has no such key *)
| Null             (* None, NaN or (for "close") an unparseable value *)
| Val (a : A).
Arguments Absent {A}.
Arguments Null {A}.
Arguments Val {A} a.

Record Bar : Type := mkBar { date : cell string; close : cell Q }.

Definition is_absent {A} (c : cell A) : bool :=
  match c with Absent => true | _ => false end.

(** [pd.DataFrame(ohlcv)] has a column for every key that occurs in at
    least one dict. *)
Definition has_column {A} (col : Bar -> cell A) (ohlcv : list Bar) : bool :=
  existsb (fun b => negb (is_absent (col b))) ohlcv.

Definition cell_value {A} (c : cell A) : option A :=
  match c with Val a => Some a | _ => None end.

(** [Series.iloc[-1]]. *)
Fixpoint iloc_last {A} (xs : list A) : result A :=
  match xs with
  | [] => Raise IndexError
  | [x] => Ok x
  | _ :: r => iloc_last r
  end.

(** [Series.iloc[0]]. *)
Definition iloc_first {A} (xs : list A) : result A :=
  match xs with
  | [] => Raise IndexError
  | x :: _ => Ok x
  end.

(** [series.rolling(w).mean()] on a Series without NaN: position [i]
    is NaN until [w] observations are available, then the mean of the
    [w] most recent ones.  A window of 0 observations has no mean. *)
Definition window_at (w i : nat) (xs : list Q) : list Q :=
  firstn w (skipn (i + 1 - w) xs).

Definition rolling_mean_at (w : nat) (xs : list Q) (i : nat) : pyfloat :=
  if ((w =? 0) || (i + 1 <? w))%nat then NaN
  else Fin (Qsum (window_at w i xs) / inject_Z (Z.of_nat w)).

Definition rolling_mean (w : nat) (xs : list Q) : list pyfloat :=
  map (rolling_mean_at w xs) (seq 0 (length xs)).

(* ------------------------------------------------------------------ *)
(** ** qlib_wrapper.py *)
(* ------------------------------------------------------------------ *)

(** [_to_dataframe]: the "close" column made numeric, rows without a
    close dropped.  What the callers use of the frame is its "close"
    column. *)
Definition _to_dataframe (ohlcv : list Bar) : result (list Q) :=
  if has_column close ohlcv
  then Ok (flat_map (fun b => match cell_value (close b) with
                              | Some q => [q] | None => [] end) ohlcv)
  else Raise KeyError.

Definition _calc_ma (series : list Q) (window : nat) : result (option pyfloat) :=
  if (length series <? window)%nat then Ok None
  else m <- iloc_last (rolling_mean window series) ;; Ok (Some m).

Definition mean (xs : list Q) : Q := Qsum xs / inject_Z (Z.of_nat (length xs)).

(** Arithmetic of NumPy doubles with the special values.  The sign of
    a zero is not tracked. *)
Definition pf_opp (x : pyfloat) : pyfloat :=
  match x with
  | Fin q => Fin (- q)
  | NaN => NaN
  | PInf => NInf
  | NInf => PInf
  end.

Definition pf_add (x y : pyfloat) : pyfloat :=
  match x, y with
  | NaN, _ | _, NaN => NaN
  | Fin a, Fin b => Fin (a + b)
  | PInf, NInf | NInf, PInf => NaN
  | PInf, _ | _, PInf => PInf
  | NInf, _ | _, NInf => NInf
  end.

Definition pf_sub (x y : pyfloat) : pyfloat := pf_add x (pf_opp y).

Definition pf_mul (x y : pyfloat) : pyfloat :=
  match x, y with
  | NaN, _ | _, NaN => NaN
  | Fin a, Fin b => Fin (a * b)
  | Fin a, inf | inf, Fin a =>
      if Qeq_bool a 0 then NaN else if Qltb 0 a then inf else pf_opp inf
  | PInf, PInf | NInf, NInf => PInf
  | PInf, NInf | NInf, PInf => NInf
  end.

Definition pf_div (x y : pyfloat) : pyfloat :=
  match x, y with
  | NaN, _ | _, NaN => NaN
  | Fin a, Fin b => np_div a b
  | Fin _, _ => Fin 0
  | inf, Fin b => if Qltb b 0 then pf_opp inf else inf
  | _, _ => NaN
  end.

(** [Series.replace(0, float("nan"))]. *)
Definition pf_replace0 (x : pyfloat) : pyfloat :=
  match x with
  | Fin q => if Qeq_bool q 0 then NaN else Fin q
  | other => other
  end.

Fixpoint zip_with {A B C} (f : A -> B -> C) (xs : list A) (ys : list B) : list C :=
  match xs, ys with
  | x :: xr, y :: yr => f x y :: zip_with f xr yr
  | _, _ => []
  end.

(** [series.diff().dropna()]: the differences of consecutive values. *)
Fixpoint diff (xs : list Q) : list Q :=
  match xs with
  | x :: (y :: _) as r => (y - x) :: diff r
  | _ => []
  end.

(** [Series.clip(lower=0)]. *)
Definition clip_lower0 (x : Q) : Q := if Qltb x 0 then 0 else x.

(** [series.ewm(com=c, min_periods=m).mean()] (pandas' default
    [adjust=True]): the average of all observations so far with weights
    (1-alpha)^0, (1-alpha)^1, ... from the newest back, alpha = 1/(1+c);
    NaN until [m] observations have been seen.  [num] and [den] carry
    the weighted sum and the sum of the weights, [n] the number of
    observations seen. *)
Fixpoint ewm_adjust_from (alpha num den : Q) (n min_periods : nat)
    (xs : list Q) : list pyfloat :=
  match xs with
  | [] => []
  | x :: r =>
      let num' := x + (1 - alpha) * num in
      let den' := 1 + (1 - alpha) * den in
      (if (S n <? min_periods)%nat then NaN else Fin (num' / den'))
        :: ewm_adjust_from alpha num' den' (S n) min_periods r
  end.

Definition ewm_mean_com (com : Q) (min_periods : nat) (xs : list Q) : list pyfloat :=
  ewm_adjust_from (1 / (1 + com)) 0 0 0 min_periods xs.

(** [series.ewm(span=s, adjust=False).mean()]: seeded with the first
    observation, then y_t = (1-alpha) y_(t-1) + alpha x_t with
    alpha = 2/(s+1). *)
Fixpoint ewm_recursive (alpha prev : Q) (xs : list Q) : list Q :=
  match xs with
  | [] => []
  | x :: r =>
      let y := (1 - alpha) * prev + alpha * x in
      y :: ewm_recursive alpha y r
  end.

Definition ewm_mean_span (span : Q) (xs : list Q) : list Q :=
  match xs with
  | [] => []
  | x :: r => x :: ewm_recursive (2 / (span + 1)) x r
  end.

Definition nat_Q (n : nat) : Q := inject_Z (Z.of_nat n).

Definition rsi_of_rs (rs : pyfloat) : pyfloat :=
  pf_sub (Fin 100) (pf_div (Fin 100) (pf_add (Fin 1) rs)).

(** The columns of [_calc_rsi] once the length test has passed. *)
Definition avg_gain_of (series : list Q) (period : nat) : list pyfloat :=
  ewm_mean_com (nat_Q period - 1) period (map clip_lower0 (diff series)).

Definition avg_loss_of (series : list Q) (period : nat) : list pyfloat :=
  ewm_mean_com (nat_Q period - 1) period
    (map (fun d => clip_lower0 (- d)) (diff series)).

Definition rsi_series (series : list Q) (period : nat) : list pyfloat :=
  let rs := zip_with pf_div (avg_gain_of series period)
                     (map pf_replace0 (avg_loss_of series period)) in
  map rsi_of_rs rs.

Definition _calc_rsi (series : list Q) (period : nat) : result pyfloat :=
  if (length series <? period + 1)%nat then Ok (Fin 50)
  else
    let rsi := rsi_series series period in
    match rsi with
    | [] => Ok (Fin 50)
    | _ => iloc_last rsi
    end.

Inductive MacdSignal : Type := bullish | bearish | neutral.

Definition _calc_macd_signal (series : list Q) : result MacdSignal :=
  if (length series <? 26)%nat then Ok neutral
  else
    let ema12 := ewm_mean_span 12 series in
    let ema26 := ewm_mean_span 26 series in
    let macd_line := zip_with Qminus ema12 ema26 in
    let signal_line := ewm_mean_span 9 macd_line in
    m <- iloc_last macd_line ;;
    s <- iloc_last signal_line ;;
    Ok (if Qltb s m then bullish else if Qltb m s then bearish else neutral).

Record IndicatorResult : Type := mkIndicators {
  rsi : pyfloat;
  macd : MacdSignal;
  ma20 : option pyfloat;
  ma60 : option pyfloat
}.

(** The dict of the [except] branch. *)
Definition indicator_defaults : IndicatorResult :=
  {| rsi := Fin 50; macd := neutral; ma20 := None; ma60 := None |}.

(** The body of the [try] of [compute_indicators]. *)
Definition compute_indicators_try (ohlcv : list Bar) : result IndicatorResult :=
  df <- _to_dataframe ohlcv ;;
  rsi_v <- _calc_rsi df 14 ;;
  macd_signal <- _calc_macd_signal df ;;
  ma20_v <- _calc_ma df 20 ;;
  ma60_v <- _calc_ma df 60 ;;
  Ok {| rsi := pf_round2 rsi_v;
        macd := macd_signal;
        ma20 := option_map pf_round2 ma20_v;
        ma60 := option_map pf_round2 ma60_v |}.

Definition compute_indicators (ohlcv : list Bar) : IndicatorResult :=
  match compute_indicators_try ohlcv with
  | Ok r => r
  | Raise _ => indicator_defaults
  end.

(* ------------------------------------------------------------------ *)
(** ** finrl_mock.py *)
(* ------------------------------------------------------------------ *)

(** A row of the frame the loop walks: the bars that are left after
    both [dropna] calls, with their two moving averages. *)
Record Row : Type := mkRow {
  row_date : string;
  row_close : Q;
  row_short : Q;     (* column f"ma{ma_short}" *)
  row_long : Q       (* column f"ma{ma_long}" *)
}.

Definition row_of (r : (cell string * Q) * (pyfloat * pyfloat)) : list Row :=
  match r with
  | ((Val d, c), (Fin s, Fin l)) => [mkRow d c s l]
  | _ => []
  end.

(** Lines 57-63: the columns "date" and "close" are selected, the rows
    without a numeric close dropped, the rolling means added, and the
    rows with any null left (a null date, a window not yet full)
    dropped. *)
Definition simulation_window (ohlcv : list Bar) (ma_short ma_long : nat)
  : result (list Row) :=
  if has_column date ohlcv && has_column close ohlcv then
    let df := flat_map (fun b => match cell_value (close b) with
                                 | Some q => [(date b, q)]
                                 | None => []
                                 end) ohlcv in
    let closes := map snd df in
    let shorts := rolling_mean ma_short closes in
    let longs := rolling_mean ma_long closes in
    Ok (flat_map row_of (combine df (combine shorts longs)))
  else Raise KeyError.

Record Point : Type := mkPoint { point_date : string; point_equity : Q }.

(** The local variables of [run_backtest] that live across the loop. *)
Record Sim : Type := mkSim {
  equity : Q;                    (* cash *)
  position : Q;                  (* number of shares held *)
  entry_price : Q;
  trade_results : list Q;
  equity_curve : list Point;
  prev_short : Q;
  prev_long : Q
}.

Definition init_state (initial_capital : Q) (first : Row) : Sim :=
  {| equity := initial_capital;
     position := 0;
     entry_price := 0;
     trade_results := [];
     equity_curve := [];
     prev_short := row_short first;
     prev_long := row_long first |}.

(** The test of the first [if] of the loop body. *)
Definition golden_cross (st : Sim) (row : Row) : bool :=
  Qle_bool (prev_short st) (prev_long st)
  && Qltb (row_long row) (row_short row)
  && Qeq_bool (position st) 0.

Definition should_sell (take_profit_pct stop_loss_pct : Q) (st : Sim)
    (row : Row) (change : Q) : bool :=
  (Qle_bool (prev_long st) (prev_short st) && Qltb (row_short row) (row_long row))
  || Qle_bool take_profit_pct change
  || Qle_bool change (- stop_loss_pct).

(** The [if]/[elif] of the loop body: buy, sell or hold. *)
Definition trade (take_profit_pct stop_loss_pct : Q) (st : Sim) (row : Row)
  : result Sim :=
  let price := row_close row in
  if golden_cross st row then
    shares <- py_div (equity st) price ;;
    Ok {| equity := equity st;
          position := shares;
          entry_price := price;
          trade_results := trade_results st;
          equity_curve := equity_curve st;
          prev_short := prev_short st;
          prev_long := prev_long st |}
  else if Qltb 0 (position st) then
    change <- py_div (price - entry_price st) (entry_price st) ;;
    if should_sell take_profit_pct stop_loss_pct st row change then
      Ok {| equity := position st * price;
            position := 0;
            entry_price := 0;
            trade_results := trade_results st ++ [price - entry_price st];
            equity_curve := equity_curve st;
            prev_short := prev_short st;
            prev_long := prev_long st |}
    else Ok st
  else Ok st.

Definition current_equity (st : Sim) (price : Q) : Q :=
  if Qltb 0 (position st) then position st * price + equity st else equity st.

(** The end of the loop body: the curve point and the new [prev_*]. *)
Definition record_point (st : Sim) (row : Row) : Sim :=
  {| equity := equity st;
     position := position st;
     entry_price := entry_price st;
     trade_results := trade_results st;
     equity_curve := equity_curve st
       ++ [mkPoint (row_date row) (round2 (current_equity st (row_close row)))];
     prev_short := row_short row;
     prev_long := row_long row |}.

(** One iteration of the loop. *)
Definition step (take_profit_pct stop_loss_pct : Q) (st : Sim) (row : Row)
  : result Sim :=
  st' <- trade take_profit_pct stop_loss_pct st row ;;
  Ok (record_point st' row).

(** The [for] loop. *)
Fixpoint walk (take_profit_pct stop_loss_pct : Q) (st : Sim) (rows : list Row)
  : result Sim :=
  match rows with
  | [] => Ok st
  | row :: rest =>
      st' <- step take_profit_pct stop_loss_pct st row ;;
      walk take_profit_pct stop_loss_pct st' rest
  end.

(** Lines 66-103. *)
Definition simulate (rows : list Row) (initial_capital take_profit_pct
    stop_loss_pct : Q) : result Sim :=
  first <- iloc_first rows ;;
  walk take_profit_pct stop_loss_pct (init_state initial_capital first) rows.

(** Lines 105-109: "Close open position at last price". *)
Definition close_open_position (st : Sim) (rows : list Row) : result Sim :=
  if Qltb 0 (position st) then
    last_price <- iloc_last (map row_close rows) ;;
    Ok {| equity := position st * last_price;
          position := position st;
          entry_price := entry_price st;
          trade_results := trade_results st ++ [last_price - entry_price st];
          equity_curve := equity_curve st;
          prev_short := prev_short st;
          prev_long := prev_long st |}
  else Ok st.

(** [equity_curve[-1]["equity"] if equity_curve else initial_capital]. *)
Definition final_equity (initial_capital : Q) (curve : list Point) : Q :=
  last (map point_equity curve) initial_capital.

(** [Series.cummax()]. *)
Definition Qmax2 (m x : Q) : Q := if Qltb m x then x else m.

Fixpoint cummax_from (m : Q) (xs : list Q) : list Q :=
  match xs with
  | [] => []
  | x :: r => Qmax2 m x :: cummax_from (Qmax2 m x) r
  end.

Definition cummax (xs : list Q) : list Q :=
  match xs with
  | [] => []
  | x :: r => x :: cummax_from x r
  end.

(** [Series.min()]: NaN entries are skipped; NaN when nothing is left. *)
Definition pf_ltb (x y : pyfloat) : bool :=
  match x, y with
  | Fin a, Fin b => Qltb a b
  | NInf, Fin _ | NInf, PInf | Fin _, PInf => true
  | _, _ => false
  end.

Definition pf_min2 (acc x : pyfloat) : pyfloat :=
  match acc, x with
  | NaN, _ => x
  | _, NaN => acc
  | _, _ => if pf_ltb x acc then x else acc
  end.

Definition series_min (xs : list pyfloat) : pyfloat := fold_left pf_min2 xs NaN.

(** Lines 115-117: [(equities - rolling_max) / rolling_max * 100], one
    entry [dd e m] per point, in exact arithmetic.  The double the code
    computes can differ from it in the last digit, which the rounding
    to two decimals shows only at a value that lies exactly between two
    of them; nothing below is stated about such a value. *)
Definition dd (e m : Q) : pyfloat := pf_mul (np_div (e - m) m) (Fin 100).

Definition drawdown (equities : list Q) : list pyfloat :=
  zip_with dd equities (cummax equities).

(** Line 118. *)
Definition max_drawdown (equities : list Q) : pyfloat :=
  series_min (drawdown equities).

Definition win_rate (trades : list Q) : Q :=
  match trades with
  | [] => 0
  | _ => nat_Q (length (filter (fun r => Qltb 0 r) trades))
           / nat_Q (length trades) * 100
  end.

(** The "metrics" dict.  [sharpe_ratio] (a standard deviation and a
    square root, outside the rationals) is left out; computing it never
    raises. *)
Record Metrics : Type := mkMetrics {
  total_return_pct : Q;
  max_drawdown_pct : pyfloat;
  num_trades : nat;
  win_rate_pct : Q
}.

Record BacktestResult : Type := mkResult {
  strategy : nat * nat;          (* f"MA-Crossover ({ma_short}/{ma_long})" *)
  metrics : Metrics;
  result_curve : list Point      (* "equity_curve" *)
}.

(** Lines 111-138. *)
Definition report (initial_capital : Q) (ma_short ma_long : nat) (st : Sim)
  : result BacktestResult :=
  let final := final_equity initial_capital (equity_curve st) in
  ratio <- py_div (final - initial_capital) initial_capital ;;
  let total_return := ratio * 100 in
  Ok {| strategy := (ma_short, ma_long);
        metrics := {| total_return_pct := round2 total_return;
                      max_drawdown_pct :=
                        pf_round2 (max_drawdown (map point_equity (equity_curve st)));
                      num_trades := length (trade_results st);
                      win_rate_pct := round2 (win_rate (trade_results st)) |};
        result_curve := equity_curve st |}.

(** [run_backtest], from the fetched history on. *)
Definition run_backtest (ohlcv : list Bar) (initial_capital : Q)
    (ma_short ma_long : nat) (take_profit_pct stop_loss_pct : Q)
  : result BacktestResult :=
  if (length ohlcv <? ma_long + 5)%nat then Raise ValueError
  else
    rows <- simulation_window ohlcv ma_short ma_long ;;
    st <- simulate rows initial_capital take_profit_pct stop_loss_pct ;;
    st' <- close_open_position st rows ;;
    report initial_capital ma_short ma_long st'.

(** The locals of [run_backtest] after the first [n] iterations of the
    loop. *)
Definition state_after (n : nat) (ohlcv : list Bar) (initial_capital : Q)
    (ma_short ma_long : nat) (take_profit_pct stop_loss_pct : Q) : result Sim :=
  rows <- simulation_window ohlcv ma_short ma_long ;;
  first <- iloc_first rows ;;
  walk take_profit_pct stop_loss_pct (init_state initial_capital first)
       (firstn n rows).

(** Ghost state.  [trade_results] keeps the price difference of every
    closed trade but not its size; [sold_shares] is the number of shares
    the trade closed by an iteration had, [shares_log] collects them
    over the loop and [liquidated_shares] adds the forced liquidation. *)
Definition sold_shares (take_profit_pct stop_loss_pct : Q) (st : Sim)
    (row : Row) : list Q :=
  if golden_cross st row then []
  else if Qltb 0 (position st) then
    match py_div (row_close row - entry_price st) (entry_price st) with
    | Ok change =>
        if should_sell take_profit_pct stop_loss_pct st row change
        then [position st] else []
    | Raise _ => []
    end
  else [].

Fixpoint shares_log (take_profit_pct stop_loss_pct : Q) (st : Sim)
    (rows : list Row) : list Q :=
  match rows with
  | [] => []
  | row :: rest =>
      match step take_profit_pct stop_loss_pct st row with
      | Ok st' => sold_shares take_profit_pct stop_loss_pct st row
                  ++ shares_log take_profit_pct stop_loss_pct st' rest
      | Raise _ => []
      end
  end.

Definition liquidated_shares (st : Sim) : list Q :=
  if Qltb 0 (position st) then [position st] else [].

(** The shares-weighted sum of the pnls. *)
Definition weighted_pnl (shares pnls : list Q) : Q :=
  Qsum (zip_with Qmult shares pnls).

(** While shares are held, they are worth the cash at the entry price. *)
Definition fully_invested (st : Sim) : Prop :=
  position st == 0 \/ position st * entry_price st == equity st.

(** "Equity never falls below its running peak". *)
Definition never_below_peak (equities : list Q) : Prop :=
  Forall2 (fun e peak => peak <= e) equities (cummax equities).

(* ------------------------------------------------------------------ *)
(** ** api/v1/backtest.py *)
(* ------------------------------------------------------------------ *)

Module Api.

Record BacktestRequest : Type := mkRequest {
  symbol : string;
  initial_capital : Q;
  ma_short : nat;
  ma_long : nat;
  take_profit_pct : Q;
  stop_loss_pct : Q;
  lookback_days : nat
}.

Inductive Detail : Type :=
| short_not_less_than_long   (* "ma_short must be strictly less than ma_long." *)
| value_error_text           (* str(exc) of the service's ValueError *)
| simulation_failed.         (* "Backtest simulation failed." *)

Inductive HTTPException : Type :=
| HTTP_422_UNPROCESSABLE_ENTITY (detail : Detail)
| HTTP_500_INTERNAL_SERVER_ERROR (detail : Detail).

Record BacktestResponse : Type := mkResponse {
  response_symbol : string;
  response_strategy : nat * nat;
  response_metrics : Metrics;
  response_curve : list Point
}.

Section Endpoint.

(** [finrl_mock.run_backtest] as the endpoint sees it: a call with
    the seven keyword arguments that returns or raises. *)
Variable service :
  string -> Q -> nat -> nat -> Q -> Q -> nat -> result BacktestResult.

Definition run_backtest (body : BacktestRequest)
  : BacktestResponse + HTTPException :=
  if (ma_long body <=? ma_short body)%nat then
    inr (HTTP_422_UNPROCESSABLE_ENTITY short_not_less_than_long)
  else
    match service (symbol body) (initial_capital body) (ma_short body)
                  (ma_long body) (take_profit_pct body)
                  (stop_loss_pct body) (lookback_days body) with
    | Ok r => inl {| response_symbol := symbol body;
                     response_strategy := strategy r;
                     response_metrics := metrics r;
                     response_curve := result_curve r |}
    | Raise ValueError => inr (HTTP_422_UNPROCESSABLE_ENTITY value_error_text)
    | Raise _ => inr (HTTP_500_INTERNAL_SERVER_ERROR simulation_failed)
    end.

End Endpoint.

End Api.

(** [finrl_mock.run_backtest] with its first statement: the history is
    whatever [fetch_market_data(symbol, days=lookback_days)] returns. *)
Definition finrl_mock_run_backtest (fetch_market_data : string -> nat -> list Bar)
    (symbol : string) (initial_capital : Q) (ma_short ma_long : nat)
    (take_profit_pct stop_loss_pct : Q) (lookback_days : nat)
  : result BacktestResult :=
  run_backtest (fetch_market_data symbol lookback_days) initial_capital
               ma_short ma_long take_profit_pct stop_loss_pct.

(* ------------------------------------------------------------------ *)
(** ** Concrete histories *)
(* ------------------------------------------------------------------ *)

Definition dates15 : list string :=
  ["2024-01-01"; "2024-01-02"; "2024-01-03"; "2024-01-04"; "2024-01-05";
   "2024-01-08"; "2024-01-09"; "2024-01-10"; "2024-01-11"; "2024-01-12";
   "2024-01-15"; "2024-01-16"; "2024-01-17"; "2024-01-18"; "2024-01-19"]%string.

Definition history (closes : list (cell Q)) : list Bar :=
  zip_with (fun d c => mkBar (Val d) c) dates15 closes.

(** Ten flat days, a jump that makes the 5-day mean cross above the
    10-day mean, and a small rise at the end: one entry, no exit. *)
Definition entry_history : list Bar :=
  history (map Val [100; 100; 100; 100; 100; 100; 100; 100; 100; 100;
                    125; 125; 125; 125; 130]).

(** The same with a last close of 125 - 1/128. *)
Definition dip_history : list Bar :=
  history (map Val [100; 100; 100; 100; 100; 100; 100; 100; 100; 100;
                    125; 125; 125; 125; 15999 # 128]).

(** Fifteen bars, every close null. *)
Definition null_history : list Bar := history (repeat Null 15).

(** Fifteen closes 1, 2, ..., 15: no day with a loss. *)
Definition rising_history : list Bar :=
  history (map (fun n => Val (nat_Q n)) (seq 1 15)).

(** The window of [entry_history] for ma 5/10 and the locals at the end
    of its loop. *)
Definition entry_rows : list Row :=
  Eval vm_compute in
    match simulation_window entry_history 5 10 with
    | Ok rows => rows
    | Raise _ => []
    end.

Definition entry_loop_end : Sim :=
  Eval vm_compute in
    match simulate entry_rows 100000 (15 # 100) (8 # 100) with
    | Ok st => st
    | Raise _ => init_state 100000 (mkRow EmptyString 0 0 0)
    end.

(** What [run_backtest] returns on [dip_history], and the equity values
    of its curve. *)
Definition dip_result : BacktestResult :=
  Eval vm_compute in
    match run_backtest dip_history 100000 5 10 (15 # 100) (8 # 100) with
    | Ok res => res
    | Raise _ => mkResult (0, 0)%nat (mkMetrics 0 NaN 0 0) []
    end.

Definition dip_curve : list Q :=
  Eval vm_compute in map point_equity (result_curve dip_result).

(* ------------------------------------------------------------------ *)
(** ** Histories without gaps *)
(* ------------------------------------------------------------------ *)

(** A history in which every bar carries a date and a numeric close
    (what [fetch_market_data] builds). *)
Definition clean_history (bars : list (string * Q)) : list Bar :=
  map (fun dc => mkBar (Val (fst dc)) (Val (snd dc))) bars.

(** The mean of the [w] closes that end at position [i]. *)
Definition sma (w : nat) (closes : list Q) (i : nat) : Q :=
  Qsum (window_at w i closes) / inject_Z (Z.of_nat w).

(** The row of the loop's frame for bar [i] of a clean history. *)
Definition window_row (bars : list (string * Q)) (ma_short ma_long i : nat) : Row :=
  mkRow (nth i (map fst bars) EmptyString)
        (nth i (map snd bars) 0)
        (sma ma_short (map snd bars) i)
        (sma ma_long (map snd bars) i).

(** While shares are held the entry price is not 0 (it is the divisor
    of [change]). *)
Definition entry_known (st : Sim) : Prop :=
  Qltb 0 (position st) = true -> ~ entry_price st == 0.


(** The weighted sum and the sum of the weights [ewm_adjust_from] has
    accumulated once it has gone through [xs]. *)
Definition ewm_num (alpha num : Q) (xs : list Q) : Q :=
  fold_left (fun a x => x + (1 - alpha) * a) xs num.

Definition ewm_den (alpha den : Q) (xs : list Q) : Q :=
  fold_left (fun a _ => 1 + (1 - alpha) * a) xs den.

(** The bars [dropna(subset=["close"])] keeps. *)
Definition numeric_close (b : Bar) : bool :=
  match close b with Val _ => true | _ => false end.

(* ------------------------------------------------------------------ *)
(** ** data_fetcher.py *)
(* ------------------------------------------------------------------ *)

Module DataFetcher.

(** A dict of the "ohlcv" list.  Yahoo's arrays can hold null at any
    position, so every number is optional. *)
Record OhlcvBar : Type := mkOhlcv {
  bar_date : string;
  bar_open : option Q;
  bar_high : option Q;
  bar_low : option Q;
  bar_close : option Q;
  bar_volume : option Z
}.

Record MarketData : Type := mkMarket {
  latest_price : Q;
  price_change_pct : Q;
  volume : Z;
  ohlcv : list OhlcvBar
}.

(** The part of a bar the two services read. *)
Definition to_bar (b : OhlcvBar) : Bar :=
  mkBar (Val (bar_date b))
        (match bar_close b with Some q => Val q | None => Null end).

(** [xs[i]] on a Python list. *)
Definition index {A} (xs : list A) (i : nat) : result A :=
  match nth_error xs i with
  | Some x => Ok x
  | None => Raise IndexError
  end.

(** [xs[-2]]. *)
Definition index_second_last {A} (xs : list A) : result A :=
  match rev xs with
  | _ :: x :: _ => Ok x
  | _ => Raise IndexError
  end.

(** The arrays of [data["chart"]["result"][0]] that the code reads. *)
Record YahooChart : Type := mkChart {
  timestamp : list Z;
  quote_open : list (option Q);
  quote_high : list (option Q);
  quote_low : list (option Q);
  quote_close : list (option Q);
  quote_volume : list (option Z)
}.

Section Fetcher.

(** [date.fromtimestamp(ts).isoformat()], which raises on a timestamp
    outside the platform's range ([None]; ValueError, OverflowError or
    OSError, which the caller does not tell apart), and, for the mock,
    [d.isoformat()] of a day given by its ordinal. *)
Variable isoformat_of_timestamp : Z -> option string.
Variable isoformat : Z -> string.

(** The list comprehension of lines 81-92, from position [i] on. *)
Fixpoint yahoo_bars (chart : YahooChart) (i : nat) (timestamps : list Z)
  : result (list OhlcvBar) :=
  match timestamps with
  | [] => Ok []
  | ts :: rest =>
      c <- index (quote_close chart) i ;;
      match c with
      | None => yahoo_bars chart (S i) rest
      | Some _ =>
          d <- match isoformat_of_timestamp ts with
               | Some d => Ok d
               | None => Raise ValueError
               end ;;
          o <- index (quote_open chart) i ;;
          h <- index (quote_high chart) i ;;
          l <- index (quote_low chart) i ;;
          v <- index (quote_volume chart) i ;;
          bars <- yahoo_bars chart (S i) rest ;;
          Ok (mkOhlcv d o h l c v :: bars)
      end
  end.

(** What lines 94-103 need of the last one or two bars. *)
Definition close_of (b : OhlcvBar) : Q :=
  match bar_close b with Some q => q | None => 0 end.

(** Lines 72-103 of [_fetch_from_yahoo]: from the decoded response to
    the returned dict. *)
Definition yahoo_parse (chart : YahooChart) : result MarketData :=
  bars <- yahoo_bars chart 0 (timestamp chart) ;;
  last_bar <- iloc_last bars ;;
  let latest := close_of last_bar in
  prev <- (if (1 <? length bars)%nat
           then b <- index_second_last bars ;; Ok (close_of b)
           else Ok latest) ;;
  ratio <- py_div (latest - prev) prev ;;
  Ok {| latest_price := round2 latest;
        price_change_pct := round2 (ratio * 100);
        volume := match bar_volume last_bar with Some v => v | None => 0%Z end;
        ohlcv := bars |}.

(** [_fetch_from_yahoo]: [response] is the decoded chart when the
    request and the access to its arrays went through, [None] when
    they raised.  The result is [None] when the coroutine raises. *)
Definition _fetch_from_yahoo (response : option YahooChart) : option MarketData :=
  match response with
  | None => None
  | Some chart =>
      match yahoo_parse chart with
      | Ok m => Some m
      | Raise _ => None
      end
  end.

(** What [random.Random(hash(symbol) % 2**31)] hands out, in the order
    of the calls: the base price, and for day [i] the change, the two
    factors of high and low, and the volume. *)
Record Draws : Type := mkDraws {
  base_price : Q;
  day_change : nat -> Q;
  day_high : nat -> Q;
  day_low : nat -> Q;
  day_volume : nat -> Z
}.

(** The ranges of the [uniform] and [randint] calls. *)
Definition draws_in_range (dr : Draws) : Prop :=
  100 <= base_price dr <= 1000
  /\ forall i,
       - (3 # 100) <= day_change dr i <= 3 # 100
       /\ 1001 # 1000 <= day_high dr i <= 102 # 100
       /\ 98 # 100 <= day_low dr i <= 999 # 1000
       /\ (10000000 <= day_volume dr i <= 80000000)%Z.

(** The loop of [_mock_market_data], from iteration [i] on, with [n]
    iterations to go.  [today] is the day number of [date.today()]
    (its proleptic ordinal); the subtraction of line 120 is defined
    while the day number stays positive, that is for [days] below
    [today]. *)
Fixpoint mock_bars (dr : Draws) (today : Z) (days i n : nat) (price : Q)
  : list OhlcvBar :=
  match n with
  | O => []
  | S n' =>
      let close := round2 (price * (1 + day_change dr i)) in
      let high := round2 (close * day_high dr i) in
      let low := round2 (close * day_low dr i) in
      mkOhlcv (isoformat (today - Z.of_nat (days - i)))
              (Some (round2 price)) (Some high) (Some low) (Some close)
              (Some (day_volume dr i))
        :: mock_bars dr today days (S i) n' close
  end.

Definition _mock_market_data (dr : Draws) (today : Z) (days : nat)
  : result MarketData :=
  let bars := mock_bars dr today days 0 days (base_price dr) in
  last_bar <- iloc_last bars ;;
  let latest := close_of last_bar in
  prev <- (if (1 <? length bars)%nat
           then b <- index_second_last bars ;; Ok (close_of b)
           else Ok latest) ;;
  ratio <- py_div (latest - prev) prev ;;
  Ok {| latest_price := latest;
        price_change_pct := round2 (ratio * 100);
        volume := match bar_volume last_bar with Some v => v | None => 0%Z end;
        ohlcv := bars |}.

(** [fetch_market_data]: Yahoo first, the mock on any exception. *)
Definition fetch_market_data (response : option YahooChart) (dr : Draws)
    (today : Z) (days : nat) : result MarketData :=
  match _fetch_from_yahoo response with
  | Some m => Ok m
  | None => _mock_market_data dr today days
  end.

End Fetcher.

(** Every bar opens at the close of the bar before it. *)
Fixpoint chained (prev : Q) (bars : list OhlcvBar) : Prop :=
  match bars with
  | [] => True
  | b :: rest =>
      bar_open b = Some (round2 prev)
      /\ exists c, bar_close b = Some c /\ round2 c = c /\ chained c rest
  end.

(** A bar of the mock with all its numbers, a positive close between
    low and high, and a volume in the range of [randint]. *)
Definition mock_bar_ok (b : OhlcvBar) : Prop :=
  exists o h l c v,
    bar_open b = Some o /\ bar_high b = Some h /\ bar_low b = Some l
    /\ bar_close b = Some c /\ bar_volume b = Some v
    /\ 0 < c /\ l <= c <= h /\ (10000000 <= v <= 80000000)%Z.

(** [x is not None]. *)
Definition not_null {A} (x : option A) : bool :=
  match x with Some _ => true | None => false end.

End DataFetcher.

(* ------------------------------------------------------------------ *)
(** ** core/deps.py *)
(* ------------------------------------------------------------------ *)

Module Deps.

(** The setting the two dependencies branch on. *)
Record Settings : Type := mkSettings { DEBUG : bool }.

(** A decoded token payload, as far as the dependencies read it:
    [user.get("sub", "")] and the truth value of [user.get("debug")]. *)
Record User : Type := mkUser { sub : string; debug : bool }.

Definition _DEBUG_USER : User := mkUser "dev_user_local" true.

Inductive failure : Type :=
| HTTP_401_UNAUTHORIZED
| HTTP_403_FORBIDDEN
| HTTP_503_SERVICE_UNAVAILABLE
| other_exception.     (* anything that is not an HTTPException *)

Inductive outcome (A : Type) : Type :=
| Return (a : A)
| Fail (f : failure).
Arguments Return {A} a.
Arguments Fail {A} f.

Definition is_http (f : failure) : bool :=
  match f with other_exception => false | _ => true end.

(** The answer of the Supabase [profiles] request: an httpx.HTTPError
    of the request or of [raise_for_status]; the decoded [rows], each
    given by its "role" ([None] when the key is missing or its value is
    not a string; a falsy body counts as no row); or any other
    exception (a body that is not JSON, or not a list of objects). *)
Inductive lookup : Type :=
| http_error
| rows (roles : list (option string))
| lookup_other.

Section Dependencies.

(** [_verify_jwt(token, settings)]. *)
Variable _verify_jwt : string -> outcome User.

(** The [profiles] rows for a user id. *)
Variable profiles : string -> lookup.

Definition get_current_user (credentials : option string) (settings : Settings)
  : outcome User :=
  if DEBUG settings then
    match credentials with
    | None => Return _DEBUG_USER
    | Some token =>
        match _verify_jwt token with
        | Return payload => Return payload
        | Fail f => if is_http f then Return _DEBUG_USER else Fail f
        end
    end
  else
    match credentials with
    | None => Fail HTTP_401_UNAUTHORIZED
    | Some token => _verify_jwt token
    end.

Definition get_premium_user (user : User) (settings : Settings) : outcome User :=
  if DEBUG settings && debug user then Return user
  else
    match profiles (sub user) with
    | http_error => Fail HTTP_503_SERVICE_UNAVAILABLE
    | lookup_other => Fail other_exception
    | rows [] => Fail HTTP_403_FORBIDDEN
    | rows (role :: _) =>
        match role with
        | Some r => if String.eqb r "premium" then Return user
                    else Fail HTTP_403_FORBIDDEN
        | None => Fail HTTP_403_FORBIDDEN
        end
    end.

(** [Depends(get_premium_user)]: FastAPI resolves [get_current_user]
    first and hands its result on. *)
Definition premium_dependency (credentials : option string) (settings : Settings)
  : outcome User :=
  match get_current_user credentials settings with
  | Return user => get_premium_user user settings
  | Fail f => Fail f
  end.

End Dependencies.

End Deps.

(* ------------------------------------------------------------------ *)
(** ** api/v1/analyze.py *)
(* ------------------------------------------------------------------ *)

Module Analyze.

Section Endpoint.

Variable isoformat_of_timestamp : Z -> option string.
Variable isoformat : Z -> string.

(** Steps 1 and 2 of [analyze_stock] on the market side: the history
    of 30 days and the indicators of its "ohlcv" list.  A fetch that
    raises is the branch that answers 502. *)
Definition indicators_raw (response : option DataFetcher.YahooChart)
    (dr : DataFetcher.Draws) (today : Z) : result IndicatorResult :=
  market_raw <- DataFetcher.fetch_market_data isoformat_of_timestamp isoformat
                  response dr today 30 ;;
  Ok (compute_indicators (map DataFetcher.to_bar (DataFetcher.ohlcv market_raw))).

End Endpoint.

End Analyze.

(* ------------------------------------------------------------------ *)
(** ** More concrete inputs *)
(* ------------------------------------------------------------------ *)

(** [entry_history] and a flat history as date/close pairs. *)
Definition entry_pairs : list (string * Q) :=
  Eval vm_compute in
    combine dates15 [100; 100; 100; 100; 100; 100; 100; 100; 100; 100;
                     125; 125; 125; 125; 130].

Definition flat_pairs : list (string * Q) :=
  Eval vm_compute in combine dates15 (repeat 100 15).

(** [entry_history] with the close of the second bar null. *)
Definition gap_history : list Bar :=
  history (Val 100 :: Null
           :: map Val [100; 100; 100; 100; 100; 100; 100; 100;
                       125; 125; 125; 125; 130]).

(** The first row of [entry_rows], the locals before the entry bar, the
    entry bar, the locals after it, and the locals after the forced
    liquidation. *)
Definition no_row : Row := mkRow EmptyString 0 0 0.

Definition entry_first : Row := Eval vm_compute in nth 0 entry_rows no_row.

Definition entry_bar : Row := Eval vm_compute in nth 1 entry_rows no_row.

Definition before_entry : Sim :=
  Eval vm_compute in
    match step (15 # 100) (8 # 100) (init_state 100000 entry_first) entry_first with
    | Ok st => st
    | Raise _ => init_state 100000 no_row
    end.

Definition after_entry : Sim :=
  Eval vm_compute in
    match step (15 # 100) (8 # 100) before_entry entry_bar with
    | Ok st => st
    | Raise _ => init_state 100000 no_row
    end.

Definition entry_closed : Sim :=
  Eval vm_compute in
    match close_open_position entry_loop_end entry_rows with
    | Ok st => st
    | Raise _ => init_state 100000 no_row
    end.


(** The numeric closes of [rising_history]. *)
Definition rising_closes : list Q :=
  Eval vm_compute in
    match _to_dataframe rising_history with
    | Ok df => df
    | Raise _ => []
    end.

(** Draws that are the same every day, a day number for today, and the
    mock history of three days they give. *)
Definition steady_draws : DataFetcher.Draws :=
  DataFetcher.mkDraws 100 (fun _ => 1 # 100) (fun _ => 101 # 100)
                      (fun _ => 99 # 100) (fun _ => 10000000%Z).

Definition day_number (n : Z) : string :=
  if (n =? 738886)%Z then "2024-01-01"
  else if (n =? 738887)%Z then "2024-01-02"
  else if (n =? 738888)%Z then "2024-01-03"
  else "2024-01-04".

Definition mock3 : DataFetcher.MarketData :=
  Eval vm_compute in
    match DataFetcher._mock_market_data day_number steady_draws 738889 3 with
    | Ok m => m
    | Raise _ => DataFetcher.mkMarket 0 0 0 []
    end.

(** A Yahoo answer of three days whose second close is null. *)
Definition gap_chart : DataFetcher.YahooChart :=
  DataFetcher.mkChart [1704067200; 1704153600; 1704240000]%Z
    [Some 10; None; Some 11] [Some 12; None; Some 12]
    [Some 9; None; Some 10] [Some 10; None; Some 11]
    [Some 1000%Z; None; Some 1200%Z].

Definition timestamp_day (ts : Z) : option string :=
  if (ts =? 1704067200)%Z then Some "2024-01-01"%string
  else if (ts =? 1704153600)%Z then Some "2024-01-02"%string
  else if (ts =? 1704240000)%Z then Some "2024-01-03"%string
  else None.

Definition gap_market : DataFetcher.MarketData :=
  Eval vm_compute in
    match DataFetcher.yahoo_parse timestamp_day gap_chart with
    | Ok m => m
    | Raise _ => DataFetcher.mkMarket 0 0 0 []
    end.

(* ------------------------------------------------------------------ *)
(** ** Comparisons *)
(* ------------------------------------------------------------------ *)

Lemma Qltb_iff (x y : Q) : Qltb x y = true <-> x < y.
Proof.
  unfold Qltb. rewrite negb_true_iff. split; intro H.
  - apply Qnot_le_lt. intro Hle. apply Qle_bool_iff in Hle. congruence.
  - destruct (Qle_bool y x) eqn:E; [|reflexivity].
    apply Qle_bool_iff in E. exfalso. apply (Qlt_not_le _ _ H E).
Qed.

(* ------------------------------------------------------------------ *)
(** ** Moving average *)
(* ------------------------------------------------------------------ *)

Lemma iloc_last_app {A} (xs : list A) (x : A) : iloc_last (xs ++ [x]) = Ok x.
Proof.
  induction xs as [|y ys IH]; [reflexivity|].
  simpl. rewrite IH. destruct (ys ++ [x]) eqn:E; [|reflexivity].
  destruct ys; discriminate.
Qed.

Lemma rolling_mean_snoc (w n : nat) (xs : list Q) :
  length xs = S n ->
  rolling_mean w xs = map (rolling_mean_at w xs) (seq 0 n) ++ [rolling_mean_at w xs n].
Proof.
  intro H. unfold rolling_mean. rewrite H, seq_S, map_app. reflexivity.
Qed.

(** C8: a series of exactly [w] closes has the mean of all of them as
    its moving average; a series of [w - 1] closes has none. *)
Theorem calc_ma_exact_window (w : nat) (xs : list Q) :
  (0 < w)%nat ->
  (length xs = w -> _calc_ma xs w = Ok (Some (Fin (mean xs)))) /\
  (length xs = (w - 1)%nat -> _calc_ma xs w = Ok None).
Proof.
  intro Hw. split; intro Hlen; unfold _calc_ma.
  - replace (length xs <? w)%nat with false
      by (symmetry; apply Nat.ltb_ge; lia).
    destruct w as [|n]; [lia|].
    rewrite (rolling_mean_snoc (S n) n xs Hlen), iloc_last_app. simpl bind.
    unfold rolling_mean_at, window_at, mean.
    replace ((S n =? 0) || (n + 1 <? S n))%nat with false
      by (symmetry; apply orb_false_iff; split;
          [apply Nat.eqb_neq | apply Nat.ltb_ge]; lia).
    replace (n + 1 - S n)%nat with 0%nat by lia.
    rewrite <- Hlen at 1. simpl skipn. rewrite firstn_all, Hlen. reflexivity.
  - replace (length xs <? w)%nat with true
      by (symmetry; apply Nat.ltb_lt; lia).
    reflexivity.
Qed.

Lemma calc_ma_exact_window_witness :
  _calc_ma [1; 2; 6] 3 = Ok (Some (Fin (mean [1; 2; 6]))) /\
  _calc_ma [1; 2] 3 = Ok None.
Proof.
  split.
  - apply (calc_ma_exact_window 3 [1; 2; 6]); [lia | reflexivity].
  - apply (calc_ma_exact_window 3 [1; 2]); [lia | reflexivity].
Defined.

(* ------------------------------------------------------------------ *)
(** ** compute_indicators *)
(* ------------------------------------------------------------------ *)

Lemma bind_raise {A B} (m : result A) (k : A -> result B) (e : exn) :
  m = Raise e -> bind m k = Raise e.
Proof. intros ->. reflexivity. Qed.

Lemma bind_ok {A B} (m : result A) (k : A -> result B) (a : A) :
  m = Ok a -> bind m k = k a.
Proof. intros ->. reflexivity. Qed.

(** Closed facts about a concrete run are settled by evaluating it. *)
Ltac evaluate := vm_compute; reflexivity.
Ltac evaluate_each := repeat (split; [evaluate|]).

Lemma compute_indicators_raise (ohlcv : list Bar) (e : exn) :
  compute_indicators_try ohlcv = Raise e ->
  compute_indicators ohlcv = indicator_defaults.
Proof. unfold compute_indicators. intros ->. reflexivity. Qed.

(** C6: [compute_indicators] returns a result on every list of bars:
    the dict built in the [try] when nothing raises, and exactly the
    defaults (rsi 50.0, macd neutral, both averages None) as soon as
    [_to_dataframe] or any of the four helper calls raises. *)
Theorem compute_indicators_never_fails (ohlcv : list Bar) :
  ((exists r, compute_indicators_try ohlcv = Ok r /\ compute_indicators ohlcv = r)
   \/ (exists e, compute_indicators_try ohlcv = Raise e
                 /\ compute_indicators ohlcv = indicator_defaults))
  /\ (forall e, _to_dataframe ohlcv = Raise e ->
                compute_indicators ohlcv = indicator_defaults)
  /\ (forall df e, _to_dataframe ohlcv = Ok df ->
        _calc_rsi df 14 = Raise e \/ _calc_macd_signal df = Raise e
        \/ _calc_ma df 20 = Raise e \/ _calc_ma df 60 = Raise e ->
        compute_indicators ohlcv = indicator_defaults)
  /\ rsi indicator_defaults = Fin 50 /\ macd indicator_defaults = neutral
  /\ ma20 indicator_defaults = None /\ ma60 indicator_defaults = None.
Proof.
  split; [|split; [|split; [|repeat split]]].
  - unfold compute_indicators.
    destruct (compute_indicators_try ohlcv) as [r|e].
    + left. exists r. split; reflexivity.
    + right. exists e. split; reflexivity.
  - intros e H. apply (compute_indicators_raise ohlcv e).
    unfold compute_indicators_try. apply bind_raise, H.
  - intros df e Hdf H.
    assert (exists e', compute_indicators_try ohlcv = Raise e') as [e' He'].
    { unfold compute_indicators_try. rewrite (bind_ok _ _ _ Hdf).
      destruct (_calc_rsi df 14) as [r|e1]; simpl; [|eauto].
      destruct (_calc_macd_signal df) as [m|e2]; simpl; [|eauto].
      destruct (_calc_ma df 20) as [a|e3]; simpl; [|eauto].
      destruct (_calc_ma df 60) as [b|e4]; simpl; [|eauto].
      destruct H as [H|[H|[H|H]]]; discriminate. }
    apply (compute_indicators_raise ohlcv e' He').
Qed.

(** The empty list and a list of dicts without a "close" key take the
    [except] branch ([df["close"]] raises KeyError). *)
Example compute_indicators_empty :
  _to_dataframe [] = Raise KeyError /\ compute_indicators [] = indicator_defaults.
Proof. split; reflexivity. Qed.

Example compute_indicators_no_close_key :
  compute_indicators [mkBar (Val "2024-01-01"%string) Absent] = indicator_defaults.
Proof. reflexivity. Qed.

Lemma iloc_last_inv {A} (xs : list A) (x : A) :
  iloc_last xs = Ok x -> exists front, xs = front ++ [x].
Proof.
  destruct xs as [|y r]; [discriminate|].
  destruct (exists_last (l := y :: r)) as (front & z & E); [discriminate|].
  rewrite E, iloc_last_app. intro H. inversion H; subst. exists front.
  reflexivity.
Qed.

Lemma length_ewm_adjust_from alpha min_periods (xs : list Q) : forall num den n,
  length (ewm_adjust_from alpha num den n min_periods xs) = length xs.
Proof.
  induction xs as [|x r IH]; intros num den n; simpl; [reflexivity|].
  rewrite IH. reflexivity.
Qed.

Lemma zip_with_snoc {A B C} (f : A -> B -> C) (xs : list A) : forall ys x y,
  length xs = length ys ->
  zip_with f (xs ++ [x]) (ys ++ [y]) = zip_with f xs ys ++ [f x y].
Proof.
  induction xs as [|a xs IH]; intros [|b ys] x y H; simpl in *;
    try discriminate; [reflexivity|].
  rewrite IH by lia. reflexivity.
Qed.

Lemma pf_div_nan (g : pyfloat) : pf_div g NaN = NaN.
Proof. destruct g; reflexivity. Qed.

(** Whenever the last average loss is 0, the RSI [_calc_rsi] returns is
    NaN: the 0 is replaced by NaN before the division, and NaN runs
    through [100 - 100 / (1 + rs)] to the value that is returned. *)
Lemma calc_rsi_zero_loss (series : list Q) (l : Q) :
  (15 <= length series)%nat ->
  iloc_last (avg_loss_of series 14) = Ok (Fin l) ->
  l == 0 ->
  _calc_rsi series 14 = Ok NaN.
Proof.
  intros Hlen Hlast Hl. unfold _calc_rsi.
  replace (length series <? 14 + 1)%nat with false
    by (symmetry; apply Nat.ltb_ge; lia).
  destruct (iloc_last_inv _ _ Hlast) as (lfront & El).
  assert (Hg : length (avg_gain_of series 14) = length (avg_loss_of series 14)).
  { unfold avg_gain_of, avg_loss_of, ewm_mean_com.
    rewrite !length_ewm_adjust_from, !length_map. reflexivity. }
  destruct (exists_last (l := avg_gain_of series 14)) as (gfront & g & Eg).
  { intro E. rewrite E, El, length_app in Hg. simpl in Hg. lia. }
  assert (Hr : pf_replace0 (Fin l) = NaN).
  { unfold pf_replace0. rewrite (Qeq_eq_bool _ _ Hl). reflexivity. }
  unfold rsi_series. rewrite Eg, El, map_app.
  change (map pf_replace0 [Fin l]) with [pf_replace0 (Fin l)].
  rewrite Hr, zip_with_snoc.
  - rewrite pf_div_nan, map_app.
    change (map rsi_of_rs [NaN]) with [NaN].
    rewrite iloc_last_app.
    destruct (map rsi_of_rs (zip_with pf_div gfront (map pf_replace0 lfront)) ++ [NaN])
      eqn:E; [|reflexivity].
    apply app_eq_nil in E. destruct E; discriminate.
  - rewrite length_map. rewrite Eg, El, !length_app in Hg. simpl in Hg. lia.
Qed.

(** The helpers do not raise on a frame that exists. *)
Lemma iloc_last_ok {A} (xs : list A) :
  xs <> [] -> exists x, iloc_last xs = Ok x.
Proof.
  intro H. destruct (exists_last H) as (front & x & ->).
  exists x. apply iloc_last_app.
Qed.

Lemma calc_rsi_total (series : list Q) (period : nat) :
  exists r, _calc_rsi series period = Ok r.
Proof.
  unfold _calc_rsi. destruct (length series <? period + 1)%nat; [eauto|].
  destruct (rsi_series series period) as [|x r] eqn:E; [eauto|].
  apply iloc_last_ok. discriminate.
Qed.

Lemma length_ewm_mean_span span (xs : list Q) :
  length (ewm_mean_span span xs) = length xs.
Proof.
  destruct xs as [|x r]; [reflexivity|]. simpl. f_equal.
  generalize (2 / (span + 1)) as alpha. intro alpha.
  revert x. induction r as [|y r IH]; intro prev; simpl; [reflexivity|].
  rewrite IH. reflexivity.
Qed.

Lemma length_zip_with {A B C} (f : A -> B -> C) (xs : list A) : forall ys,
  length xs = length ys -> length (zip_with f xs ys) = length xs.
Proof.
  induction xs as [|a xs IH]; intros [|b ys] H; simpl in *;
    try discriminate; [reflexivity|].
  rewrite IH by lia. reflexivity.
Qed.

Lemma calc_macd_total (series : list Q) :
  exists m, _calc_macd_signal series = Ok m.
Proof.
  unfold _calc_macd_signal. destruct (length series <? 26)%nat eqn:G; [eauto|].
  apply Nat.ltb_ge in G.
  set (macd_line := zip_with Qminus (ewm_mean_span 12 series)
                             (ewm_mean_span 26 series)).
  assert (L : length macd_line = length series).
  { unfold macd_line. rewrite length_zip_with; rewrite !length_ewm_mean_span;
      reflexivity. }
  destruct (iloc_last_ok macd_line) as [m ->].
  { intro E. rewrite E in L. simpl in L. lia. }
  destruct (iloc_last_ok (ewm_mean_span 9 macd_line)) as [sg ->].
  { intro E. apply (f_equal (@length Q)) in E.
    rewrite length_ewm_mean_span, L in E. simpl in E. lia. }
  simpl. eauto.
Qed.

Lemma calc_ma_total (series : list Q) (window : nat) :
  (0 < window)%nat -> exists m, _calc_ma series window = Ok m.
Proof.
  intro W. unfold _calc_ma. destruct (length series <? window)%nat eqn:G;
    [eauto|].
  apply Nat.ltb_ge in G.
  destruct (iloc_last_ok (rolling_mean window series)) as [m ->].
  { intro E. apply (f_equal (@length pyfloat)) in E.
    unfold rolling_mean in E. rewrite length_map, length_seq in E.
    simpl in E. lia. }
  simpl. eauto.
Qed.

(** The only exception the [try] of [compute_indicators] can meet is
    the KeyError of a frame without a "close" column. *)
Lemma compute_indicators_try_ok (ohlcv : list Bar) (df : list Q) :
  _to_dataframe ohlcv = Ok df ->
  exists rsi_v macd_signal ma20_v ma60_v,
    _calc_rsi df 14 = Ok rsi_v
    /\ compute_indicators ohlcv
       = {| rsi := pf_round2 rsi_v;
            macd := macd_signal;
            ma20 := option_map pf_round2 ma20_v;
            ma60 := option_map pf_round2 ma60_v |}.
Proof.
  intro D.
  destruct (calc_rsi_total df 14) as [r Hr].
  destruct (calc_macd_total df) as [m Hm].
  destruct (calc_ma_total df 20) as [a Ha]; [lia|].
  destruct (calc_ma_total df 60) as [b Hb]; [lia|].
  exists r, m, a, b. split; [exact Hr|].
  unfold compute_indicators, compute_indicators_try.
  rewrite D. simpl. rewrite Hr. simpl. rewrite Hm. simpl.
  rewrite Ha. simpl. rewrite Hb. reflexivity.
Qed.

(** On every history whose last average loss is 0 the rsi that
    [compute_indicators] returns is NaN. *)
Lemma compute_indicators_zero_loss (ohlcv : list Bar) (df : list Q) (l : Q) :
  _to_dataframe ohlcv = Ok df ->
  (15 <= length df)%nat ->
  iloc_last (avg_loss_of df 14) = Ok (Fin l) ->
  l == 0 ->
  rsi (compute_indicators ohlcv) = NaN.
Proof.
  intros D Hlen Hlast Hl.
  destruct (compute_indicators_try_ok ohlcv df D) as (r & m & a & b & Hr & ->).
  rewrite (calc_rsi_zero_loss df l Hlen Hlast Hl) in Hr.
  inversion Hr; subst. reflexivity.
Qed.

(** C3: on fifteen rising closes the average loss is exactly 0 and
    [compute_indicators] returns, without raising, an rsi that is NaN:
    neither the default 50.0 nor 100. *)
Theorem rsi_no_losses_is_nan :
  exists df r l,
    _to_dataframe rising_history = Ok df
    /\ iloc_last (avg_loss_of df 14) = Ok (Fin l) /\ l == 0
    /\ _calc_rsi df 14 = Ok NaN
    /\ compute_indicators_try rising_history = Ok r
    /\ rsi (compute_indicators rising_history) = NaN
    /\ rsi (compute_indicators rising_history) <> rsi indicator_defaults.
Proof.
  eexists. eexists. eexists.
  evaluate_each.
  vm_compute. discriminate.
Qed.

(* ------------------------------------------------------------------ *)
(** ** run_backtest: failure modes *)
(* ------------------------------------------------------------------ *)

Lemma py_div_raise (x y : Q) (e : exn) :
  py_div x y = Raise e -> e = ZeroDivisionError.
Proof.
  unfold py_div. destruct (Qeq_bool y 0); intro H; inversion H; reflexivity.
Qed.

Lemma trade_raise tp sl st row e :
  trade tp sl st row = Raise e -> e = ZeroDivisionError.
Proof.
  unfold trade. destruct (golden_cross st row).
  - destruct (py_div (equity st) (row_close row)) as [q|e'] eqn:E; simpl;
      intro H; inversion H; subst. apply (py_div_raise _ _ _ E).
  - destruct (Qltb 0 (position st)); [|discriminate].
    destruct (py_div (row_close row - entry_price st) (entry_price st))
      as [q|e'] eqn:E; simpl.
    + destruct (should_sell tp sl st row q); discriminate.
    + intro H; inversion H; subst. apply (py_div_raise _ _ _ E).
Qed.

Lemma walk_raise tp sl rows : forall st e,
  walk tp sl st rows = Raise e -> e = ZeroDivisionError.
Proof.
  induction rows as [|row rest IH]; intros st e; simpl; [discriminate|].
  unfold step.
  destruct (trade tp sl st row) as [st'|e'] eqn:E; simpl.
  - apply IH.
  - intro H; inversion H; subst. apply (trade_raise _ _ _ _ _ E).
Qed.

Lemma iloc_last_raise {A} (xs : list A) (e : exn) :
  iloc_last xs = Raise e -> e = IndexError.
Proof.
  induction xs as [|x r IH]; simpl.
  - intro H; inversion H; reflexivity.
  - destruct r; [discriminate | exact IH].
Qed.

Lemma simulation_window_raise ohlcv ma_short ma_long e :
  simulation_window ohlcv ma_short ma_long = Raise e -> e = KeyError.
Proof.
  unfold simulation_window.
  destruct (has_column date ohlcv && has_column close ohlcv);
    intro H; inversion H; reflexivity.
Qed.

Lemma simulate_raise rows initial_capital tp sl e :
  simulate rows initial_capital tp sl = Raise e ->
  e = IndexError \/ e = ZeroDivisionError.
Proof.
  unfold simulate. destruct rows as [|first rest]; simpl iloc_first.
  - intro H; inversion H; auto.
  - rewrite (bind_ok _ _ first eq_refl). intro H. right.
    apply (walk_raise _ _ _ _ _ H).
Qed.

Lemma close_open_position_raise st rows e :
  close_open_position st rows = Raise e -> e = IndexError.
Proof.
  unfold close_open_position. destruct (Qltb 0 (position st)); [|discriminate].
  destruct (iloc_last (map row_close rows)) as [p|e'] eqn:L; simpl;
    intro H; inversion H; subst. apply (iloc_last_raise _ _ L).
Qed.

Lemma report_raise initial_capital ma_short ma_long st e :
  report initial_capital ma_short ma_long st = Raise e -> e = ZeroDivisionError.
Proof.
  unfold report.
  destruct (py_div (final_equity initial_capital (equity_curve st) - initial_capital)
                   initial_capital) as [q|e'] eqn:D; simpl;
    intro H; inversion H; subst. apply (py_div_raise _ _ _ D).
Qed.

(** The guard of line 52 is the only source of the ValueError. *)
Lemma run_backtest_value_error ohlcv initial_capital ma_short ma_long tp sl :
  run_backtest ohlcv initial_capital ma_short ma_long tp sl = Raise ValueError
  <-> (length ohlcv < ma_long + 5)%nat.
Proof.
  unfold run_backtest.
  destruct (length ohlcv <? ma_long + 5)%nat eqn:G.
  - apply Nat.ltb_lt in G. tauto.
  - apply Nat.ltb_ge in G. split; [|lia]. intro H. exfalso.
    destruct (simulation_window ohlcv ma_short ma_long) as [rows|e] eqn:W;
      simpl in H; [|apply simulation_window_raise in W; congruence].
    destruct (simulate rows initial_capital tp sl) as [st|e] eqn:S;
      simpl in H; [|apply simulate_raise in S; destruct S; congruence].
    destruct (close_open_position st rows) as [st'|e] eqn:C;
      simpl in H; [|apply close_open_position_raise in C; congruence].
    apply report_raise in H. discriminate.
Qed.

(** C4: the ValueError of the length test is raised exactly when the
    history has fewer than ma_long + 5 bars, but it is not the only
    failure: fifteen bars with null closes pass the test for
    ma_long = 10 (15 >= 10 + 5), no row survives the two [dropna], and
    [.iloc[0]] raises IndexError. *)
Theorem run_backtest_index_error :
  (forall ohlcv initial_capital ma_short ma_long tp sl,
     run_backtest ohlcv initial_capital ma_short ma_long tp sl = Raise ValueError
     <-> (length ohlcv < ma_long + 5)%nat)
  /\ (length null_history >= 10 + 5)%nat
  /\ simulation_window null_history 5 10 = Ok []
  /\ run_backtest null_history 100000 5 10 (15 # 100) (8 # 100) = Raise IndexError.
Proof.
  split; [exact run_backtest_value_error|].
  split; [vm_compute; lia|]. evaluate_each. evaluate.
Qed.

(* ------------------------------------------------------------------ *)
(** ** The endpoint's window guard *)
(* ------------------------------------------------------------------ *)

(** C5: a request with ma_short >= ma_long is answered with the 422 of
    the guard whatever the service is: the service (the fetch, the
    rolling means, the walk over the bars) is not called. *)
Theorem window_order_rejected_first
    (service : string -> Q -> nat -> nat -> Q -> Q -> nat -> result BacktestResult)
    (body : Api.BacktestRequest) :
  (Api.ma_short body >= Api.ma_long body)%nat ->
  Api.run_backtest service body
  = inr (Api.HTTP_422_UNPROCESSABLE_ENTITY Api.short_not_less_than_long).
Proof.
  intro H. unfold Api.run_backtest.
  replace (Api.ma_long body <=? Api.ma_short body)%nat with true
    by (symmetry; apply Nat.leb_le; lia).
  reflexivity.
Qed.

Lemma window_order_rejected_first_witness :
  Api.run_backtest (finrl_mock_run_backtest (fun _ _ => entry_history))
    (Api.mkRequest "2330.TW" 100000 60 20 (15 # 100) (8 # 100) 365)
  = inr (Api.HTTP_422_UNPROCESSABLE_ENTITY Api.short_not_less_than_long).
Proof.
  apply (window_order_rejected_first
           (finrl_mock_run_backtest (fun _ _ => entry_history))
           (Api.mkRequest "2330.TW" 100000 60 20 (15 # 100) (8 # 100) 365)).
  simpl. lia.
Defined.

(* ------------------------------------------------------------------ *)
(** ** The loop: first bar, entry *)
(* ------------------------------------------------------------------ *)

Lemma golden_cross_first (initial_capital : Q) (first : Row) :
  golden_cross (init_state initial_capital first) first = false.
Proof.
  unfold golden_cross, init_state. cbn [prev_short prev_long position].
  destruct (Qle_bool (row_short first) (row_long first)) eqn:L;
    [|reflexivity].
  apply Qle_bool_iff in L.
  destruct (Qltb (row_long first) (row_short first)) eqn:G; [|reflexivity].
  apply Qltb_iff in G. exfalso. apply (Qlt_not_le _ _ G L).
Qed.

(** C10: the first iteration runs on the state whose [prev_short] and
    [prev_long] are the first row's own averages; the golden-cross test
    is false there, the iteration does not raise and leaves the position
    at 0 with the cash untouched. *)
Theorem no_entry_on_first_bar (initial_capital tp sl : Q) (first : Row)
    (rest : list Row) :
  prev_short (init_state initial_capital first) = row_short first
  /\ prev_long (init_state initial_capital first) = row_long first
  /\ golden_cross (init_state initial_capital first) first = false
  /\ exists st1,
       step tp sl (init_state initial_capital first) first = Ok st1
       /\ position st1 = 0 /\ entry_price st1 = 0
       /\ equity st1 = initial_capital /\ trade_results st1 = []
       /\ simulate (first :: rest) initial_capital tp sl = walk tp sl st1 rest.
Proof.
  split; [reflexivity|]. split; [reflexivity|].
  split; [apply golden_cross_first|].
  exists (record_point (init_state initial_capital first) first).
  assert (T : trade tp sl (init_state initial_capital first) first
              = Ok (init_state initial_capital first)).
  { unfold trade. rewrite golden_cross_first. reflexivity. }
  assert (S : step tp sl (init_state initial_capital first) first
              = Ok (record_point (init_state initial_capital first) first)).
  { unfold step. rewrite T. reflexivity. }
  split; [exact S|]. repeat split.
  unfold simulate. simpl iloc_first. rewrite (bind_ok _ _ first eq_refl).
  simpl walk. rewrite S. reflexivity.
Qed.

(** On every entry the cash is left as it was, and the point recorded
    for the bar is shares * price plus that cash. *)
Lemma entry_keeps_cash tp sl st row st' :
  golden_cross st row = true ->
  step tp sl st row = Ok st' ->
  equity st' = equity st
  /\ entry_price st' = row_close row
  /\ position st' * row_close row == equity st
  /\ equity_curve st'
     = equity_curve st
       ++ [mkPoint (row_date row) (round2 (current_equity st' (row_close row)))]
  /\ (0 < position st' ->
      current_equity st' (row_close row) == 2 * equity st).
Proof.
  intros G S. unfold step, trade in S. rewrite G in S.
  unfold py_div in S. destruct (Qeq_bool (row_close row) 0) eqn:Hz;
    [discriminate|].
  apply Qeq_bool_neq in Hz. simpl in S. inversion S; subst; clear S.
  unfold record_point, current_equity; simpl.
  assert (E : equity st / row_close row * row_close row == equity st)
    by (field; exact Hz).
  split; [reflexivity|]. split; [reflexivity|]. split; [exact E|].
  split; [reflexivity|].
  intro P. apply Qltb_iff in P. rewrite P. rewrite E. ring.
Qed.

(** C1: on [entry_history] the second bar of the window is the entry.
    After it the position is Long with shares * price = 100000, the
    cash is still 100000 (not 0), and the point recorded for the bar is
    200000: shares * price plus the cash from before the entry. *)
Theorem entry_bar_counts_cash_twice :
  exists st p,
    state_after 2 entry_history 100000 5 10 (15 # 100) (8 # 100) = Ok st
    /\ 0 < position st
    /\ position st * 125 == 100000
    /\ equity st == 100000
    /\ iloc_last (equity_curve st) = Ok p
    /\ point_date p = "2024-01-15"%string
    /\ point_equity p == 200000
    /\ ~ point_equity p == position st * 125.
Proof.
  eexists. eexists.
  evaluate_each.
  vm_compute. discriminate.
Qed.

(** C2: the run on [entry_history] ends Long with 800 shares bought at
    125; the forced liquidation at 130 realizes the only trade (pnl 5),
    so initial_capital plus the shares-weighted pnl is 104000, which is
    the cash after the liquidation.  The final equity taken from the
    curve is 204000, and the reported return 104 percent. *)
Theorem final_equity_not_conserved :
  exists rows st st' res pnl,
    simulation_window entry_history 5 10 = Ok rows
    /\ simulate rows 100000 (15 # 100) (8 # 100) = Ok st
    /\ position st == 800
    /\ close_open_position st rows = Ok st'
    /\ trade_results st' = [pnl] /\ pnl == 5
    /\ equity st' == 100000 + 800 * 5
    /\ final_equity 100000 (equity_curve st') == 204000
    /\ run_backtest entry_history 100000 5 10 (15 # 100) (8 # 100) = Ok res
    /\ total_return_pct (metrics res) == 104.
Proof.
  do 5 eexists.
  evaluate_each. evaluate.
Qed.

(* ------------------------------------------------------------------ *)
(** ** The forced liquidation *)
(* ------------------------------------------------------------------ *)

Lemma walk_app tp sl front back : forall st,
  walk tp sl st (front ++ back)
  = (st' <- walk tp sl st front ;; walk tp sl st' back).
Proof.
  induction front as [|row front IH]; intro st; simpl; [reflexivity|].
  destruct (step tp sl st row) as [st1|e]; simpl; [apply IH | reflexivity].
Qed.

Lemma walk_snoc_ok tp sl st front row st_end :
  walk tp sl st (front ++ [row]) = Ok st_end ->
  exists st_prev,
    walk tp sl st front = Ok st_prev /\ step tp sl st_prev row = Ok st_end.
Proof.
  rewrite walk_app. destruct (walk tp sl st front) as [st_prev|e]; simpl;
    [|discriminate].
  intro H. exists st_prev. split; [reflexivity|].
  destruct (step tp sl st_prev row) as [s|e]; simpl in H; [exact H | discriminate].
Qed.

Lemma step_records tp sl st row st' :
  step tp sl st row = Ok st' ->
  exists mid,
    trade tp sl st row = Ok mid
    /\ st' = record_point mid row
    /\ equity_curve mid = equity_curve st.
Proof.
  unfold step. destruct (trade tp sl st row) as [mid|e] eqn:T; simpl;
    [|discriminate].
  intro H. inversion H; subst. exists mid. split; [reflexivity|].
  split; [reflexivity|].
  unfold trade in T. destruct (golden_cross st row).
  - destruct (py_div (equity st) (row_close row)); simpl in T;
      inversion T; reflexivity.
  - destruct (Qltb 0 (position st)); [|inversion T; reflexivity].
    destruct (py_div (row_close row - entry_price st) (entry_price st))
      as [change|e]; simpl in T; [|discriminate].
    destruct (should_sell tp sl st row change); inversion T; reflexivity.
Qed.

(** The point an iteration appends: shares * price plus the cash when
    shares are held after the bar's transition, the cash otherwise,
    rounded to two decimals. *)
Lemma recorded_point tp sl st row st' :
  step tp sl st row = Ok st' ->
  equity_curve st'
  = equity_curve st
    ++ [mkPoint (row_date row)
          (round2 (if Qltb 0 (position st')
                   then position st' * row_close row + equity st'
                   else equity st'))].
Proof.
  intro S. destruct (step_records _ _ _ _ _ S) as (mid & _ & -> & <-).
  reflexivity.
Qed.

Lemma final_equity_snoc initial_capital curve p :
  final_equity initial_capital (curve ++ [p]) = point_equity p.
Proof. unfold final_equity. rewrite map_app. simpl. apply last_last. Qed.

(** C9: when the loop ends with a position, closing it appends one
    trade (last price minus entry price) and overwrites the cash with
    shares * last price, and nothing else: the equity curve is the one
    the loop built, its last point is the one the final bar's iteration
    recorded, and that point is the final equity of the report. *)
Theorem forced_liquidation_frame
    (rows : list Row) (initial_capital tp sl : Q) (st : Sim) :
  simulate rows initial_capital tp sl = Ok st ->
  0 < position st ->
  exists first front last_row st_prev st',
    rows = front ++ [last_row]
    /\ iloc_first rows = Ok first
    /\ walk tp sl (init_state initial_capital first) front = Ok st_prev
    /\ step tp sl st_prev last_row = Ok st
    /\ close_open_position st rows = Ok st'
    /\ trade_results st'
       = trade_results st ++ [row_close last_row - entry_price st]
    /\ equity st' = position st * row_close last_row
    /\ equity_curve st' = equity_curve st
    /\ length (equity_curve st') = length rows
    /\ iloc_last (equity_curve st')
       = Ok (mkPoint (row_date last_row)
                     (round2 (current_equity st (row_close last_row))))
    /\ final_equity initial_capital (equity_curve st')
       = round2 (current_equity st (row_close last_row))
    /\ forall ma_short ma_long res,
         report initial_capital ma_short ma_long st' = Ok res ->
         result_curve res = equity_curve st
         /\ total_return_pct (metrics res)
            = round2 ((round2 (current_equity st (row_close last_row))
                       - initial_capital) / initial_capital * 100).
Proof.
  intros S P.
  destruct rows as [|first rest]; [discriminate|].
  destruct (exists_last (l := first :: rest)) as (front & last_row & E);
    [discriminate|].
  unfold simulate in S. simpl iloc_first in S.
  rewrite (bind_ok _ _ first eq_refl) in S.
  assert (Hlen : forall rs s0 s1, walk tp sl s0 rs = Ok s1 ->
            length (equity_curve s1) = (length (equity_curve s0) + length rs)%nat).
  { induction rs as [|r rs IH]; intros s0 s1 W; simpl in W.
    - inversion W; subst. simpl. lia.
    - destruct (step tp sl s0 r) as [s|e] eqn:St; simpl in W; [|discriminate].
      apply IH in W. rewrite W.
      apply step_records in St. destruct St as (mid & _ & -> & Hc).
      unfold record_point; simpl. rewrite length_app, Hc. simpl. lia. }
  pose proof (Hlen _ _ _ S) as L. simpl equity_curve in L.
  rewrite E in S. rewrite E.
  destruct (walk_snoc_ok _ _ _ _ _ _ S) as (st_prev & W & St).
  destruct (step_records _ _ _ _ _ St) as (mid & T & -> & Hc).
  assert (C : close_open_position (record_point mid last_row) (front ++ [last_row])
              = Ok {| equity := position mid * row_close last_row;
                      position := position mid;
                      entry_price := entry_price mid;
                      trade_results :=
                        trade_results mid ++ [row_close last_row - entry_price mid];
                      equity_curve := equity_curve (record_point mid last_row);
                      prev_short := row_short last_row;
                      prev_long := row_long last_row |}).
  { unfold close_open_position.
    apply Qltb_iff in P. rewrite P.
    rewrite map_app. simpl map. rewrite iloc_last_app. reflexivity. }
  exists first, front, last_row, st_prev.
  eexists. split; [reflexivity|].
  split; [destruct front; inversion E; reflexivity|].
  split; [exact W|]. split; [exact St|]. split; [exact C|].
  split; [reflexivity|]. split; [reflexivity|]. split; [reflexivity|].
  split; [cbn [equity_curve length plus] in L |- *; rewrite <- E; exact L|].
  split; [simpl; apply iloc_last_app|].
  split; [simpl; apply final_equity_snoc|].
  intros ma_short ma_long res R. unfold report in R.
  cbn [equity_curve record_point] in R. rewrite final_equity_snoc in R.
  unfold py_div in R. destruct (Qeq_bool initial_capital 0); [discriminate|].
  simpl in R. inversion R; subst. split; reflexivity.
Qed.

Lemma forced_liquidation_frame_witness :
  exists st',
    close_open_position entry_loop_end entry_rows = Ok st'
    /\ equity_curve st' = equity_curve entry_loop_end
    /\ length (trade_results st') = S (length (trade_results entry_loop_end)).
Proof.
  destruct (forced_liquidation_frame entry_rows 100000 (15 # 100) (8 # 100)
              entry_loop_end)
    as (first & front & last_row & st_prev & st' & _ & _ & _ & _ & C & T & _ & K & _).
  - vm_compute. reflexivity.
  - vm_compute. reflexivity.
  - exists st'. split; [exact C|]. split; [exact K|].
    rewrite T, length_app. simpl. lia.
Defined.

(* ------------------------------------------------------------------ *)
(** ** Maximum drawdown *)
(* ------------------------------------------------------------------ *)

Lemma dd_fin (e m : Q) : 0 < m -> dd e m = Fin ((e - m) / m * 100).
Proof.
  intro H. unfold dd, np_div.
  destruct (Qeq_bool m 0) eqn:Hz; [|reflexivity].
  apply Qeq_bool_eq in Hz. exfalso. lra.
Qed.

Lemma dd_sign (e m : Q) :
  0 < m -> e <= m ->
  (e - m) / m * 100 <= 0 /\ ((e - m) / m * 100 == 0 <-> m <= e).
Proof.
  intros Hm He.
  assert (Hi : 0 < / m) by (apply Qinv_lt_0_compat; exact Hm).
  unfold Qdiv. set (i := / m) in *.
  split.
  - nra.
  - split; intro H.
    + assert (e - m == 0) by nra. lra.
    + assert (E : e - m == 0) by lra. rewrite E. ring.
Qed.

Lemma Qmax2_spec (m x : Q) : m <= Qmax2 m x /\ x <= Qmax2 m x.
Proof.
  unfold Qmax2. destruct (Qltb m x) eqn:E.
  - apply Qltb_iff in E. lra.
  - split; [lra|]. destruct (Qlt_le_dec m x) as [H|H]; [|exact H].
    apply Qltb_iff in H. congruence.
Qed.

(** The drawdowns after a running peak [m > 0]: finite, none above 0,
    and all 0 exactly when no point is below its peak. *)
Lemma drawdown_from (xs : list Q) : forall m,
  0 < m ->
  exists ds,
    zip_with dd xs (cummax_from m xs) = map Fin ds
    /\ Forall (fun d => d <= 0) ds
    /\ (Forall (fun d => d == 0) ds
        <-> Forall2 (fun e peak => peak <= e) xs (cummax_from m xs)).
Proof.
  induction xs as [|x r IH]; intros m Hm.
  - exists []. simpl. repeat split; constructor.
  - destruct (Qmax2_spec m x) as [Hmm Hx].
    assert (Hp : 0 < Qmax2 m x) by lra.
    destruct (IH _ Hp) as (ds & Hz & Hle & Hiff).
    destruct (dd_sign x (Qmax2 m x) Hp Hx) as [Hd Hd0].
    exists ((x - Qmax2 m x) / Qmax2 m x * 100 :: ds).
    simpl. rewrite (dd_fin _ _ Hp), Hz.
    split; [reflexivity|]. split; [constructor; assumption|].
    split; intro H; inversion H; subst; constructor; tauto.
Qed.

Lemma series_min_from (ds : list Q) : forall acc,
  acc <= 0 -> Forall (fun d => d <= 0) ds ->
  exists d,
    fold_left pf_min2 (map Fin ds) (Fin acc) = Fin d
    /\ d <= 0
    /\ (d == 0 <-> acc == 0 /\ Forall (fun x => x == 0) ds).
Proof.
  induction ds as [|x r IH]; intros acc Ha Hds.
  - exists acc. simpl. split; [reflexivity|]. split; [exact Ha|].
    split; [intro; split; [assumption | constructor] | tauto].
  - inversion Hds as [|? ? Hx Hr]; subst. simpl.
    destruct (Qltb x acc) eqn:E.
    + apply Qltb_iff in E.
      destruct (IH x Hx Hr) as (d & Hd & Hle & Hiff).
      exists d. split; [exact Hd|]. split; [exact Hle|].
      rewrite Hiff. split.
      * intros [H0 _]. exfalso. lra.
      * intros [H0 H]. inversion H; subst. exfalso. lra.
    + assert (Hxa : acc <= x).
      { destruct (Qlt_le_dec x acc) as [H|H]; [|exact H].
        apply Qltb_iff in H. congruence. }
      destruct (IH acc Ha Hr) as (d & Hd & Hle & Hiff).
      exists d. split; [exact Hd|]. split; [exact Hle|].
      rewrite Hiff. split.
      * intros [H0 H]. split; [exact H0|]. constructor; [lra | exact H].
      * intros [H0 H]. inversion H; subst. tauto.
Qed.

(** "Never below the running peak" read without [cummax]: no point of
    the curve is lower than an earlier one. *)
Lemma never_below_from (xs : list Q) : forall m,
  Forall2 (fun e peak => peak <= e) xs (cummax_from m xs)
  <-> Forall (fun x => m <= x) xs /\ StronglySorted Qle xs.
Proof.
  induction xs as [|x r IH]; intro m; simpl.
  - split; [intros _; split; constructor | intros _; constructor].
  - destruct (Qmax2_spec m x) as [Hm Hx]. split.
    + intro H. inversion H as [|? ? ? ? Hp Hr]; subst.
      apply IH in Hr. destruct Hr as [Hall Hs].
      assert (Hmx : m <= x) by lra.
      split; constructor; try assumption.
      * eapply Forall_impl; [|exact Hall]. intros a Ha. simpl in Ha. lra.
      * eapply Forall_impl; [|exact Hall]. intros a Ha. simpl in Ha. lra.
    + intros [Hall Hs]. inversion Hall as [|? ? Hmx Hmr]; subst.
      inversion Hs as [|? ? Hsr Hxr]; subst.
      assert (Hp : Qmax2 m x <= x).
      { unfold Qmax2. destruct (Qltb m x); lra. }
      constructor; [exact Hp|]. apply IH. split; [|exact Hsr].
      eapply Forall_impl; [|exact Hxr]. intros a Ha. simpl in Ha. lra.
Qed.

Lemma never_below_peak_sorted (equities : list Q) :
  never_below_peak equities <-> StronglySorted Qle equities.
Proof.
  unfold never_below_peak. destruct equities as [|e0 r]; simpl.
  - split; intros _; constructor.
  - split.
    + intro H. inversion H as [|? ? ? ? _ Hr]; subst.
      apply never_below_from in Hr. destruct Hr as [Hall Hs].
      constructor; assumption.
    + intro H. inversion H as [|? ? Hs Hall]; subst.
      constructor; [lra|]. apply never_below_from. split; assumption.
Qed.

(** Lines 115-118 on a curve that starts above 0. *)
Lemma max_drawdown_spec (e0 : Q) (r : list Q) :
  0 < e0 ->
  exists d,
    max_drawdown (e0 :: r) = Fin d
    /\ d <= 0
    /\ (d == 0 <-> never_below_peak (e0 :: r)).
Proof.
  intro H0.
  destruct (drawdown_from r e0 H0) as (ds & Hz & Hle & Hiff).
  assert (Hd0 : (e0 - e0) / e0 * 100 == 0).
  { assert (E : e0 - e0 == 0) by ring. rewrite E. unfold Qdiv. ring. }
  assert (Ha : (e0 - e0) / e0 * 100 <= 0) by lra.
  destruct (series_min_from ds _ Ha Hle) as (d & Hd & Hdle & Hdiff).
  exists d. unfold max_drawdown, drawdown, series_min. simpl.
  rewrite (dd_fin _ _ H0), Hz. split; [exact Hd|]. split; [exact Hdle|].
  rewrite Hdiff, Hiff. unfold never_below_peak. simpl.
  split.
  - intros [_ H]. constructor; [lra | exact H].
  - intro H. inversion H; subst. tauto.
Qed.

(** [round(x, 2)] on values that are not above 0. *)
Lemma round_half_even_nonpos (x : Q) :
  x <= 0 ->
  (round_half_even x <= 0)%Z
  /\ (round_half_even x = 0%Z <-> - (1 # 2) <= x).
Proof.
  intro Hx. unfold round_half_even.
  pose proof (Qfloor_le x) as Hf. pose proof (Qlt_floor x) as Hf1.
  set (f := Qfloor x) in *.
  assert (Hf0 : (f <= 0)%Z).
  { rewrite Zle_Qle. change (inject_Z 0) with 0. lra. }
  rewrite inject_Z_plus in Hf1. change (inject_Z 1) with 1 in Hf1.
  destruct (Qcompare (x - inject_Z f) (1 # 2)) eqn:C.
  - apply Qeq_alt in C.
    destruct (Z.even f) eqn:Ev.
    + split; [exact Hf0|]. split; intro H.
      * rewrite H in C. change (inject_Z 0) with 0 in C. lra.
      * assert (Hm : (-1 <= f)%Z).
        { rewrite Zle_Qle. change (inject_Z (-1)) with (-1 # 1). lra. }
        assert (f = (-1)%Z \/ f = 0%Z) as [F|F] by lia; [|exact F].
        rewrite F in Ev. discriminate.
    + assert (Hne : f <> 0%Z) by (intro F; rewrite F in Ev; discriminate).
      split; [lia|]. split; intro H.
      * assert (F : f = (-1)%Z) by lia. rewrite F in C.
        change (inject_Z (-1)) with (-1 # 1) in C. lra.
      * assert (Hm : (-1 <= f)%Z).
        { rewrite Zle_Qle. change (inject_Z (-1)) with (-1 # 1). lra. }
        lia.
  - apply Qlt_alt in C. split; [exact Hf0|]. split; intro H.
    + rewrite H in Hf. change (inject_Z 0) with 0 in Hf. lra.
    + assert (Hm : (-1 < f)%Z).
      { rewrite Zlt_Qlt. change (inject_Z (-1)) with (-1 # 1). lra. }
      lia.
  - apply Qgt_alt in C.
    assert (Hne : f <> 0%Z).
    { intro F. rewrite F in C. change (inject_Z 0) with 0 in C. lra. }
    split; [lia|]. split; intro H.
    + assert (F : f = (-1)%Z) by lia. rewrite F in C.
      change (inject_Z (-1)) with (-1 # 1) in C. lra.
    + assert (Hm : (-2 < f)%Z).
      { rewrite Zlt_Qlt. change (inject_Z (-2)) with (-2 # 1). lra. }
      lia.
Qed.

Lemma round2_nonpos (d : Q) :
  d <= 0 ->
  round2 d <= 0 /\ (d == 0 -> round2 d == 0).
Proof.
  intro Hd. unfold round2.
  assert (Hx : d * 100 <= 0) by lra.
  destruct (round_half_even_nonpos _ Hx) as [Hz Hiff].
  set (z := round_half_even (d * 100)) in *.
  assert (Hq : inject_Z z <= 0) by (rewrite Zle_Qle in Hz; exact Hz).
  assert (E : inject_Z z / 100 == inject_Z z * (1 # 100)) by (field; lra).
  rewrite E. split; [lra|].
  intro H.
  assert (Hz0 : z = 0%Z) by (apply Hiff; lra).
  rewrite Hz0. reflexivity.
Qed.

Lemma run_backtest_max_drawdown ohlcv initial_capital ma_short ma_long tp sl res :
  run_backtest ohlcv initial_capital ma_short ma_long tp sl = Ok res ->
  max_drawdown_pct (metrics res)
  = pf_round2 (max_drawdown (map point_equity (result_curve res))).
Proof.
  unfold run_backtest.
  destruct (length ohlcv <? ma_long + 5)%nat; [discriminate|].
  destruct (simulation_window ohlcv ma_short ma_long) as [rows|e];
    simpl; [|discriminate].
  destruct (simulate rows initial_capital tp sl) as [st|e];
    simpl; [|discriminate].
  destruct (close_open_position st rows) as [st'|e]; simpl; [|discriminate].
  unfold report.
  destruct (py_div (final_equity initial_capital (equity_curve st') - initial_capital)
                   initial_capital) as [q|e]; simpl; [|discriminate].
  intro H. inversion H; subst. reflexivity.
Qed.

(** C7, as the code has it: on a run whose curve is non-empty with
    positive values, the minimum drawdown [d] of lines 115-118 is a
    number, is at most 0, and is 0 exactly when the equity never falls
    below its running peak (no point is lower than an earlier one).
    The reported [max_drawdown_pct] is [d] rounded to two decimals: at
    most 0, and 0 whenever the equity never falls below its peak. *)
Theorem max_drawdown_pct_nonpositive
    ohlcv initial_capital ma_short ma_long tp sl res :
  run_backtest ohlcv initial_capital ma_short ma_long tp sl = Ok res ->
  map point_equity (result_curve res) <> [] ->
  Forall (fun e => 0 < e) (map point_equity (result_curve res)) ->
  exists d,
    max_drawdown (map point_equity (result_curve res)) = Fin d
    /\ max_drawdown_pct (metrics res) = Fin (round2 d)
    /\ d <= 0
    /\ (d == 0 <-> never_below_peak (map point_equity (result_curve res)))
    /\ (d == 0 <-> StronglySorted Qle (map point_equity (result_curve res)))
    /\ round2 d <= 0
    /\ (never_below_peak (map point_equity (result_curve res)) -> round2 d == 0).
Proof.
  intros R Hne Hpos. rewrite (run_backtest_max_drawdown _ _ _ _ _ _ _ R).
  destruct (map point_equity (result_curve res)) as [|e0 r]; [congruence|].
  inversion Hpos as [|? ? H0 _]; subst.
  destruct (max_drawdown_spec e0 r H0) as (d & Hd & Hle & Hiff).
  destruct (round2_nonpos d Hle) as [Hr Hr0].
  exists d. rewrite Hd. simpl pf_round2.
  split; [reflexivity|]. split; [reflexivity|]. split; [exact Hle|].
  split; [exact Hiff|].
  split; [rewrite <- never_below_peak_sorted; exact Hiff|].
  split; [exact Hr|].
  intro N. apply Hr0. apply Hiff in N. exact N.
Qed.

Lemma max_drawdown_pct_nonpositive_witness :
  exists d,
    max_drawdown dip_curve = Fin d
    /\ d <= 0
    /\ (d == 0 <-> never_below_peak dip_curve)
    /\ round2 d <= 0.
Proof.
  destruct (max_drawdown_pct_nonpositive dip_history 100000 5 10
              (15 # 100) (8 # 100) dip_result)
    as (d & Hd & _ & Hle & Hiff & _ & Hr & _).
  - vm_compute. reflexivity.
  - vm_compute. discriminate.
  - vm_compute. repeat constructor.
  - exists d. repeat split; try assumption; apply Hiff.
Defined.

(** C7, the counterexample: on [dip_history] the curve is non-empty and
    positive and ends below its peak (199993.75 after 200000), yet the
    reported [max_drawdown_pct] is 0: the drawdown of -0.003125 percent
    is rounded away. *)
Lemma max_drawdown_pct_zero_after_dip :
  exists res r,
    run_backtest dip_history 100000 5 10 (15 # 100) (8 # 100) = Ok res
    /\ map point_equity (result_curve res) = dip_curve
    /\ dip_curve <> []
    /\ Forall (fun e => 0 < e) dip_curve
    /\ max_drawdown_pct (metrics res) = Fin r
    /\ r == 0
    /\ ~ never_below_peak dip_curve.
Proof.
  do 2 eexists.
  evaluate_each.
  split; [discriminate|].
  split; [repeat constructor|].
  evaluate_each.
  unfold never_below_peak. intro H. vm_compute in H.
  repeat match goal with
         | H : Forall2 _ (_ :: _) _ |- _ => inversion H; clear H; subst
         end.
  match goal with
  | H : Gt = Gt -> False |- _ => apply H; reflexivity
  end.
Qed.

(* ------------------------------------------------------------------ *)
(** ** Cash conservation *)
(* ------------------------------------------------------------------ *)

Lemma Qsum_app (xs ys : list Q) : Qsum (xs ++ ys) == Qsum xs + Qsum ys.
Proof.
  induction xs as [|x r IH]; simpl; [ring|]. rewrite IH. ring.
Qed.

Lemma zip_with_app {A B C} (f : A -> B -> C) (xs : list A) : forall ys xs' ys',
  length xs = length ys ->
  zip_with f (xs ++ xs') (ys ++ ys') = zip_with f xs ys ++ zip_with f xs' ys'.
Proof.
  induction xs as [|a xs IH]; intros [|b ys] xs' ys' H; simpl in *;
    try discriminate; [reflexivity|].
  rewrite IH by lia. reflexivity.
Qed.

Lemma weighted_pnl_app (s1 s2 p1 p2 : list Q) :
  length s1 = length p1 ->
  weighted_pnl (s1 ++ s2) (p1 ++ p2) == weighted_pnl s1 p1 + weighted_pnl s2 p2.
Proof.
  intro H. unfold weighted_pnl. rewrite zip_with_app by exact H.
  apply Qsum_app.
Qed.

(** One iteration: the cash changes by shares * pnl of the trade it
    closes, if it closes one. *)
Lemma step_cash tp sl st row st' :
  step tp sl st row = Ok st' ->
  fully_invested st ->
  fully_invested st'
  /\ exists new,
       trade_results st' = trade_results st ++ new
       /\ length (sold_shares tp sl st row) = length new
       /\ equity st' == equity st + weighted_pnl (sold_shares tp sl st row) new.
Proof.
  intros S I. unfold step, trade in S. unfold sold_shares.
  destruct (golden_cross st row) eqn:G.
  - unfold py_div in S.
    destruct (Qeq_bool (row_close row) 0) eqn:Hz; [discriminate|].
    apply Qeq_bool_neq in Hz. simpl in S. inversion S; subst; clear S.
    unfold fully_invested; simpl. split.
    + right. field. exact Hz.
    + exists []. rewrite app_nil_r. split; [reflexivity|].
      split; [reflexivity|]. unfold weighted_pnl; simpl. ring.
  - destruct (Qltb 0 (position st)) eqn:P.
    + destruct (py_div (row_close row - entry_price st) (entry_price st))
        as [change|e]; simpl in S; [|discriminate].
      destruct (should_sell tp sl st row change).
      * inversion S; subst; clear S. unfold fully_invested; simpl.
        split; [left; reflexivity|].
        exists [row_close row - entry_price st].
        split; [reflexivity|]. split; [reflexivity|].
        unfold weighted_pnl; simpl. apply Qltb_iff in P.
        destruct I as [I|I]; [exfalso; lra|].
        rewrite <- I. ring.
      * inversion S; subst; clear S. split; [exact I|].
        exists []. rewrite app_nil_r. split; [reflexivity|].
        split; [reflexivity|]. unfold weighted_pnl; simpl. ring.
    + inversion S; subst; clear S. split; [exact I|].
      exists []. rewrite app_nil_r. split; [reflexivity|].
      split; [reflexivity|]. unfold weighted_pnl; simpl. ring.
Qed.

Lemma walk_cash tp sl rows : forall st st',
  walk tp sl st rows = Ok st' ->
  fully_invested st ->
  fully_invested st'
  /\ exists new,
       trade_results st' = trade_results st ++ new
       /\ length (shares_log tp sl st rows) = length new
       /\ equity st' == equity st + weighted_pnl (shares_log tp sl st rows) new.
Proof.
  induction rows as [|row rest IH]; intros st st' W I; simpl in W.
  - inversion W; subst. split; [exact I|]. exists []. rewrite app_nil_r.
    split; [reflexivity|]. split; [reflexivity|].
    unfold weighted_pnl; simpl. ring.
  - simpl shares_log.
    destruct (step tp sl st row) as [st1|e] eqn:S; simpl in W; [|discriminate].
    destruct (step_cash _ _ _ _ _ S I) as (I1 & new1 & T1 & L1 & E1).
    destruct (IH _ _ W I1) as (I2 & new2 & T2 & L2 & E2).
    split; [exact I2|]. exists (new1 ++ new2).
    split; [rewrite T2, T1, app_assoc; reflexivity|].
    split; [rewrite !length_app; lia|].
    rewrite weighted_pnl_app by exact L1. rewrite E2, E1. ring.
Qed.

(** What the code conserves is the cash: after the loop and the forced
    liquidation it is initial_capital plus the shares-weighted pnl of
    the realized trades.  The final equity of the report is read from
    the curve instead: for a run that does not end with shares it is
    that cash rounded to two decimals; for a run that ends with shares
    it is the rounded sum of that cash and of the cash from before the
    entry. *)
Lemma cash_conserved rows initial_capital tp sl st st' first :
  iloc_first rows = Ok first ->
  simulate rows initial_capital tp sl = Ok st ->
  close_open_position st rows = Ok st' ->
  length (shares_log tp sl (init_state initial_capital first) rows
          ++ liquidated_shares st) = length (trade_results st')
  /\ equity st'
     == initial_capital
        + weighted_pnl (shares_log tp sl (init_state initial_capital first) rows
                        ++ liquidated_shares st)
                       (trade_results st')
  /\ (Qltb 0 (position st) = false ->
      final_equity initial_capital (equity_curve st') = round2 (equity st'))
  /\ (Qltb 0 (position st) = true ->
      final_equity initial_capital (equity_curve st')
      = round2 (equity st' + equity st)).
Proof.
  intros F S C. unfold simulate in S. rewrite F in S. simpl in S.
  assert (I0 : fully_invested (init_state initial_capital first))
    by (left; reflexivity).
  destruct (walk_cash _ _ _ _ _ S I0) as (I & new & T & L & E).
  cbn [init_state equity trade_results app] in T, E.
  set (sh := shares_log tp sl (init_state initial_capital first) rows) in *.
  clearbody sh.
  destruct rows as [|r0 rest]; [discriminate|].
  destruct (exists_last (l := r0 :: rest)) as (front & last_row & Er);
    [discriminate|].
  rewrite Er in S, C.
  destruct (walk_snoc_ok _ _ _ _ _ _ S) as (st_prev & _ & St).
  destruct (step_records _ _ _ _ _ St) as (mid & _ & Hst & _).
  assert (Hc : equity_curve st
               = equity_curve mid
                 ++ [mkPoint (row_date last_row)
                             (round2 (current_equity st (row_close last_row)))]).
  { rewrite Hst. reflexivity. }
  unfold close_open_position in C. unfold liquidated_shares.
  destruct (Qltb 0 (position st)) eqn:P.
  - rewrite map_app in C. simpl map in C. rewrite iloc_last_app in C.
    simpl in C. inversion C; subst st'; clear C.
    cbn [equity trade_results equity_curve].
    split; [rewrite !length_app, T, L; reflexivity|].
    split.
    + rewrite T, weighted_pnl_app by exact L. unfold weighted_pnl at 2.
      cbn [zip_with Qsum].
      apply Qltb_iff in P.
      destruct I as [I|I]; [exfalso; lra|]. nra.
    + split; [discriminate|]. intros _.
      rewrite Hc, final_equity_snoc. cbn [point_equity].
      unfold current_equity. rewrite P. reflexivity.
  - inversion C; subst st'; clear C.
    split; [rewrite app_nil_r, T, L; reflexivity|].
    split.
    + rewrite app_nil_r, T, E. reflexivity.
    + split; [|discriminate]. intros _.
      rewrite Hc, final_equity_snoc. cbn [point_equity].
      unfold current_equity. rewrite P. reflexivity.
Qed.

(* ------------------------------------------------------------------ *)
(** ** The simulation window of a history without gaps *)
(* ------------------------------------------------------------------ *)

Lemma combine_indexed {A B C} (d : A) (f : nat -> B) (g : nat -> C) (xs : list A) :
  forall a,
    combine xs (combine (map f (seq a (length xs))) (map g (seq a (length xs))))
    = map (fun i => (nth (i - a) xs d, (f i, g i))) (seq a (length xs)).
Proof.
  induction xs as [|x r IH]; intro a; simpl; [reflexivity|].
  rewrite Nat.sub_diag. f_equal. rewrite IH.
  apply map_ext_in. intros i Hi. apply in_seq in Hi.
  replace (i - a)%nat with (S (i - S a)) by lia. reflexivity.
Qed.

Lemma flat_map_guarded {A} (f : nat -> A) (m : nat) (idx : list nat) :
  flat_map (fun i => if (i + 1 <? m)%nat then [] else [f i]) idx
  = map f (filter (fun i => (m - 1 <=? i)%nat) idx).
Proof.
  induction idx as [|i r IH]; simpl; [reflexivity|]. rewrite IH.
  destruct (i + 1 <? m)%nat eqn:E.
  - apply Nat.ltb_lt in E.
    replace (m - 1 <=? i)%nat with false by (symmetry; apply Nat.leb_gt; lia).
    reflexivity.
  - apply Nat.ltb_ge in E.
    replace (m - 1 <=? i)%nat with true by (symmetry; apply Nat.leb_le; lia).
    reflexivity.
Qed.

Lemma filter_seq_from (k n : nat) :
  filter (fun i => (k <=? i)%nat) (seq 0 n) = seq k (n - k).
Proof.
  induction n as [|n IH]; [reflexivity|].
  rewrite seq_S, filter_app, IH. cbn [filter plus].
  destruct (k <=? n)%nat eqn:E.
  - apply Nat.leb_le in E. replace (S n - k)%nat with (S (n - k)) by lia.
    rewrite seq_S. replace (k + (n - k))%nat with n by lia. reflexivity.
  - apply Nat.leb_gt in E. replace (n - k)%nat with 0%nat by lia.
    replace (S n - k)%nat with 0%nat by lia. reflexivity.
Qed.

Lemma nth_map_in {A B} (f : A -> B) (xs : list A) (d : A) (d' : B) (i : nat) :
  (i < length xs)%nat -> nth i (map f xs) d' = f (nth i xs d).
Proof.
  intro H. rewrite (nth_indep _ d' (f d)) by (rewrite length_map; exact H).
  apply map_nth.
Qed.

Lemma clean_history_columns (bars : list (string * Q)) :
  bars <> [] ->
  has_column date (clean_history bars) = true
  /\ has_column close (clean_history bars) = true.
Proof.
  destruct bars as [|b r]; [congruence|]. intros _. split; reflexivity.
Qed.

Lemma clean_history_frame (bars : list (string * Q)) :
  flat_map (fun b => match cell_value (close b) with
                     | Some q => [(date b, q)]
                     | None => []
                     end) (clean_history bars)
  = map (fun dc => (Val (fst dc), snd dc)) bars.
Proof.
  induction bars as [|b r IH]; simpl; [reflexivity|]. rewrite IH. reflexivity.
Qed.

Lemma window_of_clean_history (bars : list (string * Q)) (ma_short ma_long : nat) :
  bars <> [] -> (1 <= ma_short)%nat -> (1 <= ma_long)%nat ->
  simulation_window (clean_history bars) ma_short ma_long
  = Ok (map (window_row bars ma_short ma_long)
            (seq (Nat.max ma_short ma_long - 1)
                 (length bars - (Nat.max ma_short ma_long - 1)))).
Proof.
  intros Hne Hs Hl. unfold simulation_window.
  destruct (clean_history_columns bars Hne) as [-> ->]. simpl andb. cbv iota.
  rewrite clean_history_frame.
  set (df := map (fun dc : string * Q => (@Val string (fst dc), snd dc)) bars).
  assert (Hc : map snd df = map snd bars).
  { unfold df. rewrite map_map. reflexivity. }
  rewrite Hc. unfold rolling_mean.
  assert (Hn : length (map snd bars) = length df).
  { unfold df. rewrite !length_map. reflexivity. }
  rewrite Hn.
  rewrite (combine_indexed (@Null string, 0) _ _ df 0).
  rewrite flat_map_concat_map, map_map.
  rewrite <- filter_seq_from, <- flat_map_guarded, flat_map_concat_map.
  f_equal. f_equal. unfold df. rewrite length_map.
  apply map_ext_in. intros i Hi. apply in_seq in Hi.
  rewrite Nat.sub_0_r.
  rewrite (nth_map_in (fun dc : string * Q => (@Val string (fst dc), snd dc))
             bars (EmptyString, 0)) by lia.
  unfold rolling_mean_at, row_of. simpl fst. simpl snd.
  replace (ma_short =? 0)%nat with false by (symmetry; apply Nat.eqb_neq; lia).
  replace (ma_long =? 0)%nat with false by (symmetry; apply Nat.eqb_neq; lia).
  simpl orb.
  destruct (i + 1 <? Nat.max ma_short ma_long)%nat eqn:E.
  - apply Nat.ltb_lt in E.
    destruct (i + 1 <? ma_short)%nat eqn:Es; [reflexivity|].
    destruct (i + 1 <? ma_long)%nat eqn:El; [reflexivity|].
    apply Nat.ltb_ge in Es, El. lia.
  - apply Nat.ltb_ge in E.
    replace (i + 1 <? ma_short)%nat with false by (symmetry; apply Nat.ltb_ge; lia).
    replace (i + 1 <? ma_long)%nat with false by (symmetry; apply Nat.ltb_ge; lia).
    unfold window_row, sma.
    rewrite (nth_map_in fst bars (EmptyString, 0)) by lia.
    rewrite (nth_map_in snd bars (EmptyString, 0)) by lia.
    reflexivity.
Qed.

(** On a history without gaps the frame the loop walks starts at the
    first bar at which both windows are full and has one row per bar
    from there on: the bar's date and close, and the means of the last
    [ma_short] and [ma_long] closes. *)
Theorem simulation_window_clean (bars : list (string * Q)) (ma_short ma_long : nat) :
  bars <> [] -> (1 <= ma_short)%nat -> (1 <= ma_long)%nat ->
  simulation_window (clean_history bars) ma_short ma_long
  = Ok (map (window_row bars ma_short ma_long)
            (seq (Nat.max ma_short ma_long - 1)
                 (length bars - (Nat.max ma_short ma_long - 1)))).
Proof. exact (window_of_clean_history bars ma_short ma_long). Qed.

(* ------------------------------------------------------------------ *)
(** ** The walk: curve, totality, flat prices, exits *)
(* ------------------------------------------------------------------ *)

Lemma walk_curve_dates tp sl rows : forall st st',
  walk tp sl st rows = Ok st' ->
  map point_date (equity_curve st')
  = map point_date (equity_curve st) ++ map row_date rows.
Proof.
  induction rows as [|row rest IH]; intros st st' W; simpl in W.
  - inversion W; subst. rewrite app_nil_r. reflexivity.
  - destruct (step tp sl st row) as [st1|e] eqn:S; simpl in W; [|discriminate].
    rewrite (IH _ _ W).
    destruct (step_records _ _ _ _ _ S) as (mid & _ & -> & Hc).
    unfold record_point; cbn [equity_curve]. rewrite Hc, map_app, <- app_assoc.
    reflexivity.
Qed.

Lemma close_open_position_curve st rows st' :
  close_open_position st rows = Ok st' -> equity_curve st' = equity_curve st.
Proof.
  unfold close_open_position. destruct (Qltb 0 (position st)).
  - destruct (iloc_last (map row_close rows)); simpl; intro H; inversion H;
      reflexivity.
  - intro H; inversion H; reflexivity.
Qed.

Lemma report_fields initial_capital ma_short ma_long st res :
  report initial_capital ma_short ma_long st = Ok res ->
  strategy res = (ma_short, ma_long)
  /\ result_curve res = equity_curve st
  /\ num_trades (metrics res) = length (trade_results st)
  /\ win_rate_pct (metrics res) = round2 (win_rate (trade_results st)).
Proof.
  unfold report.
  destruct (py_div (final_equity initial_capital (equity_curve st) - initial_capital)
                   initial_capital); simpl; intro H; inversion H; subst.
  repeat split.
Qed.

Lemma run_walks_window ohlcv initial_capital ma_short ma_long tp sl res :
  run_backtest ohlcv initial_capital ma_short ma_long tp sl = Ok res ->
  exists rows,
    simulation_window ohlcv ma_short ma_long = Ok rows
    /\ rows <> []
    /\ map point_date (result_curve res) = map row_date rows
    /\ length (result_curve res) = length rows
    /\ strategy res = (ma_short, ma_long).
Proof.
  unfold run_backtest.
  destruct (length ohlcv <? ma_long + 5)%nat; [discriminate|].
  destruct (simulation_window ohlcv ma_short ma_long) as [rows|e];
    simpl; [|discriminate].
  destruct (simulate rows initial_capital tp sl) as [st|e] eqn:S;
    simpl; [|discriminate].
  destruct (close_open_position st rows) as [st'|e] eqn:C; simpl; [|discriminate].
  intro R. exists rows. split; [reflexivity|].
  destruct (report_fields _ _ _ _ _ R) as (Hs & Hc & _).
  unfold simulate in S. destruct rows as [|first rest]; [discriminate|].
  simpl iloc_first in S. rewrite (bind_ok _ _ first eq_refl) in S.
  pose proof (walk_curve_dates _ _ _ _ _ S) as D. simpl in D.
  rewrite (close_open_position_curve _ _ _ C) in Hc.
  split; [discriminate|]. rewrite Hc.
  split; [exact D|]. split; [|exact Hs].
  apply (f_equal (@length string)) in D. rewrite !length_map in D.
  rewrite D. simpl. rewrite length_map. reflexivity.
Qed.

(** Every run that returns walked a window that is not empty, and its
    equity curve has exactly one point per row of that window, in
    order, dated with the row's date. *)
Theorem curve_follows_window ohlcv initial_capital ma_short ma_long tp sl res :
  run_backtest ohlcv initial_capital ma_short ma_long tp sl = Ok res ->
  exists rows,
    simulation_window ohlcv ma_short ma_long = Ok rows
    /\ rows <> []
    /\ map point_date (result_curve res) = map row_date rows
    /\ length (result_curve res) = length rows
    /\ strategy res = (ma_short, ma_long).
Proof.
  exact (run_walks_window ohlcv initial_capital ma_short ma_long tp sl res).
Qed.

Lemma trade_total tp sl st row :
  entry_known st -> ~ row_close row == 0 ->
  exists st', trade tp sl st row = Ok st' /\ entry_known st'.
Proof.
  intros I Hp. unfold trade.
  assert (Hd : forall x, py_div x (row_close row) = Ok (x / row_close row)).
  { intro x. unfold py_div. destruct (Qeq_bool (row_close row) 0) eqn:E;
      [|reflexivity]. apply Qeq_bool_eq in E. contradiction. }
  destruct (golden_cross st row).
  - rewrite Hd. simpl. eexists. split; [reflexivity|].
    unfold entry_known; simpl. intros _. exact Hp.
  - destruct (Qltb 0 (position st)) eqn:P.
    + unfold py_div. destruct (Qeq_bool (entry_price st) 0) eqn:E.
      * apply Qeq_bool_eq in E. exfalso. apply (I P). exact E.
      * simpl. destruct (should_sell tp sl st row _).
        -- eexists. split; [reflexivity|]. unfold entry_known; simpl.
           intro H. apply Qltb_iff in H. exfalso. apply (Qlt_irrefl 0 H).
        -- exists st. split; [reflexivity | exact I].
    + exists st. split; [reflexivity | exact I].
Qed.

Lemma walk_total tp sl rows : forall st,
  entry_known st ->
  Forall (fun row => ~ row_close row == 0) rows ->
  exists st', walk tp sl st rows = Ok st'.
Proof.
  induction rows as [|row rest IH]; intros st I H; simpl.
  - exists st. reflexivity.
  - inversion H as [|? ? Hp Hr]; subst.
    destruct (trade_total tp sl st row I Hp) as (mid & T & Im).
    unfold step. rewrite T. simpl. apply IH; [|exact Hr].
    unfold entry_known, record_point; simpl. exact Im.
Qed.

Lemma window_rows_closes (bars : list (string * Q)) ma_short ma_long (P : Q -> Prop) :
  Forall (fun dc => P (snd dc)) bars ->
  Forall (fun row => P (row_close row))
         (map (window_row bars ma_short ma_long)
              (seq (Nat.max ma_short ma_long - 1)
                   (length bars - (Nat.max ma_short ma_long - 1)))).
Proof.
  intro H. apply Forall_forall. intros row Hin.
  apply in_map_iff in Hin. destruct Hin as (i & <- & Hi).
  apply in_seq in Hi. unfold window_row; simpl.
  rewrite (nth_map_in snd bars (EmptyString, 0)) by lia.
  rewrite Forall_forall in H. apply H. apply nth_In. lia.
Qed.

(** On a history without gaps whose closes are not 0, with windows of
    at least one bar that fit the history, at least ma_long + 5 bars
    and a capital that is not 0, [run_backtest] returns: it raises
    nothing, and the curve has one point for every bar from the first
    full window on. *)
Theorem run_backtest_returns (bars : list (string * Q)) initial_capital
    ma_short ma_long tp sl :
  Forall (fun dc => ~ snd dc == 0) bars ->
  (1 <= ma_short <= length bars)%nat ->
  (1 <= ma_long)%nat ->
  (ma_long + 5 <= length bars)%nat ->
  ~ initial_capital == 0 ->
  exists res,
    run_backtest (clean_history bars) initial_capital ma_short ma_long tp sl
    = Ok res
    /\ length (result_curve res)
       = (length bars - (Nat.max ma_short ma_long - 1))%nat
    /\ map point_date (result_curve res)
       = skipn (Nat.max ma_short ma_long - 1) (map fst bars).
Proof.
  intros Hnz Hs Hl Hlen Hic.
  assert (Hne : bars <> []) by (destruct bars; [simpl in Hlen; lia | discriminate]).
  pose proof (window_of_clean_history bars ma_short ma_long Hne
                ltac:(lia) Hl) as W.
  set (rows := map (window_row bars ma_short ma_long)
                   (seq (Nat.max ma_short ma_long - 1)
                        (length bars - (Nat.max ma_short ma_long - 1)))) in *.
  assert (Hrows : Forall (fun row => ~ row_close row == 0) rows)
    by (apply (window_rows_closes bars ma_short ma_long
                 (fun q => ~ q == 0) Hnz)).
  assert (Hrl : length rows = (length bars - (Nat.max ma_short ma_long - 1))%nat).
  { unfold rows. rewrite length_map, length_seq. reflexivity. }
  destruct rows as [|first rest] eqn:Er; [simpl in Hrl; lia|].
  assert (I0 : entry_known (init_state initial_capital first)).
  { unfold entry_known; simpl. intro H. apply Qltb_iff in H.
    exfalso. apply (Qlt_irrefl 0 H). }
  destruct (walk_total tp sl (first :: rest) _ I0 Hrows) as (st & Wk).
  assert (S : simulate (first :: rest) initial_capital tp sl = Ok st).
  { unfold simulate. simpl iloc_first. rewrite (bind_ok _ _ first eq_refl).
    exact Wk. }
  assert (exists st', close_open_position st (first :: rest) = Ok st') as (st' & C).
  { unfold close_open_position. destruct (Qltb 0 (position st)); [|eauto].
    destruct (iloc_last_ok (map row_close (first :: rest))) as (p & ->);
      [discriminate|]. simpl. eauto. }
  assert (exists res, report initial_capital ma_short ma_long st' = Ok res)
    as (res & R).
  { unfold report, py_div. destruct (Qeq_bool initial_capital 0) eqn:E.
    - apply Qeq_bool_eq in E. contradiction.
    - simpl. eauto. }
  assert (Run : run_backtest (clean_history bars) initial_capital ma_short
                             ma_long tp sl = Ok res).
  { unfold run_backtest.
    replace (length (clean_history bars) <? ma_long + 5)%nat with false
      by (symmetry; apply Nat.ltb_ge; unfold clean_history;
          rewrite length_map; lia).
    rewrite W. simpl. rewrite S. simpl. rewrite C. simpl. exact R. }
  exists res. split; [exact Run|].
  destruct (run_walks_window _ _ _ _ _ _ _ Run) as (rows' & W' & _ & D & L & _).
  rewrite W in W'. inversion W'; subst rows'.
  split; [rewrite L; exact Hrl|].
  rewrite D, <- Er. unfold rows. rewrite map_map.
  clear. set (k := (Nat.max ma_short ma_long - 1)%nat).
  unfold window_row; simpl.
  assert (G : forall (xs : list string) k,
             map (fun i => nth i xs EmptyString) (seq k (length xs - k))
             = skipn k xs).
  { clear. intro xs. induction xs as [|x r IH]; intro k.
    - simpl. destruct k; reflexivity.
    - destruct k as [|k].
      + simpl. f_equal. rewrite <- seq_shift, map_map.
        specialize (IH 0%nat). rewrite Nat.sub_0_r in IH. simpl in IH.
        exact IH.
      + simpl length. simpl skipn. rewrite <- (IH k).
        replace (S (length r) - S k)%nat with (length r - k)%nat by lia.
        rewrite <- seq_shift, map_map. reflexivity. }
  rewrite <- (G (map fst bars) k). rewrite length_map. reflexivity.
Qed.

Lemma nat_Q_S (n : nat) : nat_Q (S n) == nat_Q n + 1.
Proof.
  unfold nat_Q. rewrite Nat2Z.inj_succ. unfold Z.succ.
  rewrite inject_Z_plus. reflexivity.
Qed.

Lemma nat_Q_pos (n : nat) : (1 <= n)%nat -> 0 < nat_Q n.
Proof.
  intro H. unfold nat_Q. change 0 with (inject_Z 0). rewrite <- Zlt_Qlt. lia.
Qed.

Lemma Qsum_const (c : Q) (xs : list Q) :
  Forall (fun x => x == c) xs -> Qsum xs == nat_Q (length xs) * c.
Proof.
  induction 1 as [|x r Hx _ IH]; simpl Qsum.
  - unfold nat_Q; simpl. ring.
  - simpl length. rewrite nat_Q_S, IH, Hx. ring.
Qed.

Lemma window_at_incl (w i : nat) (xs : list Q) (x : Q) :
  In x (window_at w i xs) -> In x xs.
Proof.
  unfold window_at. intro H.
  rewrite <- (firstn_skipn (i + 1 - w) xs). apply in_or_app. right.
  rewrite <- (firstn_skipn w (skipn (i + 1 - w) xs)). apply in_or_app. left.
  exact H.
Qed.

Lemma window_at_length (w i : nat) (xs : list Q) :
  (w <= i + 1)%nat -> (i < length xs)%nat -> length (window_at w i xs) = w.
Proof.
  intros Hw Hi. unfold window_at. rewrite length_firstn, length_skipn. lia.
Qed.

(** The moving average of a constant series is the constant. *)
Lemma sma_const (c : Q) (w i : nat) (xs : list Q) :
  Forall (fun x => x == c) xs ->
  (1 <= w <= i + 1)%nat -> (i < length xs)%nat ->
  sma w xs i == c.
Proof.
  intros H Hw Hi. unfold sma.
  assert (F : Forall (fun x => x == c) (window_at w i xs)).
  { apply Forall_forall. intros x Hx. rewrite Forall_forall in H.
    apply H, (window_at_incl w i xs x Hx). }
  rewrite (Qsum_const c _ F), (window_at_length w i xs) by lia.
  pose proof (nat_Q_pos w ltac:(lia)) as P. unfold nat_Q in *.
  field. lra.
Qed.

(** Without a bar whose short mean is above its long mean nothing is
    ever bought: a state without shares walks through unchanged and
    the curve gets the cash, rounded, for every bar. *)
Lemma walk_without_cross tp sl rows : forall st,
  Qltb 0 (position st) = false ->
  Forall (fun row => Qltb (row_long row) (row_short row) = false) rows ->
  exists st',
    walk tp sl st rows = Ok st'
    /\ position st' = position st
    /\ equity st' = equity st
    /\ trade_results st' = trade_results st
    /\ equity_curve st'
       = equity_curve st
         ++ map (fun row => mkPoint (row_date row) (round2 (equity st))) rows.
Proof.
  induction rows as [|row rest IH]; intros st P H; simpl.
  - exists st. rewrite app_nil_r. repeat split.
  - inversion H as [|? ? Hx Hr]; subst.
    assert (T : trade tp sl st row = Ok st).
    { unfold trade, golden_cross. rewrite Hx, andb_false_r. simpl.
      rewrite P. reflexivity. }
    unfold step. rewrite T. simpl.
    destruct (IH (record_point st row) P Hr) as (st' & W & Hp & He & Ht & Hc).
    exists st'. split; [exact W|]. cbn [record_point position equity
      trade_results equity_curve] in Hp, He, Ht, Hc.
    split; [exact Hp|]. split; [exact He|]. split; [exact Ht|].
    rewrite Hc. unfold current_equity. rewrite P, <- app_assoc. reflexivity.
Qed.

(** A history without gaps whose closes all have the same value never
    triggers an entry: the run returns with no trade, a win rate of 0,
    and a curve that shows the initial capital (rounded) on every
    bar. *)
Theorem flat_prices_never_trade (bars : list (string * Q)) (c : Q)
    initial_capital ma_short ma_long tp sl :
  Forall (fun dc => snd dc == c) bars ->
  (1 <= ma_short <= length bars)%nat ->
  (1 <= ma_long)%nat ->
  (ma_long + 5 <= length bars)%nat ->
  ~ initial_capital == 0 ->
  exists res,
    run_backtest (clean_history bars) initial_capital ma_short ma_long tp sl
    = Ok res
    /\ num_trades (metrics res) = 0%nat
    /\ win_rate_pct (metrics res) == 0
    /\ Forall (fun p => point_equity p = round2 initial_capital)
              (result_curve res)
    /\ length (result_curve res)
       = (length bars - (Nat.max ma_short ma_long - 1))%nat.
Proof.
  intros Hc Hs Hl Hlen Hic.
  assert (Hne : bars <> []) by (destruct bars; [simpl in Hlen; lia | discriminate]).
  pose proof (window_of_clean_history bars ma_short ma_long Hne
                ltac:(lia) Hl) as W.
  set (rows := map (window_row bars ma_short ma_long)
                   (seq (Nat.max ma_short ma_long - 1)
                        (length bars - (Nat.max ma_short ma_long - 1)))) in *.
  assert (Hflat : Forall (fun row => Qltb (row_long row) (row_short row) = false)
                         rows).
  { apply Forall_forall. intros row Hin. apply in_map_iff in Hin.
    destruct Hin as (i & <- & Hi). apply in_seq in Hi.
    unfold window_row; cbn [row_long row_short].
    assert (Fc : Forall (fun x => x == c) (map snd bars)).
    { apply Forall_forall. intros x Hx. apply in_map_iff in Hx.
      destruct Hx as (dc & <- & Hdc). rewrite Forall_forall in Hc.
      apply Hc, Hdc. }
    assert (Es : sma ma_short (map snd bars) i == c)
      by (apply sma_const; [exact Fc | lia | rewrite length_map; lia]).
    assert (El : sma ma_long (map snd bars) i == c)
      by (apply sma_const; [exact Fc | lia | rewrite length_map; lia]).
    destruct (Qltb _ _) eqn:E; [|reflexivity].
    apply Qltb_iff in E. exfalso. lra. }
  assert (Hrl : length rows = (length bars - (Nat.max ma_short ma_long - 1))%nat).
  { unfold rows. rewrite length_map, length_seq. reflexivity. }
  destruct rows as [|first rest] eqn:Er; [simpl in Hrl; lia|].
  destruct (walk_without_cross tp sl (first :: rest)
              (init_state initial_capital first) eq_refl Hflat)
    as (st & Wk & Hp & He & Ht & Hcv).
  cbn [init_state position equity trade_results equity_curve app] in Hp, He, Ht, Hcv.
  assert (Sm : simulate (first :: rest) initial_capital tp sl = Ok st).
  { unfold simulate. simpl iloc_first. rewrite (bind_ok _ _ first eq_refl).
    exact Wk. }
  assert (C : close_open_position st (first :: rest) = Ok st).
  { unfold close_open_position. rewrite Hp. reflexivity. }
  assert (exists res, report initial_capital ma_short ma_long st = Ok res)
    as (res & R).
  { unfold report, py_div. destruct (Qeq_bool initial_capital 0) eqn:E.
    - apply Qeq_bool_eq in E. contradiction.
    - simpl. eauto. }
  exists res. split.
  { unfold run_backtest.
    replace (length (clean_history bars) <? ma_long + 5)%nat with false
      by (symmetry; apply Nat.ltb_ge; unfold clean_history;
          rewrite length_map; lia).
    rewrite W. simpl. rewrite Sm. simpl. rewrite C. simpl. exact R. }
  destruct (report_fields _ _ _ _ _ R) as (_ & Hrc & Hnt & Hwr).
  rewrite Hnt, Hwr, Hrc, Ht, Hcv.
  split; [reflexivity|]. split; [vm_compute; reflexivity|].
  split.
  - apply Forall_forall. intros p Hin. apply in_map_iff in Hin.
    destruct Hin as (row & <- & _). reflexivity.
  - rewrite length_map. exact Hrl.
Qed.

(* ------------------------------------------------------------------ *)
(** ** Exits *)
(* ------------------------------------------------------------------ *)

Lemma Qle_bool_false (x y : Q) : Qle_bool x y = false <-> y < x.
Proof.
  split; intro H.
  - apply Qnot_le_lt. intro L. apply Qle_bool_iff in L. congruence.
  - destruct (Qle_bool x y) eqn:E; [|reflexivity].
    apply Qle_bool_iff in E. exfalso. apply (Qlt_not_le _ _ H E).
Qed.



(* ------------------------------------------------------------------ *)
(** ** The endpoint on top of the service *)
(* ------------------------------------------------------------------ *)

(** With [finrl_mock.run_backtest] as the service, the endpoint answers
    422 exactly when the windows are out of order or the fetched
    history has fewer than ma_long + 5 bars; every other failure of the
    service is a 500, and a result of the service is passed on with the
    request's symbol. *)
Theorem endpoint_status (fetch_market_data : string -> nat -> list Bar)
    (body : Api.BacktestRequest) :
  let service := finrl_mock_run_backtest fetch_market_data in
  let history := fetch_market_data (Api.symbol body) (Api.lookback_days body) in
  let run := run_backtest history (Api.initial_capital body)
               (Api.ma_short body) (Api.ma_long body)
               (Api.take_profit_pct body) (Api.stop_loss_pct body) in
  ((exists d, Api.run_backtest service body
              = inr (Api.HTTP_422_UNPROCESSABLE_ENTITY d))
   <-> (Api.ma_long body <= Api.ma_short body)%nat
       \/ (length history < Api.ma_long body + 5)%nat)
  /\ ((exists d, Api.run_backtest service body
                 = inr (Api.HTTP_500_INTERNAL_SERVER_ERROR d))
      <-> (Api.ma_short body < Api.ma_long body)%nat
          /\ exists e, run = Raise e /\ e <> ValueError)
  /\ (forall r, Api.run_backtest service body = inl r ->
        (Api.ma_short body < Api.ma_long body)%nat
        /\ exists res, run = Ok res
             /\ r = Api.mkResponse (Api.symbol body) (strategy res)
                                   (metrics res) (result_curve res)).
Proof.
  intros service history run.
  pose proof (run_backtest_value_error history (Api.initial_capital body)
                (Api.ma_short body) (Api.ma_long body)
                (Api.take_profit_pct body) (Api.stop_loss_pct body)) as V.
  fold run in V.
  unfold Api.run_backtest, service, finrl_mock_run_backtest.
  fold history. fold run.
  destruct (Api.ma_long body <=? Api.ma_short body)%nat eqn:G.
  - apply Nat.leb_le in G. split; [|split].
    + split; [intros _; left; exact G | intros _; eauto].
    + split; [intros [d H]; discriminate | intros [H _]; lia].
    + intros r H. discriminate.
  - apply Nat.leb_gt in G. destruct run as [res|e] eqn:R.
    + split; [|split].
      * split; [intros [d H]; discriminate|].
        intros [H|H]; [lia|]. apply V in H. discriminate.
      * split; [intros [d H]; discriminate|].
        intros [_ (e & H & _)]. discriminate.
      * intros r H. inversion H; subst. split; [exact G|].
        exists res. split; reflexivity.
    + destruct e.
      * split; [|split].
        -- split; [intros _; right; apply V; reflexivity | intros _; eauto].
        -- split; [intros [d H]; discriminate|].
           intros [_ (e & H & N)]. inversion H; subst. congruence.
        -- intros r H. discriminate.
      * split; [|split].
        -- split; [intros [d H]; discriminate|].
           intros [H|H]; [lia|]. apply V in H. discriminate.
        -- split; [intros _; split; [exact G|]; eexists; split;
                   [reflexivity | discriminate] | intros _; eauto].
        -- intros r H. discriminate.
      * split; [|split].
        -- split; [intros [d H]; discriminate|].
           intros [H|H]; [lia|]. apply V in H. discriminate.
        -- split; [intros _; split; [exact G|]; eexists; split;
                   [reflexivity | discriminate] | intros _; eauto].
        -- intros r H. discriminate.
      * split; [|split].
        -- split; [intros [d H]; discriminate|].
           intros [H|H]; [lia|]. apply V in H. discriminate.
        -- split; [intros _; split; [exact G|]; eexists; split;
                   [reflexivity | discriminate] | intros _; eauto].
        -- intros r H. discriminate.
Qed.

(* ------------------------------------------------------------------ *)
(** ** Rounding keeps integer bounds; the win rate *)
(* ------------------------------------------------------------------ *)

Lemma round_half_even_bounds (x : Q) (z : Z) :
  (inject_Z z <= x -> (z <= round_half_even x)%Z)
  /\ (x <= inject_Z z -> (round_half_even x <= z)%Z).
Proof.
  unfold round_half_even.
  pose proof (Qfloor_le x) as Hf. pose proof (Qlt_floor x) as Hf1.
  set (f := Qfloor x) in *.
  rewrite inject_Z_plus in Hf1. change (inject_Z 1) with 1 in Hf1.
  assert (Lo : inject_Z z <= x -> (z <= f)%Z).
  { intro H. assert (L : (z < f + 1)%Z).
    { rewrite Zlt_Qlt, inject_Z_plus. change (inject_Z 1) with 1. lra. }
    lia. }
  assert (Up : x <= inject_Z z -> (f <= z)%Z).
  { intro H. rewrite Zle_Qle. lra. }
  assert (Up1 : x <= inject_Z z -> inject_Z f < x -> (f + 1 <= z)%Z).
  { intros H H1. assert (L : (f < z)%Z) by (rewrite Zlt_Qlt; lra). lia. }
  destruct (Qcompare (x - inject_Z f) (1 # 2)) eqn:C.
  - apply Qeq_alt in C. destruct (Z.even f).
    + split; [exact Lo | exact Up].
    + split; [intro H; apply Lo in H; lia|].
      intro H. apply (Up1 H). lra.
  - split; [exact Lo | exact Up].
  - apply Qgt_alt in C. split; [intro H; apply Lo in H; lia|].
    intro H. apply (Up1 H). lra.
Qed.

Lemma round2_0_100 (x : Q) : 0 <= x <= 100 -> 0 <= round2 x <= 100.
Proof.
  intros [H0 H1]. unfold round2.
  destruct (round_half_even_bounds (x * 100) 0) as [Lo _].
  destruct (round_half_even_bounds (x * 100) 10000) as [_ Up].
  assert (L : (0 <= round_half_even (x * 100))%Z).
  { apply Lo. change (inject_Z 0) with 0. lra. }
  assert (U : (round_half_even (x * 100) <= 10000)%Z).
  { apply Up. change (inject_Z 10000) with (10000 # 1). lra. }
  set (z := round_half_even (x * 100)) in *.
  rewrite Zle_Qle in L, U. change (inject_Z 0) with 0 in L.
  change (inject_Z 10000) with (10000 # 1) in U.
  assert (E : inject_Z z / 100 == inject_Z z * (1 # 100)) by (field; lra).
  rewrite E. lra.
Qed.

Lemma nat_Q_le (a b : nat) : (a <= b)%nat -> nat_Q a <= nat_Q b.
Proof. intro H. unfold nat_Q. rewrite <- Zle_Qle. lia. Qed.

Lemma win_rate_range (trades : list Q) : 0 <= win_rate trades <= 100.
Proof.
  unfold win_rate. destruct trades as [|t r]; [lra|].
  set (ts := t :: r).
  assert (Hn : 0 < nat_Q (length ts)) by (apply nat_Q_pos; simpl; lia).
  assert (Hw : nat_Q (length (filter (fun x => Qltb 0 x) ts)) <= nat_Q (length ts))
    by (apply nat_Q_le, filter_length_le).
  assert (Hw0 : 0 <= nat_Q (length (filter (fun x => Qltb 0 x) ts)))
    by (apply (nat_Q_le 0); lia).
  set (w := nat_Q (length (filter (fun x => Qltb 0 x) ts))) in *.
  set (n := nat_Q (length ts)) in *.
  assert (Hi : 0 < / n) by (apply Qinv_lt_0_compat; exact Hn).
  assert (E1 : n * / n == 1) by (apply Qmult_inv_r; lra).
  unfold Qdiv. split; [nra|].
  assert (w * / n <= 1); [|lra].
  rewrite <- E1. apply Qmult_le_compat_r; lra.
Qed.

Lemma no_wins (trades : list Q) :
  Forall (fun pnl => pnl <= 0) trades -> filter (fun x => Qltb 0 x) trades = [].
Proof.
  induction 1 as [|x l Hx _ IH]; [reflexivity|]. simpl.
  destruct (Qltb 0 x) eqn:Q0; [|exact IH].
  apply Qltb_iff in Q0. exfalso. lra.
Qed.

(** The win rate a run reports lies between 0 and 100.  It is taken
    over the trades as they stand after the forced liquidation, whose
    trade counts like any other, and it is 0 when no trade was closed
    or none had a positive pnl. *)
Theorem win_rate_pct_range ohlcv initial_capital ma_short ma_long tp sl res :
  run_backtest ohlcv initial_capital ma_short ma_long tp sl = Ok res ->
  0 <= win_rate_pct (metrics res) <= 100
  /\ exists rows st st',
       simulation_window ohlcv ma_short ma_long = Ok rows
       /\ simulate rows initial_capital tp sl = Ok st
       /\ close_open_position st rows = Ok st'
       /\ num_trades (metrics res) = length (trade_results st')
       /\ win_rate_pct (metrics res) = round2 (win_rate (trade_results st'))
       /\ (Forall (fun pnl => pnl <= 0) (trade_results st') ->
           win_rate_pct (metrics res) == 0).
Proof.
  unfold run_backtest.
  destruct (length ohlcv <? ma_long + 5)%nat; [discriminate|].
  destruct (simulation_window ohlcv ma_short ma_long) as [rows|e];
    simpl; [|discriminate].
  destruct (simulate rows initial_capital tp sl) as [st|e] eqn:S;
    simpl; [|discriminate].
  destruct (close_open_position st rows) as [st'|e] eqn:C; simpl; [|discriminate].
  intro R. destruct (report_fields _ _ _ _ _ R) as (_ & _ & Hn & Hw).
  rewrite Hw. split; [apply round2_0_100, win_rate_range|].
  exists rows, st, st'. split; [reflexivity|]. split; [exact S|].
  split; [exact C|]. split; [exact Hn|]. split; [reflexivity|].
  intro F.
  assert (Z0 : win_rate (trade_results st') == 0).
  { unfold win_rate. destruct (trade_results st') as [|t r] eqn:E; [reflexivity|].
    rewrite <- E in *. clear E.
    rewrite (no_wins _ F). unfold nat_Q, Qdiv. simpl. ring. }
  assert (B : 0 <= win_rate (trade_results st') <= 0) by lra.
  unfold round2.
  destruct (round_half_even_bounds (win_rate (trade_results st') * 100) 0)
    as [Lo Up].
  assert (Hz : round_half_even (win_rate (trade_results st') * 100) = 0%Z).
  { assert ((0 <= round_half_even (win_rate (trade_results st') * 100))%Z)
      by (apply Lo; change (inject_Z 0) with 0; lra).
    assert ((round_half_even (win_rate (trade_results st') * 100) <= 0)%Z)
      by (apply Up; change (inject_Z 0) with 0; lra).
    lia. }
  rewrite Hz. reflexivity.
Qed.

(* ------------------------------------------------------------------ *)
(** ** The range of the RSI *)
(* ------------------------------------------------------------------ *)

Lemma iloc_last_cons {A} (a : A) (l : list A) :
  l <> [] -> iloc_last (a :: l) = iloc_last l.
Proof. destruct l; [congruence | reflexivity]. Qed.

Lemma ewm_last alpha mp (xs : list Q) : forall x num den n,
  iloc_last (ewm_adjust_from alpha num den n mp (xs ++ [x]))
  = Ok (if (S (n + length xs) <? mp)%nat then NaN
        else Fin (ewm_num alpha num (xs ++ [x]) / ewm_den alpha den (xs ++ [x]))).
Proof.
  induction xs as [|y r IH]; intros x num den n.
  - simpl. rewrite Nat.add_0_r. reflexivity.
  - change ((y :: r) ++ [x]) with (y :: (r ++ [x])).
    cbn [ewm_adjust_from]. rewrite iloc_last_cons.
    + rewrite IH. simpl length. rewrite <- plus_n_Sm. reflexivity.
    + intro E. apply (f_equal (@length pyfloat)) in E.
      rewrite length_ewm_adjust_from, length_app in E. simpl in E. lia.
Qed.

Lemma ewm_num_nonneg alpha (xs : list Q) : forall num,
  0 <= 1 - alpha -> 0 <= num -> Forall (fun x => 0 <= x) xs ->
  0 <= ewm_num alpha num xs.
Proof.
  induction xs as [|x r IH]; intros num Ha Hn H; [exact Hn|].
  inversion H; subst. apply IH; [exact Ha | nra | assumption].
Qed.

Lemma ewm_den_ge_1 alpha (xs : list Q) : forall den,
  0 <= 1 - alpha -> 0 <= den -> xs <> [] -> 1 <= ewm_den alpha den xs.
Proof.
  induction xs as [|x r IH]; intros den Ha Hd Hne; [congruence|].
  destruct r as [|y r'].
  - unfold ewm_den; simpl. nra.
  - apply IH; [exact Ha | nra | discriminate].
Qed.

Lemma ewm_num_zero alpha (xs : list Q) : forall num,
  0 < 1 - alpha -> 0 <= num -> Forall (fun x => 0 <= x) xs ->
  (ewm_num alpha num xs == 0 <-> num == 0 /\ Forall (fun x => x == 0) xs).
Proof.
  induction xs as [|x r IH]; intros num Ha Hn H.
  - simpl. split; [intro E; split; [exact E | constructor] | tauto].
  - inversion H as [|? ? Hx Hr]; subst.
    change (ewm_num alpha num (x :: r))
      with (ewm_num alpha (x + (1 - alpha) * num) r).
    rewrite IH by (try assumption; nra). split.
    + intros [E F]. split; [nra|]. constructor; [nra | exact F].
    + intros [E F]. inversion F; subst. split; [nra | assumption].
Qed.

Lemma length_diff (xs : list Q) : length (diff xs) = (length xs - 1)%nat.
Proof.
  induction xs as [|x r IH]; [reflexivity|].
  destruct r as [|y r']; [reflexivity|].
  change (diff (x :: y :: r')) with ((y - x) :: diff (y :: r')).
  simpl length in *. rewrite IH. lia.
Qed.

Lemma clip_lower0_nonneg (x : Q) : 0 <= clip_lower0 x.
Proof.
  unfold clip_lower0. destruct (Qltb x 0) eqn:E; [lra|].
  destruct (Qlt_le_dec x 0) as [H|H]; [|exact H].
  apply Qltb_iff in H. congruence.
Qed.

Lemma clip_loss_zero (d : Q) : clip_lower0 (- d) == 0 <-> 0 <= d.
Proof.
  unfold clip_lower0. destruct (Qltb (- d) 0) eqn:E.
  - apply Qltb_iff in E. split; intro; lra.
  - assert (H : 0 <= - d).
    { destruct (Qlt_le_dec (- d) 0) as [H|H]; [|exact H].
      apply Qltb_iff in H. congruence. }
    split; intro; lra.
Qed.

(** With at least 15 closes, [_calc_rsi] returns
    100 - 100 / (1 + g / l') for the last average gain [g] and the last
    average loss [l] after its 0 has been replaced; both averages are
    not negative, and [l] is 0 exactly when no close is below the one
    before it. *)
Lemma calc_rsi_value (series : list Q) :
  (15 <= length series)%nat ->
  exists g l,
    0 <= g /\ 0 <= l
    /\ (l == 0 <-> Forall (fun d => 0 <= d) (diff series))
    /\ _calc_rsi series 14
       = Ok (rsi_of_rs (pf_div (Fin g) (pf_replace0 (Fin l)))).
Proof.
  intro Hlen.
  assert (Hd : length (diff series) = (length series - 1)%nat)
    by apply length_diff.
  destruct (exists_last (l := diff series)) as (ds & d & Ed).
  { intro E. rewrite E in Hd. simpl in Hd. lia. }
  assert (Hds : (13 <= length ds)%nat).
  { rewrite Ed, length_app in Hd. simpl in Hd. lia. }
  set (alpha := 1 / (1 + (nat_Q 14 - 1))).
  assert (Ha : 0 < 1 - alpha) by (vm_compute; reflexivity).
  set (gains := map clip_lower0 (diff series)).
  set (losses := map (fun x => clip_lower0 (- x)) (diff series)).
  assert (Fg : Forall (fun x => 0 <= x) gains).
  { apply Forall_forall. intros x Hx. apply in_map_iff in Hx.
    destruct Hx as (y & <- & _). apply clip_lower0_nonneg. }
  assert (Fl : Forall (fun x => 0 <= x) losses).
  { apply Forall_forall. intros x Hx. apply in_map_iff in Hx.
    destruct Hx as (y & <- & _). apply clip_lower0_nonneg. }
  assert (Ng : gains <> []) by (unfold gains; rewrite Ed, map_app; intro E;
                                apply app_eq_nil in E; destruct E; discriminate).
  assert (Nl : losses <> []) by (unfold losses; rewrite Ed, map_app; intro E;
                                 apply app_eq_nil in E; destruct E; discriminate).
  set (g := ewm_num alpha 0 gains / ewm_den alpha 0 gains).
  set (l := ewm_num alpha 0 losses / ewm_den alpha 0 losses).
  assert (Gn : 0 <= ewm_num alpha 0 gains)
    by (apply ewm_num_nonneg; [lra | lra | exact Fg]).
  assert (Ln : 0 <= ewm_num alpha 0 losses)
    by (apply ewm_num_nonneg; [lra | lra | exact Fl]).
  assert (Gd : 1 <= ewm_den alpha 0 gains)
    by (apply ewm_den_ge_1; [lra | lra | exact Ng]).
  assert (Ld : 1 <= ewm_den alpha 0 losses)
    by (apply ewm_den_ge_1; [lra | lra | exact Nl]).
  assert (Quot : forall n dn, 0 <= n -> 1 <= dn ->
            0 <= n / dn /\ (n / dn == 0 <-> n == 0)).
  { intros n dn Hn Hdn.
    assert (Hi : 0 < / dn) by (apply Qinv_lt_0_compat; lra).
    unfold Qdiv. split; [nra|]. split; intro E; nra. }
  destruct (Quot _ _ Gn Gd) as [G0 _].
  destruct (Quot _ _ Ln Ld) as [L0 Lz].
  exists g, l. split; [exact G0|]. split; [exact L0|]. split.
  - unfold l. rewrite Lz.
    rewrite (ewm_num_zero alpha losses 0 Ha ltac:(lra) Fl).
    split.
    + intros [_ F]. apply Forall_forall. intros x Hx.
      apply clip_loss_zero. rewrite Forall_forall in F. apply F.
      unfold losses. apply in_map_iff. exists x. split; [reflexivity | exact Hx].
    + intro F. split; [reflexivity|]. apply Forall_forall. intros y Hy.
      unfold losses in Hy. apply in_map_iff in Hy. destruct Hy as (x & <- & Hx).
      apply clip_loss_zero. rewrite Forall_forall in F. apply F, Hx.
  - assert (Lg : iloc_last (avg_gain_of series 14) = Ok (Fin g)).
    { unfold avg_gain_of, ewm_mean_com. fold alpha. fold gains.
      unfold g. unfold gains at 1 2 3. rewrite Ed, map_app. simpl map at 2.
      rewrite ewm_last, length_map.
      replace (S (0 + length ds) <? 14)%nat with false
        by (symmetry; apply Nat.ltb_ge; lia).
      reflexivity. }
    assert (Ll : iloc_last (avg_loss_of series 14) = Ok (Fin l)).
    { unfold avg_loss_of, ewm_mean_com. fold alpha. fold losses.
      unfold l. unfold losses at 1 2 3. rewrite Ed, map_app. simpl map at 2.
      rewrite ewm_last, length_map.
      replace (S (0 + length ds) <? 14)%nat with false
        by (symmetry; apply Nat.ltb_ge; lia).
      reflexivity. }
    destruct (iloc_last_inv _ _ Lg) as (gfront & Eg).
    destruct (iloc_last_inv _ _ Ll) as (lfront & El).
    assert (Hgl : length gfront = length lfront).
    { assert (H : length (avg_gain_of series 14) = length (avg_loss_of series 14)).
      { unfold avg_gain_of, avg_loss_of, ewm_mean_com.
        rewrite !length_ewm_adjust_from, !length_map. reflexivity. }
      rewrite Eg, El, !length_app in H. simpl in H. lia. }
    unfold _calc_rsi.
    replace (length series <? 14 + 1)%nat with false
      by (symmetry; apply Nat.ltb_ge; lia).
    unfold rsi_series. rewrite Eg, El, map_app.
    change (map pf_replace0 [Fin l]) with [pf_replace0 (Fin l)].
    rewrite zip_with_snoc by (rewrite length_map; exact Hgl).
    rewrite map_app.
    change (map rsi_of_rs [pf_div (Fin g) (pf_replace0 (Fin l))])
      with [rsi_of_rs (pf_div (Fin g) (pf_replace0 (Fin l)))].
    rewrite iloc_last_app.
    destruct (map rsi_of_rs (zip_with pf_div gfront (map pf_replace0 lfront)) ++ _)
      eqn:E; [|reflexivity].
    apply app_eq_nil in E. destruct E; discriminate.
Qed.

Lemma rsi_of_rs_cases (g l : Q) :
  0 <= g -> 0 <= l ->
  (l == 0 /\ rsi_of_rs (pf_div (Fin g) (pf_replace0 (Fin l))) = NaN)
  \/ (~ l == 0
      /\ exists q, rsi_of_rs (pf_div (Fin g) (pf_replace0 (Fin l))) = Fin q
                   /\ 0 <= q <= 100).
Proof.
  intros Hg Hl. unfold pf_replace0.
  destruct (Qeq_bool l 0) eqn:E.
  - apply Qeq_bool_eq in E. left. split; [exact E | reflexivity].
  - apply Qeq_bool_neq in E. right. split; [exact E|].
    unfold pf_div, np_div.
    replace (Qeq_bool l 0) with false
      by (symmetry; destruct (Qeq_bool l 0) eqn:E'; [|reflexivity];
          apply Qeq_bool_eq in E'; contradiction).
    assert (Hi : 0 < / l) by (apply Qinv_lt_0_compat; lra).
    assert (Hr : 0 <= g / l) by (unfold Qdiv; nra).
    unfold rsi_of_rs, pf_add, pf_div, np_div.
    destruct (Qeq_bool (1 + g / l) 0) eqn:E1.
    { apply Qeq_bool_eq in E1. exfalso. lra. }
    unfold pf_sub, pf_opp, pf_add. eexists. split; [reflexivity|].
    assert (Hj : 0 < / (1 + g / l)) by (apply Qinv_lt_0_compat; lra).
    assert (Hk : (1 + g / l) * / (1 + g / l) == 1)
      by (apply Qmult_inv_r; lra).
    unfold Qdiv at 1 3. set (r := g / l) in *. set (j := / (1 + r)) in *.
    split; nra.
Qed.

Lemma round2_50 : round2 50 == 50.
Proof. vm_compute. reflexivity. Qed.

(** The rsi [compute_indicators] returns is NaN or a number between 0
    and 100; it is never infinite. *)
Theorem rsi_in_range (ohlcv : list Bar) :
  rsi (compute_indicators ohlcv) = NaN
  \/ exists q, rsi (compute_indicators ohlcv) = Fin q /\ 0 <= q <= 100.
Proof.
  destruct (_to_dataframe ohlcv) as [df|e] eqn:D.
  - destruct (compute_indicators_try_ok ohlcv df D) as (r & m & a & b & Hr & ->).
    cbn [rsi].
    destruct (Nat.lt_ge_cases (length df) 15) as [Hs|Hs].
    + unfold _calc_rsi in Hr.
      replace (length df <? 14 + 1)%nat with true in Hr
        by (symmetry; apply Nat.ltb_lt; lia).
      inversion Hr; subst. right. eexists. split; [reflexivity|].
      apply round2_0_100. lra.
    + destruct (calc_rsi_value df Hs) as (g & l & Hg & Hl & _ & Hv).
      assert (Er : r = rsi_of_rs (pf_div (Fin g) (pf_replace0 (Fin l))))
        by congruence.
      destruct (rsi_of_rs_cases g l Hg Hl) as [[_ E]|[_ (q & E & Hq)]];
        rewrite Er, E.
      * left. reflexivity.
      * right. eexists. split; [reflexivity|]. apply round2_0_100, Hq.
  - right. exists 50.
    rewrite (compute_indicators_raise ohlcv e)
      by (unfold compute_indicators_try; rewrite D; reflexivity).
    split; [reflexivity | lra].
Qed.

(** The rsi is NaN exactly on the histories with at least 15 numeric
    closes in which no close is below the one before it. *)
Theorem rsi_nan_iff (ohlcv : list Bar) (df : list Q) :
  _to_dataframe ohlcv = Ok df ->
  (rsi (compute_indicators ohlcv) = NaN
   <-> (15 <= length df)%nat /\ Forall (fun d => 0 <= d) (diff df)).
Proof.
  intro D.
  destruct (compute_indicators_try_ok ohlcv df D) as (r & m & a & b & Hr & ->).
  cbn [rsi].
  destruct (Nat.lt_ge_cases (length df) 15) as [Hs|Hs].
  - unfold _calc_rsi in Hr.
    replace (length df <? 14 + 1)%nat with true in Hr
      by (symmetry; apply Nat.ltb_lt; lia).
    inversion Hr; subst. split; [discriminate | intros [H _]; lia].
  - destruct (calc_rsi_value df Hs) as (g & l & Hg & Hl & Hz & Hv).
    assert (Er : r = rsi_of_rs (pf_div (Fin g) (pf_replace0 (Fin l))))
      by congruence.
    destruct (rsi_of_rs_cases g l Hg Hl) as [[Z0 E]|[N0 (q & E & Hq)]];
      rewrite Er, E.
    + split; [intros _; split; [exact Hs | apply Hz, Z0] | reflexivity].
    + split; [discriminate|]. intros [_ F]. apply Hz in F. contradiction.
Qed.

(* ------------------------------------------------------------------ *)
(** ** How much history each indicator needs *)
(* ------------------------------------------------------------------ *)

Lemma round_half_even_comp (x y : Q) :
  x == y -> round_half_even x = round_half_even y.
Proof.
  intro E. unfold round_half_even. rewrite (Qfloor_comp x y E).
  assert (C : Qcompare (x - inject_Z (Qfloor y)) (1 # 2)
              = Qcompare (y - inject_Z (Qfloor y)) (1 # 2))
    by (rewrite E; reflexivity).
  rewrite C. reflexivity.
Qed.

Lemma round2_comp (x y : Q) : x == y -> round2 x = round2 y.
Proof.
  intro E. unfold round2.
  rewrite (round_half_even_comp (x * 100) (y * 100)) by (rewrite E; reflexivity).
  reflexivity.
Qed.

(** [_calc_ma] on a series that is long enough: the mean of its last
    [window] values. *)
Lemma calc_ma_last_window (series : list Q) (window : nat) :
  (1 <= window <= length series)%nat ->
  _calc_ma series window
  = Ok (Some (Fin (mean (skipn (length series - window) series)))).
Proof.
  intros [Hw Hl]. unfold _calc_ma.
  replace (length series <? window)%nat with false
    by (symmetry; apply Nat.ltb_ge; lia).
  destruct (length series) as [|n] eqn:En; [lia|].
  rewrite (rolling_mean_snoc window n series En), iloc_last_app. simpl bind.
  unfold rolling_mean_at, window_at, mean.
  replace ((window =? 0) || (n + 1 <? window))%nat with false
    by (symmetry; apply orb_false_iff; split;
        [apply Nat.eqb_neq | apply Nat.ltb_ge]; lia).
  replace (n + 1 - window)%nat with (S n - window)%nat by lia.
  assert (L : length (skipn (S n - window) series) = window)
    by (rewrite length_skipn; lia).
  rewrite firstn_all2 by lia. rewrite L. reflexivity.
Qed.

Lemma indicators_by_length (ohlcv : list Bar) (df : list Q) :
  _to_dataframe ohlcv = Ok df ->
  ((length df < 15)%nat ->
     exists q, rsi (compute_indicators ohlcv) = Fin q /\ q == 50)
  /\ ((length df < 26)%nat -> macd (compute_indicators ohlcv) = neutral)
  /\ ((length df < 20)%nat -> ma20 (compute_indicators ohlcv) = None)
  /\ ((20 <= length df)%nat ->
        ma20 (compute_indicators ohlcv)
        = Some (Fin (round2 (mean (skipn (length df - 20) df)))))
  /\ ((length df < 60)%nat -> ma60 (compute_indicators ohlcv) = None)
  /\ ((60 <= length df)%nat ->
        ma60 (compute_indicators ohlcv)
        = Some (Fin (round2 (mean (skipn (length df - 60) df))))).
Proof.
  intro D. unfold compute_indicators, compute_indicators_try. rewrite D. simpl.
  destruct (calc_rsi_total df 14) as [r Hr].
  destruct (calc_macd_total df) as [m Hm].
  destruct (calc_ma_total df 20) as [a Ha]; [lia|].
  destruct (calc_ma_total df 60) as [b Hb]; [lia|].
  rewrite Hr. simpl. rewrite Hm. simpl. rewrite Ha. simpl. rewrite Hb.
  cbn [bind rsi macd ma20 ma60].
  split; [|split; [|split; [|split; [|split]]]].
  - intro H. unfold _calc_rsi in Hr.
    replace (length df <? 14 + 1)%nat with true in Hr
      by (symmetry; apply Nat.ltb_lt; lia).
    inversion Hr; subst. eexists. split; [reflexivity | apply round2_50].
  - intro H. unfold _calc_macd_signal in Hm.
    replace (length df <? 26)%nat with true in Hm
      by (symmetry; apply Nat.ltb_lt; lia).
    congruence.
  - intro H. unfold _calc_ma in Ha.
    replace (length df <? 20)%nat with true in Ha
      by (symmetry; apply Nat.ltb_lt; lia).
    inversion Ha; subst. reflexivity.
  - intro H. rewrite (calc_ma_last_window df 20) in Ha by lia.
    inversion Ha; subst. reflexivity.
  - intro H. unfold _calc_ma in Hb.
    replace (length df <? 60)%nat with true in Hb
      by (symmetry; apply Nat.ltb_lt; lia).
    inversion Hb; subst. reflexivity.
  - intro H. rewrite (calc_ma_last_window df 60) in Hb by lia.
    inversion Hb; subst. reflexivity.
Qed.

(** What [compute_indicators] returns on a frame with a "close" column,
    by the number of numeric closes: below 15 the rsi is 50, below 26
    the macd is neutral, and ma20 (ma60) is None exactly below 20 (60)
    closes and otherwise the mean of the last 20 (60) closes, rounded
    to two decimals. *)
Theorem indicator_thresholds (ohlcv : list Bar) (df : list Q) :
  _to_dataframe ohlcv = Ok df ->
  ((length df < 15)%nat ->
     exists q, rsi (compute_indicators ohlcv) = Fin q /\ q == 50)
  /\ ((length df < 26)%nat -> macd (compute_indicators ohlcv) = neutral)
  /\ ((length df < 20)%nat -> ma20 (compute_indicators ohlcv) = None)
  /\ ((20 <= length df)%nat ->
        ma20 (compute_indicators ohlcv)
        = Some (Fin (round2 (mean (skipn (length df - 20) df)))))
  /\ ((length df < 60)%nat -> ma60 (compute_indicators ohlcv) = None)
  /\ ((60 <= length df)%nat ->
        ma60 (compute_indicators ohlcv)
        = Some (Fin (round2 (mean (skipn (length df - 60) df))))).
Proof. exact (indicators_by_length ohlcv df). Qed.

Lemma has_column_false {A} (col : Bar -> cell A) (ohlcv : list Bar) :
  has_column col ohlcv = false <-> Forall (fun b => col b = Absent) ohlcv.
Proof.
  unfold has_column. induction ohlcv as [|b r IH]; simpl.
  - split; [constructor | reflexivity].
  - rewrite orb_false_iff, IH. split.
    + intros [H F]. constructor; [|exact F]. destruct (col b); try discriminate.
      reflexivity.
    + intro F. inversion F as [|? ? Hb Hr]; subst. rewrite Hb.
      split; [reflexivity | exact Hr].
Qed.

(** The [except] branch of [compute_indicators] is taken exactly when
    no dict of the input has a "close" key (the empty list included);
    the exception is then the KeyError of [df["close"]].  On every
    other input the dict is the one built in the [try]. *)
Theorem indicators_except_iff (ohlcv : list Bar) :
  ((exists e, compute_indicators_try ohlcv = Raise e)
   <-> Forall (fun b => close b = Absent) ohlcv)
  /\ (forall e, compute_indicators_try ohlcv = Raise e -> e = KeyError).
Proof.
  destruct (_to_dataframe ohlcv) as [df|e] eqn:D.
  - assert (Hc : has_column close ohlcv = true).
    { unfold _to_dataframe in D. destruct (has_column close ohlcv);
        [reflexivity | discriminate]. }
    assert (Ok_ : exists r, compute_indicators_try ohlcv = Ok r).
    { unfold compute_indicators_try. rewrite D. simpl.
      destruct (calc_rsi_total df 14) as [r ->].
      destruct (calc_macd_total df) as [m ->].
      destruct (calc_ma_total df 20) as [a ->]; [lia|].
      destruct (calc_ma_total df 60) as [b ->]; [lia|].
      simpl. eauto. }
    destruct Ok_ as [r Hr]. split.
    + split; [intros [e H]; congruence|].
      intro F. apply has_column_false in F. congruence.
    + intros e H. congruence.
  - assert (Hc : has_column close ohlcv = false /\ e = KeyError).
    { unfold _to_dataframe in D. destruct (has_column close ohlcv);
        [discriminate|]. inversion D; auto. }
    destruct Hc as [Hc ->].
    assert (R : compute_indicators_try ohlcv = Raise KeyError)
      by (unfold compute_indicators_try; rewrite D; reflexivity).
    split.
    + split; [intros _; apply has_column_false, Hc | intros _; eauto].
    + intros e H. congruence.
Qed.

(* ------------------------------------------------------------------ *)
(** ** Indicators of a flat history *)
(* ------------------------------------------------------------------ *)

Lemma ewm_recursive_const (c alpha : Q) (xs : list Q) : forall prev,
  prev == c -> Forall (fun x => x == c) xs ->
  Forall (fun x => x == c) (ewm_recursive alpha prev xs).
Proof.
  induction xs as [|x r IH]; intros prev Hp H; simpl; [constructor|].
  inversion H as [|? ? Hx Hr]; subst.
  assert (E : (1 - alpha) * prev + alpha * x == c)
    by (rewrite Hp, Hx; ring).
  constructor; [exact E|]. apply IH; assumption.
Qed.

Lemma ewm_mean_span_const (c span : Q) (xs : list Q) :
  Forall (fun x => x == c) xs -> Forall (fun x => x == c) (ewm_mean_span span xs).
Proof.
  intro H. destruct xs as [|x r]; [constructor|].
  inversion H as [|? ? Hx Hr]; subst. simpl.
  constructor; [exact Hx|]. apply ewm_recursive_const; assumption.
Qed.

Lemma zip_minus_const (c : Q) (xs : list Q) : forall ys,
  Forall (fun x => x == c) xs -> Forall (fun y => y == c) ys ->
  Forall (fun d => d == 0) (zip_with Qminus xs ys).
Proof.
  induction xs as [|x r IH]; intros [|y s] Hx Hy; simpl; try constructor.
  - inversion Hx; inversion Hy; subst. lra.
  - inversion Hx; inversion Hy; subst. apply IH; assumption.
Qed.

Lemma iloc_last_Forall {A} (P : A -> Prop) (xs : list A) (x : A) :
  Forall P xs -> iloc_last xs = Ok x -> P x.
Proof.
  intros F L. destruct (iloc_last_inv _ _ L) as (front & ->).
  rewrite Forall_forall in F. apply F. apply in_or_app. right. left.
  reflexivity.
Qed.

Lemma diff_const (c : Q) (xs : list Q) :
  Forall (fun x => x == c) xs -> Forall (fun d => 0 <= d) (diff xs).
Proof.
  induction xs as [|x r IH]; intro H; [constructor|].
  destruct r as [|y r']; [constructor|].
  change (diff (x :: y :: r')) with ((y - x) :: diff (y :: r')).
  inversion H as [|? ? Hx Hr]; subst. inversion Hr as [|? ? Hy _]; subst.
  constructor; [lra | apply IH, Hr].
Qed.

Lemma mean_const (c : Q) (xs : list Q) :
  xs <> [] -> Forall (fun x => x == c) xs -> mean xs == c.
Proof.
  intros Hne H. unfold mean. rewrite (Qsum_const c xs H).
  assert (P : 0 < nat_Q (length xs))
    by (apply nat_Q_pos; destruct xs; [congruence | simpl; lia]).
  fold (nat_Q (length xs)). field. lra.
Qed.

(** On a history whose numeric closes all have the same value [c] the
    macd is neutral whatever the length, the rsi is NaN from 15 closes
    on, and ma20 (ma60) is [c] rounded from 20 (60) closes on. *)
Theorem flat_history_indicators (ohlcv : list Bar) (df : list Q) (c : Q) :
  _to_dataframe ohlcv = Ok df ->
  Forall (fun x => x == c) df ->
  macd (compute_indicators ohlcv) = neutral
  /\ ((15 <= length df)%nat -> rsi (compute_indicators ohlcv) = NaN)
  /\ ((20 <= length df)%nat ->
        ma20 (compute_indicators ohlcv) = Some (Fin (round2 c)))
  /\ ((60 <= length df)%nat ->
        ma60 (compute_indicators ohlcv) = Some (Fin (round2 c))).
Proof.
  intros D F.
  unfold compute_indicators, compute_indicators_try. rewrite D. simpl.
  destruct (calc_rsi_total df 14) as [r Hr].
  destruct (calc_macd_total df) as [m Hm].
  destruct (calc_ma_total df 20) as [a Ha]; [lia|].
  destruct (calc_ma_total df 60) as [b Hb]; [lia|].
  rewrite Hr. simpl. rewrite Hm. simpl. rewrite Ha. simpl. rewrite Hb.
  cbn [bind rsi macd ma20 ma60].
  assert (Hma : forall w, (1 <= w <= length df)%nat ->
            round2 (mean (skipn (length df - w) df)) = round2 c).
  { intros w Hw. apply round2_comp, mean_const.
    - intro E. apply (f_equal (@length Q)) in E. rewrite length_skipn in E.
      simpl in E. lia.
    - apply Forall_forall. intros x Hx. rewrite Forall_forall in F.
      apply F. rewrite <- (firstn_skipn (length df - w) df).
      apply in_or_app. right. exact Hx. }
  split; [|split; [|split]].
  - unfold _calc_macd_signal in Hm.
    destruct (length df <? 26)%nat; [congruence|].
    set (macd_line := zip_with Qminus (ewm_mean_span 12 df) (ewm_mean_span 26 df)) in *.
    assert (Fm : Forall (fun d => d == 0) macd_line)
      by (apply (zip_minus_const c); apply ewm_mean_span_const; exact F).
    assert (Fs : Forall (fun d => d == 0) (ewm_mean_span 9 macd_line))
      by (apply ewm_mean_span_const; exact Fm).
    destruct (iloc_last macd_line) as [ml|e] eqn:Lm; simpl in Hm; [|discriminate].
    destruct (iloc_last (ewm_mean_span 9 macd_line)) as [sg|e] eqn:Ls;
      simpl in Hm; [|discriminate].
    pose proof (iloc_last_Forall _ _ _ Fm Lm) as Em.
    pose proof (iloc_last_Forall _ _ _ Fs Ls) as Es.
    simpl in Em, Es.
    destruct (Qltb sg ml) eqn:B1.
    { apply Qltb_iff in B1. exfalso. lra. }
    destruct (Qltb ml sg) eqn:B2.
    { apply Qltb_iff in B2. exfalso. lra. }
    congruence.
  - intro H. destruct (calc_rsi_value df H) as (g & l & Hg & Hl & Hz & Hv).
    assert (Er : r = rsi_of_rs (pf_div (Fin g) (pf_replace0 (Fin l))))
      by congruence.
    assert (Z0 : l == 0) by (apply Hz, (diff_const c), F).
    destruct (rsi_of_rs_cases g l Hg Hl) as [[_ E]|[N0 _]];
      [|contradiction].
    rewrite Er, E. reflexivity.
  - intro H. rewrite (calc_ma_last_window df 20) in Ha by lia.
    inversion Ha; subst. simpl. rewrite Hma by lia. reflexivity.
  - intro H. rewrite (calc_ma_last_window df 60) in Hb by lia.
    inversion Hb; subst. simpl. rewrite Hma by lia. reflexivity.
Qed.

(* ------------------------------------------------------------------ *)
(** ** Bars without a close; no short selling *)
(* ------------------------------------------------------------------ *)

Lemma frame_skips_null_closes (ohlcv : list Bar) :
  flat_map (fun b => match cell_value (close b) with
                     | Some q => [(date b, q)]
                     | None => []
                     end) (filter numeric_close ohlcv)
  = flat_map (fun b => match cell_value (close b) with
                       | Some q => [(date b, q)]
                       | None => []
                       end) ohlcv.
Proof.
  induction ohlcv as [|b r IH]; [reflexivity|].
  destruct b as [d [| |q]]; simpl; rewrite IH; reflexivity.
Qed.

(** Bars whose close is missing, null or unparseable play no part in
    the frame the loop walks: as long as the bars with a numeric close
    still make up a frame with both columns, dropping the others from
    the input gives the same rows.  The moving averages therefore run
    over consecutive numeric closes, across the gaps. *)
Theorem null_closes_are_skipped (ohlcv : list Bar) (ma_short ma_long : nat) :
  has_column date (filter numeric_close ohlcv) = true ->
  simulation_window (filter numeric_close ohlcv) ma_short ma_long
  = simulation_window ohlcv ma_short ma_long.
Proof.
  intro Hd. unfold simulation_window.
  assert (Sub : forall {A} (col : Bar -> cell A),
             has_column col (filter numeric_close ohlcv) = true ->
             has_column col ohlcv = true).
  { intros A col. unfold has_column. rewrite !existsb_exists.
    intros (b & Hin & Hb). exists b. split; [|exact Hb].
    apply filter_In in Hin. tauto. }
  assert (Hc : has_column close (filter numeric_close ohlcv) = true).
  { unfold has_column in *. rewrite existsb_exists in *.
    destruct Hd as (b & Hin & _). exists b. split; [exact Hin|].
    apply filter_In in Hin. destruct Hin as [_ Hn].
    unfold numeric_close in Hn. destruct (close b); try discriminate.
    reflexivity. }
  rewrite Hd, Hc, (Sub _ date Hd), (Sub _ close Hc). simpl andb. cbv iota.
  rewrite frame_skips_null_closes. reflexivity.
Qed.

Lemma round2_nonneg (x : Q) : 0 <= x -> 0 <= round2 x.
Proof.
  intro H. unfold round2.
  destruct (round_half_even_bounds (x * 100) 0) as [Lo _].
  assert (L : (0 <= round_half_even (x * 100))%Z)
    by (apply Lo; change (inject_Z 0) with 0; lra).
  set (z := round_half_even (x * 100)) in *.
  rewrite Zle_Qle in L. change (inject_Z 0) with 0 in L.
  assert (E : inject_Z z / 100 == inject_Z z * (1 # 100)) by (field; lra).
  rewrite E. lra.
Qed.

Lemma step_never_short tp sl st row st' :
  step tp sl st row = Ok st' ->
  0 < row_close row ->
  0 < equity st /\ 0 <= position st ->
  0 < equity st' /\ 0 <= position st'
  /\ exists p, equity_curve st' = equity_curve st ++ [p] /\ 0 <= point_equity p.
Proof.
  intros S Hp [He Hq].
  destruct (step_records _ _ _ _ _ S) as (mid & T & -> & Hc).
  assert (M : 0 < equity mid /\ 0 <= position mid).
  { unfold trade in T. destruct (golden_cross st row).
    - unfold py_div in T. destruct (Qeq_bool (row_close row) 0); [discriminate|].
      simpl in T. inversion T; subst; simpl. split; [exact He|].
      assert (Hi : 0 < / row_close row) by (apply Qinv_lt_0_compat; exact Hp).
      unfold Qdiv. nra.
    - destruct (Qltb 0 (position st)) eqn:P; [|inversion T; subst; auto].
      apply Qltb_iff in P.
      destruct (py_div (row_close row - entry_price st) (entry_price st))
        as [change|e]; simpl in T; [|discriminate].
      destruct (should_sell tp sl st row change); inversion T; subst; simpl;
        [|auto]. split; [nra | lra]. }
  destruct M as [Me Mq]. cbn [record_point equity position equity_curve].
  split; [exact Me|]. split; [exact Mq|].
  eexists. split; [rewrite Hc; reflexivity|]. cbn [point_equity].
  assert (C : 0 <= current_equity mid (row_close row)).
  { unfold current_equity. destruct (Qltb 0 (position mid)); [nra | lra]. }
  apply round2_nonneg, C.
Qed.

Lemma walk_never_short tp sl rows : forall st st',
  walk tp sl st rows = Ok st' ->
  Forall (fun row => 0 < row_close row) rows ->
  0 < equity st -> 0 <= position st ->
  Forall (fun p => 0 <= point_equity p) (equity_curve st) ->
  0 < equity st' /\ 0 <= position st'
  /\ Forall (fun p => 0 <= point_equity p) (equity_curve st').
Proof.
  induction rows as [|row rest IH]; intros st st' W F He Hq Hc; simpl in W.
  - inversion W; subst. auto.
  - inversion F as [|? ? Hp Hr]; subst.
    destruct (step tp sl st row) as [st1|e] eqn:S; simpl in W; [|discriminate].
    destruct (step_never_short _ _ _ _ _ S Hp (conj He Hq))
      as (He1 & Hq1 & p & Ec & Hp0).
    apply (IH _ _ W Hr He1 Hq1). rewrite Ec. apply Forall_app.
    split; [exact Hc | constructor; [exact Hp0 | constructor]].
Qed.

(** With a positive capital and positive closes the loop never goes
    short and never runs out of cash: when it ends the cash is
    positive, the number of shares is not negative, and no point of the
    curve is negative. *)
Theorem never_short (rows : list Row) (initial_capital tp sl : Q) (st : Sim) :
  simulate rows initial_capital tp sl = Ok st ->
  Forall (fun row => 0 < row_close row) rows ->
  0 < initial_capital ->
  0 < equity st /\ 0 <= position st
  /\ Forall (fun p => 0 <= point_equity p) (equity_curve st).
Proof.
  intros S F Hic. unfold simulate in S.
  destruct rows as [|first rest]; [discriminate|].
  simpl iloc_first in S. rewrite (bind_ok _ _ first eq_refl) in S.
  apply (walk_never_short _ _ _ _ _ S F); simpl; [exact Hic | lra | constructor].
Qed.

(* ------------------------------------------------------------------ *)
(** ** More on rounding to two decimals *)
(* ------------------------------------------------------------------ *)

Lemma round_half_even_near (x : Q) :
  x - (1 # 2) <= inject_Z (round_half_even x) <= x + (1 # 2).
Proof.
  unfold round_half_even.
  pose proof (Qfloor_le x) as Hf. pose proof (Qlt_floor x) as Hf1.
  set (f := Qfloor x) in *.
  rewrite inject_Z_plus in Hf1. change (inject_Z 1) with 1 in Hf1.
  destruct (Qcompare (x - inject_Z f) (1 # 2)) eqn:C.
  - apply Qeq_alt in C. destruct (Z.even f).
    + lra.
    + rewrite inject_Z_plus. change (inject_Z 1) with 1. lra.
  - apply Qlt_alt in C. lra.
  - apply Qgt_alt in C. rewrite inject_Z_plus. change (inject_Z 1) with 1. lra.
Qed.

Lemma round_half_even_Z (z : Z) : round_half_even (inject_Z z) = z.
Proof.
  unfold round_half_even. rewrite Qfloor_Z.
  assert (C : Qcompare (inject_Z z - inject_Z z) (1 # 2) = Lt).
  { apply Qlt_alt. generalize (inject_Z z). intro q.
    assert (E : q - q == 0) by ring. rewrite E. reflexivity. }
  rewrite C. reflexivity.
Qed.

Lemma round_half_even_mono (x y : Q) :
  x <= y -> (round_half_even x <= round_half_even y)%Z.
Proof.
  intro H. destruct (Qlt_le_dec x y) as [L|G].
  - pose proof (round_half_even_near x) as [_ Ux].
    pose proof (round_half_even_near y) as [Ly _].
    assert (K : (round_half_even x < round_half_even y + 1)%Z).
    { rewrite Zlt_Qlt, inject_Z_plus. change (inject_Z 1) with 1. lra. }
    lia.
  - rewrite (round_half_even_comp x y) by lra. lia.
Qed.

Lemma round2_scaled (x : Q) :
  round2 x * 100 == inject_Z (round_half_even (x * 100)).
Proof. unfold round2. field. Qed.

Lemma round2_idem (x : Q) : round2 (round2 x) = round2 x.
Proof.
  unfold round2 at 1.
  rewrite (round_half_even_comp _ _ (round2_scaled x)), round_half_even_Z.
  reflexivity.
Qed.

Lemma round2_mono (x y : Q) : x <= y -> round2 x <= round2 y.
Proof.
  intro H. unfold round2.
  assert (M : (round_half_even (x * 100) <= round_half_even (y * 100))%Z)
    by (apply round_half_even_mono; lra).
  rewrite Zle_Qle in M.
  set (a := inject_Z (round_half_even (x * 100))) in *.
  set (b := inject_Z (round_half_even (y * 100))) in *.
  assert (Ea : a / 100 == a * (1 # 100)) by (field; lra).
  assert (Eb : b / 100 == b * (1 # 100)) by (field; lra).
  rewrite Ea, Eb. lra.
Qed.

(* ------------------------------------------------------------------ *)
(** ** The mock history *)
(* ------------------------------------------------------------------ *)

Import DataFetcher.

(** A price of at least one cent that loses at most 3 percent is at
    least one cent after rounding. *)
Lemma cent_floor (price change : Q) :
  1 # 100 <= price -> - (3 # 100) <= change ->
  1 # 100 <= round2 (price * (1 + change)).
Proof.
  intros Hp Hc.
  apply (Qle_trans _ (round2 (97 # 10000))); [vm_compute; discriminate|].
  apply round2_mono. nra.
Qed.

Section Mock.

Variable isoformat : Z -> string.
Variable dr : Draws.
Variable today : Z.
Variable days : nat.
Hypothesis in_range : draws_in_range dr.

Lemma mock_bars_spec : forall n i price,
  1 # 100 <= price ->
  length (mock_bars isoformat dr today days i n price) = n
  /\ map bar_date (mock_bars isoformat dr today days i n price)
     = map (fun j => isoformat (today - Z.of_nat (days - j))) (seq i n)
  /\ chained price (mock_bars isoformat dr today days i n price)
  /\ Forall mock_bar_ok (mock_bars isoformat dr today days i n price).
Proof.
  induction n as [|n IH]; intros i price Hk.
  - simpl. repeat split. constructor.
  - destruct in_range as [_ R]. destruct (R i) as (Hc & Hh & Hl & Hv).
    assert (Hcl : 1 # 100 <= round2 (price * (1 + day_change dr i)))
      by (apply cent_floor; [exact Hk | apply Hc]).
    set (c := round2 (price * (1 + day_change dr i))) in *.
    assert (Hc0 : 0 < c) by lra.
    assert (Hid : round2 c = c) by apply round2_idem.
    destruct (IH (S i) c Hcl) as (L & D & Ch & F).
    cbn [mock_bars]. fold c.
    split; [simpl; rewrite L; reflexivity|].
    split; [simpl; rewrite D; reflexivity|].
    split.
    + simpl. split; [reflexivity|]. exists c. repeat split; assumption.
    + constructor; [|exact F].
      exists (round2 price), (round2 (c * day_high dr i)),
        (round2 (c * day_low dr i)), c, (day_volume dr i).
      cbn. repeat split; try exact Hc0; try (apply Hv).
      * rewrite <- Hid at 2. apply round2_mono. nra.
      * rewrite <- Hid at 1. apply round2_mono. nra.
Qed.

End Mock.

Lemma index_second_last_ok {A} (xs : list A) :
  (2 <= length xs)%nat -> exists x, index_second_last xs = Ok x /\ In x xs.
Proof.
  intro H. unfold index_second_last.
  assert (L : length (rev xs) = length xs) by apply length_rev.
  destruct (rev xs) as [|a [|x r]] eqn:E; simpl in L; try lia.
  exists x. split; [reflexivity|]. apply in_rev. rewrite E. right. left.
  reflexivity.
Qed.

Lemma iloc_last_In {A} (xs : list A) (x : A) : iloc_last xs = Ok x -> In x xs.
Proof.
  intro H. destruct (iloc_last_inv _ _ H) as (front & ->).
  apply in_or_app. right. left. reflexivity.
Qed.

(** The closing statements of both fetchers: they go through when the
    list is not empty and its last closes are positive. *)
Lemma tail_stats (bars : list OhlcvBar) :
  bars <> [] ->
  Forall (fun b => exists c, bar_close b = Some c /\ 0 < c) bars ->
  exists last_bar prev,
    iloc_last bars = Ok last_bar
    /\ (if (1 <? length bars)%nat
        then b <- index_second_last bars ;; Ok (close_of b)
        else Ok (close_of last_bar)) = Ok prev
    /\ 0 < close_of last_bar
    /\ py_div (close_of last_bar - prev) prev
       = Ok ((close_of last_bar - prev) / prev).
Proof.
  intros Hne F. destruct (iloc_last_ok bars Hne) as (lb & Hl).
  rewrite Forall_forall in F.
  assert (Pos : forall b, In b bars -> 0 < close_of b).
  { intros b Hb. destruct (F b Hb) as (c & Hc & Hp). unfold close_of.
    rewrite Hc. exact Hp. }
  assert (Pl : 0 < close_of lb) by (apply Pos, iloc_last_In, Hl).
  assert (exists prev,
            (if (1 <? length bars)%nat
             then b <- index_second_last bars ;; Ok (close_of b)
             else Ok (close_of lb)) = Ok prev /\ 0 < prev) as (prev & Hp & Pp).
  { destruct (1 <? length bars)%nat eqn:E.
    - apply Nat.ltb_lt in E.
      destruct (index_second_last_ok bars ltac:(lia)) as (b & Hb & Hin).
      rewrite Hb. simpl. eauto.
    - eauto. }
  exists lb, prev. split; [exact Hl|]. split; [exact Hp|]. split; [exact Pl|].
  unfold py_div. destruct (Qeq_bool prev 0) eqn:E; [|reflexivity].
  apply Qeq_bool_eq in E. exfalso. lra.
Qed.

Lemma mock_returns (isoformat : Z -> string) (dr : Draws) (today : Z) (days : nat) :
  draws_in_range dr -> (1 <= days)%nat ->
  exists m,
    _mock_market_data isoformat dr today days = Ok m
    /\ ohlcv m = mock_bars isoformat dr today days 0 days (base_price dr)
    /\ exists last_bar, iloc_last (ohlcv m) = Ok last_bar
         /\ latest_price m = close_of last_bar /\ 0 < latest_price m.
Proof.
  intros R Hd.
  assert (B : 1 # 100 <= base_price dr) by (destruct R as [[H _] _]; lra).
  destruct (mock_bars_spec isoformat dr today days R days 0%nat (base_price dr)
              B) as (L & _ & _ & F).
  set (bars := mock_bars isoformat dr today days 0 days (base_price dr)) in *.
  assert (Hne : bars <> []) by (intro E; rewrite E in L; simpl in L; lia).
  assert (F' : Forall (fun b => exists c, bar_close b = Some c /\ 0 < c) bars).
  { eapply Forall_impl; [|exact F]. intros b (o & h & l & c & v & H).
    exists c. tauto. }
  destruct (tail_stats bars Hne F') as (lb & prev & Hl & Hp & Pl & Hdv).
  unfold _mock_market_data. fold bars. rewrite Hl. cbn [bind].
  rewrite Hp. cbn [bind]. rewrite Hdv. cbn [bind].
  eexists. split; [reflexivity|]. cbn [ohlcv latest_price].
  split; [reflexivity|]. exists lb. split; [exact Hl|].
  split; [reflexivity | exact Pl].
Qed.

(** For draws inside the ranges of the calls and a number of days that
    does not lead before the first day of the calendar,
    [_mock_market_data] returns: one bar per day, dated from [days]
    days before today up to yesterday, every close positive, and the
    latest price the last close.  For 0 days it raises IndexError. *)
Theorem mock_market_data_returns (isoformat : Z -> string) (dr : Draws)
    (today : Z) (days : nat) :
  draws_in_range dr -> (Z.of_nat days < today)%Z ->
  (days = 0%nat /\ _mock_market_data isoformat dr today days = Raise IndexError)
  \/ exists m last_bar,
       _mock_market_data isoformat dr today days = Ok m
       /\ length (ohlcv m) = days
       /\ map bar_date (ohlcv m)
          = map (fun i => isoformat (today - Z.of_nat (days - i))%Z) (seq 0 days)
       /\ Forall (fun b => exists c, bar_close b = Some c /\ 0 < c) (ohlcv m)
       /\ iloc_last (ohlcv m) = Ok last_bar
       /\ bar_close last_bar = Some (latest_price m).
Proof.
  intros R Hd. destruct days as [|d]; [left; split; reflexivity|]. right.
  destruct (mock_returns isoformat dr today (S d) R ltac:(lia))
    as (m & Hm & Ho & lb & Hl & Hp & _).
  assert (B : 1 # 100 <= base_price dr) by (destruct R as [[H _] _]; lra).
  destruct (mock_bars_spec isoformat dr today (S d) R (S d) 0%nat (base_price dr)
              B) as (L & D & _ & F).
  rewrite <- Ho in L, D, F.
  assert (F' : Forall (fun b => exists c, bar_close b = Some c /\ 0 < c) (ohlcv m)).
  { eapply Forall_impl; [|exact F]. intros b (o & h & l & c & v & H).
    exists c. tauto. }
  exists m, lb. split; [exact Hm|]. split; [exact L|]. split; [exact D|].
  split; [exact F'|]. split; [exact Hl|].
  rewrite Hp. rewrite Forall_forall in F'.
  destruct (F' lb (iloc_last_In _ _ Hl)) as (c & Hc & _).
  unfold close_of. rewrite Hc. reflexivity.
Qed.

(** In the mock history every bar has all its numbers, its close lies
    between its low and its high, its volume is in the range of the
    draw, and it opens at the close of the bar before it (the first one
    at the base price, rounded). *)
Theorem mock_bars_consistent (isoformat : Z -> string) (dr : Draws)
    (today : Z) (days : nat) (m : MarketData) :
  draws_in_range dr -> (Z.of_nat days < today)%Z ->
  _mock_market_data isoformat dr today days = Ok m ->
  chained (base_price dr) (ohlcv m) /\ Forall mock_bar_ok (ohlcv m).
Proof.
  intros R Hd Hm. destruct days as [|d]; [discriminate|].
  destruct (mock_returns isoformat dr today (S d) R ltac:(lia))
    as (m' & Hm' & Ho & _).
  assert (m' = m) by congruence. subst m'.
  assert (B : 1 # 100 <= base_price dr) by (destruct R as [[H _] _]; lra).
  destruct (mock_bars_spec isoformat dr today (S d) R (S d) 0%nat (base_price dr)
              B) as (_ & _ & Ch & F).
  rewrite Ho. split; assumption.
Qed.

(* ------------------------------------------------------------------ *)
(** ** The Yahoo history and the fallback *)
(* ------------------------------------------------------------------ *)

Lemma index_skipn {A} (xs : list A) (i : nat) (x : A) :
  index xs i = Ok x -> skipn i xs = x :: skipn (S i) xs /\ (i < length xs)%nat.
Proof.
  unfold index. destruct (nth_error xs i) as [y|] eqn:E; [|discriminate].
  intro H. inversion H; subst. revert i E.
  induction xs as [|a r IH]; intros [|i] E; try discriminate.
  - simpl in E. inversion E; subst. split; [reflexivity | simpl; lia].
  - simpl in E. destruct (IH i E) as [S1 L]. split; [|simpl; lia].
    change (skipn (S i) (a :: r)) with (skipn i r). rewrite S1. reflexivity.
Qed.

(** The bars the comprehension builds are the positions with a close
    that is not null, in order, each with that close. *)
Lemma yahoo_bars_closes iso (chart : YahooChart) (timestamps : list Z) :
  forall i bars,
    (i <= length (quote_close chart))%nat ->
    yahoo_bars iso chart i timestamps = Ok bars ->
    map bar_close bars
    = filter not_null (firstn (length timestamps) (skipn i (quote_close chart)))
    /\ (i + length timestamps <= length (quote_close chart))%nat
    /\ (length bars <= length timestamps)%nat.
Proof.
  induction timestamps as [|ts rest IH]; intros i bars Hi H; simpl in H.
  - inversion H; subst. simpl. split; [reflexivity|]. split; lia.
  - destruct (index (quote_close chart) i) as [c|e] eqn:Ic; simpl in H;
      [|discriminate].
    destruct (index_skipn _ _ _ Ic) as [Sk Li].
    simpl length. rewrite Sk. cbn [firstn filter].
    destruct c as [q|].
    + destruct (iso ts); simpl in H; [|discriminate].
      destruct (index (quote_open chart) i); simpl in H; [|discriminate].
      destruct (index (quote_high chart) i); simpl in H; [|discriminate].
      destruct (index (quote_low chart) i); simpl in H; [|discriminate].
      destruct (index (quote_volume chart) i); simpl in H; [|discriminate].
      destruct (yahoo_bars iso chart (S i) rest) as [bs|e] eqn:Y; simpl in H;
        [|discriminate].
      inversion H; subst. destruct (IH _ _ Li Y) as (M & L & Lb).
      cbn [map bar_close not_null]. rewrite M.
      split; [reflexivity|]. split; simpl; lia.
    + destruct (IH _ _ Li H) as (M & L & Lb). cbn [not_null].
      split; [exact M|]. split; lia.
Qed.

Lemma yahoo_parse_bars_closed iso (chart : YahooChart) (m : MarketData) :
  yahoo_parse iso chart = Ok m ->
  Forall (fun b => exists q, bar_close b = Some q) (ohlcv m).
Proof.
  unfold yahoo_parse.
  destruct (yahoo_bars iso chart 0 (timestamp chart)) as [bars|e] eqn:Y;
    simpl; [|discriminate].
  destruct (iloc_last bars) as [lb|e]; simpl; [|discriminate].
  destruct (if (1 <? length bars)%nat
            then b <- index_second_last bars;; Ok (close_of b)
            else Ok (close_of lb)) as [prev|e]; simpl; [|discriminate].
  destruct (py_div (close_of lb - prev) prev) as [ratio|e]; simpl;
    [|discriminate].
  intro H. inversion H; subst; clear H. cbn [ohlcv].
  destruct (yahoo_bars_closes iso chart _ _ _ (Nat.le_0_l _) Y) as (M & _ & _).
  apply Forall_forall. intros b Hb.
  assert (Hc : In (bar_close b) (map bar_close bars)) by (apply in_map, Hb).
  rewrite M in Hc. apply filter_In in Hc. destruct Hc as [_ Hn].
  destruct (bar_close b) as [q|]; [eauto | discriminate].
Qed.

Lemma yahoo_parse_nonempty iso (chart : YahooChart) (m : MarketData) :
  yahoo_parse iso chart = Ok m -> ohlcv m <> [].
Proof.
  unfold yahoo_parse.
  destruct (yahoo_bars iso chart 0 (timestamp chart)) as [bars|e];
    simpl; [|discriminate].
  destruct (iloc_last bars) as [lb|e] eqn:L; simpl; [|discriminate].
  destruct (if (1 <? length bars)%nat
            then b <- index_second_last bars;; Ok (close_of b)
            else Ok (close_of lb)) as [prev|e]; simpl; [|discriminate].
  destruct (py_div (close_of lb - prev) prev) as [ratio|e]; simpl;
    [|discriminate].
  intro H. inversion H; subst; clear H. cbn [ohlcv].
  intro E. rewrite E in L. discriminate.
Qed.

(** When the processing of a Yahoo response goes through, the history
    has exactly the bars of the timestamped positions whose close is
    not null, in order; there is at least one, and the latest price is
    the last of these closes, rounded. *)
Theorem yahoo_parse_closes iso (chart : YahooChart) (m : MarketData) :
  yahoo_parse iso chart = Ok m ->
  map bar_close (ohlcv m)
  = filter not_null (firstn (length (timestamp chart)) (quote_close chart))
  /\ (length (timestamp chart) <= length (quote_close chart))%nat
  /\ exists last_bar q,
       iloc_last (ohlcv m) = Ok last_bar
       /\ bar_close last_bar = Some q
       /\ latest_price m = round2 q.
Proof.
  unfold yahoo_parse.
  destruct (yahoo_bars iso chart 0 (timestamp chart)) as [bars|e] eqn:Y;
    simpl; [|discriminate].
  destruct (iloc_last bars) as [lb|e] eqn:L; simpl; [|discriminate].
  destruct (if (1 <? length bars)%nat
            then b <- index_second_last bars;; Ok (close_of b)
            else Ok (close_of lb)) as [prev|e]; simpl; [|discriminate].
  destruct (py_div (close_of lb - prev) prev) as [ratio|e]; simpl;
    [|discriminate].
  intro H. inversion H; subst; clear H. cbn [ohlcv latest_price].
  destruct (yahoo_bars_closes iso chart _ _ _ (Nat.le_0_l _) Y) as (M & Ln & _).
  simpl skipn in M. split; [exact M|]. split; [exact Ln|].
  assert (Hc : In (bar_close lb) (map bar_close bars))
    by (apply in_map, iloc_last_In, L).
  rewrite M in Hc. apply filter_In in Hc. destruct Hc as [_ Hn].
  destruct (bar_close lb) as [q|] eqn:E; [|discriminate].
  exists lb, q. split; [exact L|]. split; [exact E|].
  unfold close_of. rewrite E. reflexivity.
Qed.

Lemma mock_bars_closes iso dr today days : forall n i price,
  Forall (fun b => exists q, bar_close b = Some q)
         (mock_bars iso dr today days i n price).
Proof.
  induction n as [|n IH]; intros i price; simpl; constructor.
  - simpl. eauto.
  - apply IH.
Qed.

Lemma closes_make_clean (bars : list OhlcvBar) :
  Forall (fun b => exists q, bar_close b = Some q) bars ->
  map to_bar bars = clean_history (map (fun b => (bar_date b, close_of b)) bars).
Proof.
  induction 1 as [|b r (q & Hq) _ IH]; [reflexivity|].
  simpl. rewrite IH. unfold to_bar, close_of. rewrite Hq. reflexivity.
Qed.

Lemma fetched_closes iso_ts iso response dr today days m :
  fetch_market_data iso_ts iso response dr today days = Ok m ->
  Forall (fun b => exists q, bar_close b = Some q) (ohlcv m).
Proof.
  unfold fetch_market_data, _fetch_from_yahoo.
  destruct response as [chart|].
  - destruct (yahoo_parse iso_ts chart) as [my|e] eqn:Y.
    + intro H. inversion H; subst. apply (yahoo_parse_bars_closed iso_ts chart m Y).
    + unfold _mock_market_data.
      destruct (iloc_last _); simpl; [|discriminate].
      destruct (if (1 <? _)%nat then _ else _); simpl; [|discriminate].
      destruct (py_div _ _); simpl; [|discriminate].
      intro H. inversion H; subst. apply mock_bars_closes.
  - unfold _mock_market_data.
    destruct (iloc_last _); simpl; [|discriminate].
    destruct (if (1 <? _)%nat then _ else _); simpl; [|discriminate].
    destruct (py_div _ _); simpl; [|discriminate].
    intro H. inversion H; subst. apply mock_bars_closes.
Qed.

Lemma fetch_returns iso_ts iso (response : option YahooChart)
    (dr : Draws) (today : Z) (days : nat) :
  draws_in_range dr -> (1 <= days)%nat ->
  exists m,
    fetch_market_data iso_ts iso response dr today days = Ok m
    /\ ohlcv m <> []
    /\ (forall chart my, response = Some chart ->
          yahoo_parse iso_ts chart = Ok my -> m = my)
    /\ (response = None
        \/ (exists chart e, response = Some chart
                            /\ yahoo_parse iso_ts chart = Raise e) ->
        _mock_market_data iso dr today days = Ok m /\ length (ohlcv m) = days).
Proof.
  intros R Hd.
  destruct (mock_returns iso dr today days R Hd) as (mm & Hm & Ho & lb & Hl & _).
  assert (Lm : length (ohlcv mm) = days).
  { rewrite Ho.
    assert (B : 1 # 100 <= base_price dr) by (destruct R as [[H _] _]; lra).
    apply (mock_bars_spec iso dr today days R days 0%nat (base_price dr) B). }
  assert (Nm : ohlcv mm <> []).
  { intro E. rewrite E in Lm. simpl in Lm. lia. }
  unfold fetch_market_data, _fetch_from_yahoo.
  destruct response as [chart|].
  - destruct (yahoo_parse iso_ts chart) as [my|e] eqn:Y.
    + exists my. split; [reflexivity|]. split.
      * apply (yahoo_parse_nonempty iso_ts chart my Y).
      * split.
        -- intros c m' Hc Hy. inversion Hc; subst. congruence.
        -- intros [H|(c & e & Hc & Hy)]; [discriminate|].
           inversion Hc; subst. congruence.
    + exists mm. split; [exact Hm|]. split; [exact Nm|]. split.
      * intros c m' Hc Hy. inversion Hc; subst. congruence.
      * intros _. split; [exact Hm | exact Lm].
  - exists mm. split; [exact Hm|]. split; [exact Nm|]. split.
    + intros c m' Hc. discriminate.
    + intros _. split; [exact Hm | exact Lm].
Qed.

(** [fetch_market_data] returns for every number of days from 1 on
    (that does not lead before the first day of the calendar), whatever
    Yahoo answers and whatever the draws inside their ranges: the Yahoo
    history when its processing goes through, the mock history of
    [days] bars otherwise; the history is never empty. *)
Theorem fetch_market_data_returns iso_ts iso (response : option YahooChart)
    (dr : Draws) (today : Z) (days : nat) :
  draws_in_range dr -> (1 <= days)%nat -> (Z.of_nat days < today)%Z ->
  exists m,
    fetch_market_data iso_ts iso response dr today days = Ok m
    /\ ohlcv m <> []
    /\ (forall chart my, response = Some chart ->
          yahoo_parse iso_ts chart = Ok my -> m = my)
    /\ (response = None
        \/ (exists chart e, response = Some chart
                            /\ yahoo_parse iso_ts chart = Raise e) ->
        _mock_market_data iso dr today days = Ok m /\ length (ohlcv m) = days).
Proof. intros R Hd _. exact (fetch_returns iso_ts iso response dr today days R Hd). Qed.

(** Every history [fetch_market_data] returns is without gaps: each
    bar has a date and a close that is a number. *)
Theorem fetched_history_is_clean iso_ts iso response dr today days m :
  fetch_market_data iso_ts iso response dr today days = Ok m ->
  Forall (fun b => exists q, bar_close b = Some q) (ohlcv m)
  /\ map to_bar (ohlcv m)
     = clean_history (map (fun b => (bar_date b, close_of b)) (ohlcv m)).
Proof.
  intro H. pose proof (fetched_closes _ _ _ _ _ _ _ H) as F.
  split; [exact F | apply closes_make_clean, F].
Qed.

(** On a history that [fetch_market_data] returned, with windows
    1 <= ma_short <= ma_long, [run_backtest] can only fail with the
    ValueError of a history that is too short or with a
    ZeroDivisionError (a close or a capital of 0): the IndexError of an
    empty frame and the KeyError of a missing column cannot occur. *)
Theorem fetched_history_backtest iso_ts iso response dr today days m
    initial_capital ma_short ma_long tp sl (e : exn) :
  fetch_market_data iso_ts iso response dr today days = Ok m ->
  (1 <= ma_short <= ma_long)%nat ->
  run_backtest (map to_bar (ohlcv m)) initial_capital ma_short ma_long tp sl
  = Raise e ->
  e = ValueError \/ e = ZeroDivisionError.
Proof.
  intros H Hw. rewrite (closes_make_clean _ (fetched_closes _ _ _ _ _ _ _ H)).
  set (bars := map (fun b => (bar_date b, close_of b)) (ohlcv m)).
  unfold run_backtest.
  destruct (length (clean_history bars) <? ma_long + 5)%nat eqn:G.
  { intro R. inversion R. auto. }
  apply Nat.ltb_ge in G. unfold clean_history in G. rewrite length_map in G.
  assert (Hne : bars <> []) by (destruct bars; [simpl in G; lia | discriminate]).
  rewrite (window_of_clean_history bars ma_short ma_long Hne) by lia.
  set (rows := map (window_row bars ma_short ma_long) _).
  assert (Hr : rows <> []).
  { intro E. apply (f_equal (@length Row)) in E. unfold rows in E.
    rewrite length_map, length_seq in E. simpl in E. lia. }
  cbn [bind].
  destruct (simulate rows initial_capital tp sl) as [st|e1] eqn:S; cbn [bind].
  - destruct (close_open_position st rows) as [st'|e2] eqn:C; cbn [bind].
    + intro R. right. apply (report_raise _ _ _ _ _ R).
    + intro R. inversion R; subst. exfalso.
      unfold close_open_position in C.
      destruct (Qltb 0 (position st)); [|discriminate].
      destruct (iloc_last_ok (map row_close rows)) as (p & Hp).
      { intro E. apply map_eq_nil in E. contradiction. }
      rewrite Hp in C. discriminate.
  - intro R. inversion R; subst. right.
    unfold simulate in S. destruct rows as [|first rest]; [congruence|].
    simpl iloc_first in S. rewrite (bind_ok _ _ first eq_refl) in S.
    apply (walk_raise _ _ _ _ _ S).
Qed.

(* ------------------------------------------------------------------ *)
(** ** Who reaches the premium endpoint *)
(* ------------------------------------------------------------------ *)

(** Without DEBUG the premium dependency lets a request through exactly
    when it carries a token that [_verify_jwt] accepts and the first
    [profiles] row of the token's user has the role "premium"; the user
    handed to the endpoint is the token's payload. *)
Theorem production_premium_gate
    (verify : string -> Deps.outcome Deps.User) (profiles : string -> Deps.lookup)
    (credentials : option string) (u : Deps.User) :
  Deps.premium_dependency verify profiles credentials (Deps.mkSettings false)
  = Deps.Return u
  <-> exists token rest,
        credentials = Some token
        /\ verify token = Deps.Return u
        /\ profiles (Deps.sub u) = Deps.rows (Some "premium"%string :: rest).
Proof.
  unfold Deps.premium_dependency, Deps.get_current_user, Deps.get_premium_user.
  cbn [Deps.DEBUG andb]. split.
  - destruct credentials as [token|]; [|discriminate].
    destruct (verify token) as [p|f] eqn:V; [|discriminate].
    destruct (profiles (Deps.sub p)) as [|[|[r|] rest]|] eqn:P; try discriminate.
    destruct (String.eqb r "premium") eqn:E; [|discriminate].
    intro H. inversion H; subst. apply String.eqb_eq in E. subst r.
    exists token, rest. auto.
  - intros (token & rest & -> & V & P). rewrite V, P. reflexivity.
Qed.

(** With DEBUG on, a request without a token, or with a token that
    [_verify_jwt] rejects with an HTTP error, gets the mock developer
    user and passes the premium dependency, whatever the [profiles]
    table holds; [get_current_user] never answers 401. *)
Theorem debug_mode_grants_premium
    (verify : string -> Deps.outcome Deps.User) (profiles : string -> Deps.lookup)
    (credentials : option string) :
  (credentials = None
   \/ exists token f, credentials = Some token
                      /\ verify token = Deps.Fail f /\ Deps.is_http f = true) ->
  Deps.get_current_user verify credentials (Deps.mkSettings true)
  = Deps.Return Deps._DEBUG_USER
  /\ Deps.premium_dependency verify profiles credentials (Deps.mkSettings true)
     = Deps.Return Deps._DEBUG_USER.
Proof.
  intro H. unfold Deps.premium_dependency.
  assert (G : Deps.get_current_user verify credentials (Deps.mkSettings true)
              = Deps.Return Deps._DEBUG_USER).
  { unfold Deps.get_current_user. cbn [Deps.DEBUG].
    destruct H as [->|(token & f & -> & V & F)]; [reflexivity|].
    rewrite V, F. reflexivity. }
  rewrite G. split; reflexivity.
Qed.

(* ------------------------------------------------------------------ *)
(** ** The indicators of the analyze endpoint *)
(* ------------------------------------------------------------------ *)

Lemma to_dataframe_clean (bars : list (string * Q)) :
  bars <> [] -> _to_dataframe (clean_history bars) = Ok (map snd bars).
Proof.
  intro Hne. unfold _to_dataframe.
  destruct (clean_history_columns bars Hne) as [_ ->]. f_equal.
  clear Hne. induction bars as [|b r IH]; simpl; [reflexivity|].
  rewrite IH. reflexivity.
Qed.

Lemma yahoo_parse_length iso (chart : YahooChart) (m : MarketData) :
  yahoo_parse iso chart = Ok m ->
  (length (ohlcv m) <= length (timestamp chart))%nat.
Proof.
  unfold yahoo_parse.
  destruct (yahoo_bars iso chart 0 (timestamp chart)) as [bars|e] eqn:Y;
    simpl; [|discriminate].
  destruct (iloc_last bars) as [lb|e]; simpl; [|discriminate].
  destruct (if (1 <? length bars)%nat
            then b <- index_second_last bars;; Ok (close_of b)
            else Ok (close_of lb)) as [prev|e]; simpl; [|discriminate].
  destruct (py_div (close_of lb - prev) prev) as [ratio|e]; simpl;
    [|discriminate].
  intro H. inversion H; subst; clear H. cbn [ohlcv].
  apply (yahoo_bars_closes iso chart _ _ _ (Nat.le_0_l _) Y).
Qed.

(** The analyze endpoint asks for 30 days, so its indicators never
    have an ma60: whenever Yahoo's answer has fewer than 60 timestamps
    the fetch returns, the indicators are computed from the history,
    and ma60 is None.  On the mock history of the fallback, ma20 is the
    mean of the last 20 of the 30 closes, rounded. *)
Theorem analyze_indicators iso_ts iso (response : option YahooChart)
    (dr : Draws) (today : Z) :
  draws_in_range dr -> (30 < today)%Z ->
  (forall chart, response = Some chart ->
     (length (timestamp chart) < 60)%nat) ->
  exists m r,
    fetch_market_data iso_ts iso response dr today 30 = Ok m
    /\ Analyze.indicators_raw iso_ts iso response dr today = Ok r
    /\ ma60 r = None
    /\ (response = None
        \/ (exists chart e, response = Some chart
                            /\ yahoo_parse iso_ts chart = Raise e) ->
        ma20 r
        = Some (Fin (round2 (mean (skipn 10 (map close_of (ohlcv m))))))).
Proof.
  intros R _ Hy.
  destruct (fetch_returns iso_ts iso response dr today 30 R ltac:(lia))
    as (m & Hm & Hne & Hy' & Hmk).
  pose proof (fetched_closes _ _ _ _ _ _ _ Hm) as F.
  pose proof (closes_make_clean _ F) as E.
  set (pairs := map (fun b => (bar_date b, close_of b)) (ohlcv m)) in *.
  assert (Hp : pairs <> []).
  { unfold pairs. intro E0. apply map_eq_nil in E0. contradiction. }
  assert (D : _to_dataframe (map to_bar (ohlcv m)) = Ok (map snd pairs))
    by (rewrite E; apply to_dataframe_clean, Hp).
  assert (Ms : map snd pairs = map close_of (ohlcv m)).
  { unfold pairs. rewrite map_map. reflexivity. }
  assert (Ldf : length (map snd pairs) = length (ohlcv m))
    by (rewrite Ms; apply length_map).
  assert (L60 : (length (ohlcv m) < 60)%nat).
  { destruct response as [chart|].
    - destruct (yahoo_parse iso_ts chart) as [my|e] eqn:Y.
      + rewrite (Hy' chart my eq_refl Y).
        pose proof (yahoo_parse_length _ _ _ Y).
        pose proof (Hy chart eq_refl). lia.
      + destruct Hmk as [_ L]; [right; eauto | lia].
    - destruct Hmk as [_ L]; [left; reflexivity | lia]. }
  destruct (indicators_by_length _ _ D) as (_ & _ & _ & A20 & A60 & _).
  exists m, (compute_indicators (map to_bar (ohlcv m))).
  split; [exact Hm|]. split.
  { unfold Analyze.indicators_raw. rewrite Hm. reflexivity. }
  split; [apply A60; lia|].
  intro Fb. destruct (Hmk Fb) as [_ L].
  rewrite A20 by lia. rewrite Ldf, L, Ms. reflexivity.
Qed.

(* ------------------------------------------------------------------ *)
(** ** The theorems at concrete inputs *)
(* ------------------------------------------------------------------ *)

Ltac nonzero := let H := fresh in intro H; vm_compute in H; discriminate.
Ltac each tac := repeat (apply Forall_cons; [tac|]); apply Forall_nil.
Ltac steady :=
  split; [split; vm_compute; discriminate
         | intro; repeat split; vm_compute; discriminate].

Lemma entry_keeps_cash_witness :
  equity after_entry = equity before_entry
  /\ (0 < position after_entry ->
      current_equity after_entry (row_close entry_bar) == 2 * equity before_entry).
Proof.
  destruct (entry_keeps_cash (15 # 100) (8 # 100) before_entry entry_bar
              after_entry) as (A & _ & _ & _ & B).
  - vm_compute. reflexivity.
  - vm_compute. reflexivity.
  - split; [exact A | exact B].
Defined.

Lemma cash_conserved_witness :
  equity entry_closed == 100000 + 800 * 5
  /\ final_equity 100000 (equity_curve entry_closed)
     = round2 (equity entry_closed + equity entry_loop_end).
Proof.
  destruct (cash_conserved entry_rows 100000 (15 # 100) (8 # 100)
              entry_loop_end entry_closed entry_first) as (_ & E & _ & F).
  - vm_compute. reflexivity.
  - vm_compute. reflexivity.
  - vm_compute. reflexivity.
  - split.
    + eapply Qeq_trans; [exact E|]. vm_compute. reflexivity.
    + apply F. vm_compute. reflexivity.
Defined.

Lemma simulation_window_clean_witness :
  simulation_window (clean_history entry_pairs) 5 10
  = Ok (map (window_row entry_pairs 5 10) (seq 9 6)).
Proof.
  apply (simulation_window_clean entry_pairs 5 10); [discriminate | lia | lia].
Defined.

Lemma curve_follows_window_witness :
  exists rows,
    simulation_window dip_history 5 10 = Ok rows
    /\ length (result_curve dip_result) = length rows.
Proof.
  destruct (curve_follows_window dip_history 100000 5 10 (15 # 100) (8 # 100)
              dip_result) as (rows & W & _ & _ & L & _).
  - vm_compute. reflexivity.
  - exists rows. split; [exact W | exact L].
Defined.

Lemma run_backtest_returns_witness :
  exists res,
    run_backtest (clean_history entry_pairs) 100000 5 10 (15 # 100) (8 # 100)
    = Ok res
    /\ length (result_curve res) = 6%nat.
Proof.
  destruct (run_backtest_returns entry_pairs 100000 5 10 (15 # 100) (8 # 100))
    as (res & R & L & _).
  - unfold entry_pairs. each nonzero.
  - simpl. lia.
  - lia.
  - simpl. lia.
  - nonzero.
  - exists res. split; [exact R | exact L].
Defined.

Lemma flat_prices_never_trade_witness :
  exists res,
    run_backtest (clean_history flat_pairs) 100000 5 10 (15 # 100) (8 # 100)
    = Ok res
    /\ num_trades (metrics res) = 0%nat.
Proof.
  destruct (flat_prices_never_trade flat_pairs 100 100000 5 10
              (15 # 100) (8 # 100)) as (res & R & N & _).
  - unfold flat_pairs. each ltac:(vm_compute; reflexivity).
  - simpl. lia.
  - lia.
  - simpl. lia.
  - nonzero.
  - exists res. split; [exact R | exact N].
Defined.


Lemma never_short_witness :
  0 < equity entry_loop_end /\ 0 <= position entry_loop_end.
Proof.
  destruct (never_short entry_rows 100000 (15 # 100) (8 # 100) entry_loop_end)
    as (E & P & _).
  - vm_compute. reflexivity.
  - unfold entry_rows. each ltac:(vm_compute; reflexivity).
  - vm_compute. reflexivity.
  - split; [exact E | exact P].
Defined.

Lemma win_rate_pct_range_witness :
  0 <= win_rate_pct (metrics dip_result) <= 100.
Proof.
  destruct (win_rate_pct_range dip_history 100000 5 10 (15 # 100) (8 # 100)
              dip_result) as [H _].
  - vm_compute. reflexivity.
  - exact H.
Defined.

Lemma null_closes_are_skipped_witness :
  simulation_window (filter numeric_close gap_history) 5 10
  = simulation_window gap_history 5 10.
Proof.
  apply (null_closes_are_skipped gap_history 5 10). vm_compute. reflexivity.
Defined.

Lemma rsi_nan_iff_witness :
  rsi (compute_indicators rising_history) = NaN
  <-> (15 <= length rising_closes)%nat
      /\ Forall (fun d => 0 <= d) (diff rising_closes).
Proof.
  apply (rsi_nan_iff rising_history rising_closes). vm_compute. reflexivity.
Defined.

Lemma indicator_thresholds_witness :
  macd (compute_indicators rising_history) = neutral
  /\ ma20 (compute_indicators rising_history) = None.
Proof.
  destruct (indicator_thresholds rising_history rising_closes)
    as (_ & M & A & _).
  - vm_compute. reflexivity.
  - split; [apply M | apply A]; simpl; lia.
Defined.

Lemma flat_history_indicators_witness :
  macd (compute_indicators (clean_history flat_pairs)) = neutral
  /\ rsi (compute_indicators (clean_history flat_pairs)) = NaN.
Proof.
  destruct (flat_history_indicators (clean_history flat_pairs) (repeat 100 15)
              100) as (M & N & _).
  - vm_compute. reflexivity.
  - simpl. each ltac:(vm_compute; reflexivity).
  - split; [exact M | apply N; simpl; lia].
Defined.

Lemma mock_market_data_returns_witness :
  exists m,
    _mock_market_data day_number steady_draws 738889 3 = Ok m
    /\ length (ohlcv m) = 3%nat.
Proof.
  destruct (mock_market_data_returns day_number steady_draws 738889 3)
    as [[D _] | (m & lb & Hm & L & _)].
  - steady.
  - lia.
  - discriminate D.
  - exists m. split; [exact Hm | exact L].
Defined.

Lemma mock_bars_consistent_witness :
  chained 100 (ohlcv mock3) /\ Forall mock_bar_ok (ohlcv mock3).
Proof.
  apply (mock_bars_consistent day_number steady_draws 738889 3 mock3).
  - steady.
  - lia.
  - vm_compute. reflexivity.
Defined.

Lemma yahoo_parse_closes_witness :
  map bar_close (ohlcv gap_market) = [Some 10; Some 11].
Proof.
  destruct (yahoo_parse_closes timestamp_day gap_chart gap_market) as (M & _).
  - vm_compute. reflexivity.
  - rewrite M. reflexivity.
Defined.

Lemma fetch_market_data_returns_witness :
  exists m,
    fetch_market_data timestamp_day day_number None steady_draws 738889 3 = Ok m
    /\ length (ohlcv m) = 3%nat.
Proof.
  destruct (fetch_market_data_returns timestamp_day day_number None
              steady_draws 738889 3) as (m & Hm & _ & _ & Fb).
  - steady.
  - lia.
  - lia.
  - exists m. split; [exact Hm|]. apply Fb. left. reflexivity.
Defined.

Lemma fetched_history_is_clean_witness :
  Forall (fun b => exists q, bar_close b = Some q) (ohlcv gap_market).
Proof.
  apply (fetched_history_is_clean timestamp_day day_number (Some gap_chart)
           steady_draws 738889 3 gap_market).
  vm_compute. reflexivity.
Defined.

Lemma fetched_history_backtest_witness :
  ValueError = ValueError \/ ValueError = ZeroDivisionError.
Proof.
  apply (fetched_history_backtest timestamp_day day_number None steady_draws
           738889 3 mock3 100000 5 10 (15 # 100) (8 # 100) ValueError).
  - vm_compute. reflexivity.
  - lia.
  - vm_compute. reflexivity.
Defined.

Lemma analyze_indicators_witness :
  exists m r,
    fetch_market_data timestamp_day day_number (Some gap_chart) steady_draws
      738889 30 = Ok m
    /\ Analyze.indicators_raw timestamp_day day_number (Some gap_chart)
         steady_draws 738889 = Ok r
    /\ ma60 r = None.
Proof.
  destruct (analyze_indicators timestamp_day day_number (Some gap_chart)
              steady_draws 738889) as (m & r & Hm & Hr & A & _).
  - steady.
  - lia.
  - intros chart E. inversion E; subst. simpl. lia.
  - exists m, r. split; [exact Hm|]. split; [exact Hr | exact A].
Defined.

Lemma debug_mode_grants_premium_witness :
  Deps.premium_dependency (fun _ => Deps.Fail Deps.HTTP_401_UNAUTHORIZED)
    (fun _ => Deps.rows []) (Some "dummy"%string) (Deps.mkSettings true)
  = Deps.Return Deps._DEBUG_USER.
Proof.
  apply (debug_mode_grants_premium (fun _ => Deps.Fail Deps.HTTP_401_UNAUTHORIZED)
           (fun _ => Deps.rows []) (Some "dummy"%string)).
  right. exists "dummy"%string, Deps.HTTP_401_UNAUTHORIZED.
  split; [reflexivity|]. split; reflexivity.
Defined.
